(** * Market Peak Analysis Service: a shallow embedding of [index.js]

    The development models the aggregation-and-assessment pipeline of the
    service: the daily closes cache ([refreshDailyClosesCache],
    [getCachedDailyCloses]), the indicator summary
    ([generateBullPeakSummary]), the down-sampling of the minute series
    ([formatSeriesForPrompt]), the extraction of JSON from the completion
    text ([parseJsonFromText]), the validation of the verdict
    ([validateOutput]), persistence ([storeResult]) and the orchestration of
    one run ([analyze]); then the callbacks of the listener on the latest
    indicators document ([setupBullPeakLatestListener]), [getRecent] and
    the two routes that read the stored analyses.

    JavaScript values are an inductive type; a thrown exception is the
    [Throw] case of a result type; the module-level cache and the Firestore
    collection are explicit state.  The builtins of the language the
    program calls ([JSON.parse], [JSON.stringify], the rendering of a
    number, the numeric value of a string, the order [sort] leaves under a
    comparator that is not consistent) are the fields of a record [runtime]
    that every function takes: every theorem holds for all of them.  [Reference.rt] is an executable instance, used to run the model
    on explicit inputs. *)

From Stdlib Require Import List String Ascii Bool Arith ZArith QArith Qround Lia.
From Stdlib Require Import Sorted Permutation DecimalString.
Import ListNotations.

Set Warnings "-register-all".

Local Open Scope string_scope.
Local Open Scope list_scope.
Local Open Scope nat_scope.

(* ================================================================== *)
(** * JavaScript values *)
(* ================================================================== *)

Module JS.

(** A JavaScript number: a finite value, [NaN] or an infinity.  Finite
    doubles are rationals; the program only compares numbers, tests them for
    finiteness and takes the sign of a difference, and on finite doubles all
    three agree with the same operations on rationals. *)
Inductive number : Type :=
| NaN
| PosInf
| NegInf
| Fin (q : Q).

(** Values as they come out of [JSON.parse], of the HTTP client and of a
    Firestore document.  An object keeps its properties in insertion order.
    A JavaScript string is modelled by a [string] whose characters are the
    code units below 256. *)
Inductive value : Type :=
| VUndef
| VNull
| VBool (b : bool)
| VNum (n : number)
| VStr (s : string)
| VArr (elems : list value)
| VObj (fields : list (string * value)).

(** What a [throw] carries.  [JsError msg] is [new Error(msg)];
    [JsTypeError] and [JsSyntaxError] are raised by the runtime (property
    access on null or undefined, [in] on a primitive, a call of something
    that is not a function; [JSON.parse]), and [Rejected] is a rejection
    coming from an external collaborator (HTTP client, Firestore). *)
Inductive exn : Type :=
| JsError (msg : string)
| JsTypeError
| JsSyntaxError
| Rejected (msg : string).

Inductive result (A : Type) : Type :=
| Ok (a : A)
| Throw (e : exn).
Arguments Ok {A} a.
Arguments Throw {A} e.

Definition bind {A B : Type} (r : result A) (k : A -> result B) : result B :=
  match r with
  | Ok a => k a
  | Throw e => Throw e
  end.

Definition Qlt_bool (a b : Q) : bool := negb (Qle_bool b a).

Definition isFinite (n : number) : bool :=
  match n with Fin _ => true | _ => false end.

(** [a < b] on numbers. *)
Definition num_ltb (a b : number) : bool :=
  match a, b with
  | NaN, _ | _, NaN => false
  | Fin x, Fin y => Qlt_bool x y
  | NegInf, NegInf => false
  | NegInf, _ => true
  | _, PosInf => match a with PosInf => false | _ => true end
  | _, _ => false
  end.

(** [a - b] on numbers. *)
Definition num_sub (a b : number) : number :=
  match a, b with
  | NaN, _ | _, NaN => NaN
  | Fin x, Fin y => Fin (x - y)
  | PosInf, PosInf | NegInf, NegInf => NaN
  | PosInf, _ => PosInf
  | NegInf, _ => NegInf
  | Fin _, PosInf => NegInf
  | Fin _, NegInf => PosInf
  end.

Definition num_is_zero (n : number) : bool :=
  match n with Fin q => Qeq_bool q 0 | _ => false end.

(** [Number.isInteger]. *)
Definition isInteger (n : number) : bool :=
  match n with
  | Fin q => Qeq_bool q (inject_Z (Qfloor q))
  | _ => false
  end.

(** Truthiness ([ToBoolean]). *)
Definition truthy (v : value) : bool :=
  match v with
  | VUndef | VNull => false
  | VBool b => b
  | VNum NaN => false
  | VNum n => negb (num_is_zero n)
  | VStr s => negb (String.eqb s EmptyString)
  | VArr _ | VObj _ => true
  end.

(** [a || b], on values already evaluated: none of the operands the
    program writes has an effect. *)
Definition or_else (a b : value) : value := if truthy a then a else b.

(** [a ?? b]. *)
Definition nullish (v : value) : bool :=
  match v with VUndef | VNull => true | _ => false end.

Definition coalesce (a b : value) : value := if nullish a then b else a.

Definition isArray (v : value) : bool :=
  match v with VArr _ => true | _ => false end.

Definition isString (v : value) : bool :=
  match v with VStr _ => true | _ => false end.

(** Own property of an object. *)
Fixpoint get_own (fields : list (string * value)) (k : string) : option value :=
  match fields with
  | [] => None
  | (k', v) :: rest => if String.eqb k' k then Some v else get_own rest k
  end.

(** [obj[k] = v] on the property list: an existing key keeps its place. *)
Fixpoint set_own (fields : list (string * value)) (k : string) (v : value)
  : list (string * value) :=
  match fields with
  | [] => [(k, v)]
  | (k', v') :: rest =>
      if String.eqb k' k then (k, v) :: rest else (k', v') :: set_own rest k v
  end.

(** [{...a, ...b}] on property lists. *)
Definition spread (a b : list (string * value)) : list (string * value) :=
  fold_left (fun acc kv => set_own acc (fst kv) (snd kv)) b a.

(** [v.k] for the property names the program reads.  None of them is an
    array index, ["length"] or the name of a prototype member, so an array,
    a string, a number and a boolean have no such property; on [null] and
    [undefined] the access throws. *)
Definition get_prop (v : value) (k : string) : result value :=
  match v with
  | VUndef | VNull => Throw JsTypeError
  | VObj fields => Ok (match get_own fields k with Some x => x | None => VUndef end)
  | _ => Ok VUndef
  end.

(** [v?.k]. *)
Definition opt_prop (v : value) (k : string) : value :=
  match v with
  | VObj fields => match get_own fields k with Some x => x | None => VUndef end
  | _ => VUndef
  end.

(** [v?.[i]] for a numeric index: the element of an array, the property
    of an object named by the decimal numeral, the character of a string. *)
Definition opt_index (v : value) (i : nat) : value :=
  match v with
  | VArr l => nth i l VUndef
  | VObj fields =>
      match get_own fields (NilZero.string_of_uint (Nat.to_uint i)) with
      | Some x => x
      | None => VUndef
      end
  | VStr s =>
      match String.get i s with
      | Some c => VStr (String c EmptyString)
      | None => VUndef
      end
  | _ => VUndef
  end.

(** [k in v], for the same property names: it throws on a primitive. *)
Definition in_op (k : string) (v : value) : result bool :=
  match v with
  | VObj fields => Ok (match get_own fields k with Some _ => true | None => false end)
  | VArr _ => Ok false
  | _ => Throw JsTypeError
  end.

End JS.
Import JS.

Notation "x <- c1 ;; c2" := (bind c1 (fun x => c2))
  (at level 61, c1 at next level, right associativity).

(* ================================================================== *)
(** * Validation of the verdict: [validateOutput] *)
(* ================================================================== *)

Definition required : list string :=
  ["score"; "analysis"; "reasoning"; "key_factors"].

(** [for (const k of required) if (!(k in obj)) throw new Error(`Missing: ${k}`)] *)
Fixpoint check_required (obj : value) (ks : list string) : result unit :=
  match ks with
  | [] => Ok tt
  | k :: rest =>
      b <- in_op k obj ;;
      if b then check_required obj rest
      else Throw (JsError ("Missing: " ++ k))
  end.

(** The test on [obj.score]; [||] stops at the first operand that holds. *)
Definition score_rejected (score : value) : bool :=
  match score with
  | VNum n =>
      num_ltb n (Fin 1) || num_ltb (Fin 100) n || negb (isFinite n)
  | _ => true
  end.

Definition validateOutput (obj : value) : result unit :=
  _ <- check_required obj required ;;
  score <- get_prop obj "score" ;;
  if score_rejected score then Throw (JsError "score must be 1..100 number")
  else
    kf <- get_prop obj "key_factors" ;;
    if negb (isArray kf) then Throw (JsError "key_factors must be array")
    else Ok tt.

(* ================================================================== *)
(** * The runtime's builtins *)
(* ================================================================== *)

(** [JSON_parse] returns [None] where [JSON.parse] throws its
    [SyntaxError]; [NumberToString] is the decimal rendering of a number;
    [StringToNumber] is the numeric value of a string, used when a string
    is an operand of [-].  [sort_ranks] is the order in which
    [Array.prototype.sort] leaves the elements when the comparator is not a
    consistent one, which the language leaves to the implementation: from
    the numbers the comparator subtracts, in the order of the array, the
    rank of each element in the result. *)
Record runtime : Type := {
  JSON_parse : string -> option value;
  JSON_stringify : value -> string;
  NumberToString : number -> string;
  StringToNumber : string -> number;
  sort_ranks : list number -> list nat
}.

Definition bool_string (b : bool) : string := if b then "true" else "false".

(** [ToString]: the conversion a template literal applies to an
    interpolated value.  An array is the join of its elements by a comma,
    [null] and [undefined] elements being empty.  An object is converted by
    its [toString] method, then by its [valueOf] method: the inherited
    [toString] gives [[object Object]]; an own property named [toString]
    hides it, and no value of this model being a function, neither method
    then gives a primitive and the conversion throws a [TypeError]. *)
Fixpoint ToString (rt : runtime) (v : value) : result string :=
  match v with
  | VUndef => Ok "undefined"
  | VNull => Ok "null"
  | VBool b => Ok (bool_string b)
  | VNum n => Ok (NumberToString rt n)
  | VStr s => Ok s
  | VArr elems =>
      parts <- (fix join_parts (l : list value) : result (list string) :=
                  match l with
                  | [] => Ok []
                  | e :: rest =>
                      s <- match e with
                           | VUndef | VNull => Ok EmptyString
                           | _ => ToString rt e
                           end ;;
                      ss <- join_parts rest ;;
                      Ok (s :: ss)
                  end) elems ;;
      Ok (String.concat "," parts)
  | VObj fields =>
      match get_own fields "toString" with
      | Some _ => Throw JsTypeError
      | None => Ok "[object Object]"
      end
  end.

Definition parse_or_throw (rt : runtime) (s : string) : result value :=
  match JSON_parse rt s with
  | Some v => Ok v
  | None => Throw JsSyntaxError
  end.

(** [ToNumber], for the operands of [-].  An array is converted through
    its text.  An object is converted by [valueOf], which gives the object
    back, then by [toString]: the inherited one gives [[object Object]],
    which is not a numeral; with an own property named [toString] the
    conversion throws a [TypeError], as in [ToString]. *)
Definition ToNumber (rt : runtime) (v : value) : result number :=
  match v with
  | VUndef => Ok NaN
  | VNull => Ok (Fin 0)
  | VBool b => Ok (if b then Fin 1 else Fin 0)
  | VNum n => Ok n
  | VStr s => Ok (StringToNumber rt s)
  | VArr _ => s <- ToString rt v ;; Ok (StringToNumber rt s)
  | VObj fields =>
      match get_own fields "toString" with
      | Some _ => Throw JsTypeError
      | None => Ok NaN
      end
  end.

(* ================================================================== *)
(** * List helpers for the array methods the program calls *)
(* ================================================================== *)

(** [arr.slice(-n)]: the last [n] elements. *)
Definition lastn {A : Type} (n : nat) (l : list A) : list A :=
  skipn (List.length l - n) l.

(** [arr.filter((_, i) => p(i))], the index counted from [i]. *)
Fixpoint filteri_from {A : Type} (p : nat -> bool) (i : nat) (l : list A)
  : list A :=
  match l with
  | [] => []
  | x :: rest =>
      if p i then x :: filteri_from p (S i) rest
      else filteri_from p (S i) rest
  end.

Definition filteri {A : Type} (p : nat -> bool) (l : list A) : list A :=
  filteri_from p 0 l.

(** [arr.map(f)] with a callback that may throw: the first throw ends it. *)
Fixpoint map_result {A B : Type} (f : A -> result B) (l : list A)
  : result (list B) :=
  match l with
  | [] => Ok []
  | x :: rest =>
      y <- f x ;;
      ys <- map_result f rest ;;
      Ok (y :: ys)
  end.

(** The stable sort, where [gt x y] says that [cmp(x, y) > 0]: the result
    of [arr.sort(cmp)] for a consistent comparator, for which the language
    fixes it. *)
Fixpoint sort_insert {A : Type} (gt : A -> A -> bool) (x : A) (l : list A)
  : list A :=
  match l with
  | [] => [x]
  | y :: rest => if gt x y then y :: sort_insert gt x rest else x :: y :: rest
  end.

Fixpoint js_sort {A : Type} (gt : A -> A -> bool) (l : list A) : list A :=
  match l with
  | [] => []
  | x :: rest => sort_insert gt x (js_sort gt rest)
  end.

(** The elements of [l] by ascending rank, the rank of the [i]-th element
    being the [i]-th of [ranks] (0 when there is none), elements of equal
    rank in their order in [l]: a rearrangement of [l], whatever the
    ranks. *)
Definition arrange {A : Type} (ranks : list nat) (l : list A) : list A :=
  map snd
    (js_sort (fun a b => Nat.ltb (fst b) (fst a))
       (combine (map (fun i => nth i ranks 0) (seq 0 (List.length l))) l)).

(* ================================================================== *)
(** * State and exceptions *)
(* ================================================================== *)

(** A computation that reads and writes a state [S] and may throw; the
    state reached when it throws is kept, as assignments made before a
    [throw] stay made. *)
Definition M (S A : Type) : Type := S -> result A * S.

Definition ret {S A : Type} (a : A) : M S A := fun s => (Ok a, s).

Definition throw {S A : Type} (e : exn) : M S A := fun s => (Throw e, s).

Definition bindM {S A B : Type} (c : M S A) (k : A -> M S B) : M S B :=
  fun s =>
    match c s with
    | (Ok a, s') => k a s'
    | (Throw e, s') => (Throw e, s')
    end.

Definition lift {S A : Type} (r : result A) : M S A := fun s => (r, s).

Definition get_state {S : Type} : M S S := fun s => (Ok s, s).

Definition modify {S : Type} (f : S -> S) : M S unit := fun s => (Ok tt, f s).

(** [try { c } catch (e) { h(e) }]. *)
Definition try_catch {S A : Type} (c : M S A) (h : exn -> M S A) : M S A :=
  fun s =>
    match c s with
    | (Ok a, s') => (Ok a, s')
    | (Throw e, s') => h e s'
    end.

(** [p.catch(() => v)]. *)
Definition catch_with {A : Type} (r : result A) (v : A) : A :=
  match r with Ok a => a | Throw _ => v end.

Notation "x <~ c1 ;; c2" := (bindM c1 (fun x => c2))
  (at level 61, c1 at next level, right associativity).

(* ================================================================== *)
(** * The daily closes cache *)
(* ================================================================== *)

Inductive asset : Type := Bitcoin | Ethereum | Solana.

(** An element of a cached series: the object [{timestamp, close}] built
    by [mapDailyClose]. *)
Record DailyClosePoint : Type := {
  timestamp : value;
  close : value
}.

Definition point_value (p : DailyClosePoint) : value :=
  VObj [("timestamp", timestamp p); ("close", close p)].

(** [dailyClosesCache]. *)
Record DailyClosesCache : Type := {
  bitcoin : list DailyClosePoint;
  ethereum : list DailyClosePoint;
  solana : list DailyClosePoint;
  lastFetchedAt : Z
}.

Definition initial_cache : DailyClosesCache :=
  {| bitcoin := []; ethereum := []; solana := []; lastFetchedAt := 0%Z |}.

Definition cache_get (k : asset) (c : DailyClosesCache) : list DailyClosePoint :=
  match k with
  | Bitcoin => bitcoin c
  | Ethereum => ethereum c
  | Solana => solana c
  end.

Definition cache_set (k : asset) (l : list DailyClosePoint) (c : DailyClosesCache)
  : DailyClosesCache :=
  match k with
  | Bitcoin => {| bitcoin := l; ethereum := ethereum c; solana := solana c;
                  lastFetchedAt := lastFetchedAt c |}
  | Ethereum => {| bitcoin := bitcoin c; ethereum := l; solana := solana c;
                   lastFetchedAt := lastFetchedAt c |}
  | Solana => {| bitcoin := bitcoin c; ethereum := ethereum c; solana := l;
                 lastFetchedAt := lastFetchedAt c |}
  end.

Definition set_lastFetchedAt (t : Z) (c : DailyClosesCache) : DailyClosesCache :=
  {| bitcoin := bitcoin c; ethereum := ethereum c; solana := solana c;
     lastFetchedAt := t |}.

(** [Number.isFinite(v)]. *)
Definition Number_isFinite (v : value) : bool :=
  match v with VNum n => isFinite n | _ => false end.

(** The callback of [.map] in [mapDailyClose]:
    [d => ({timestamp: d.timestamp, close: d.close ?? d.price ?? d.c ?? null})]. *)
Definition normalize_point (d : value) : result DailyClosePoint :=
  t <- get_prop d "timestamp" ;;
  c1 <- get_prop d "close" ;;
  c2 <- get_prop d "price" ;;
  c3 <- get_prop d "c" ;;
  Ok {| timestamp := t;
        close := coalesce (coalesce (coalesce c1 c2) c3) VNull |}.

(** The comparator [(a, b) => a.timestamp - b.timestamp]: the subtraction
    converts its operands to numbers, the left one first. *)
Definition by_timestamp (rt : runtime) (a b : DailyClosePoint) : result number :=
  x <- ToNumber rt (timestamp a) ;;
  y <- ToNumber rt (timestamp b) ;;
  Ok (num_sub x y).

(** The test "the result of the comparator is positive", which the stable
    sort makes once every timestamp has converted. *)
Definition by_timestamp_gt (rt : runtime) (a b : DailyClosePoint) : bool :=
  match by_timestamp rt a b with
  | Ok v => num_ltb (Fin 0) v
  | Throw _ => false
  end.

(** [.sort((a, b) => a.timestamp - b.timestamp)].  With fewer than two
    elements the comparator is not called.  With two or more, every element
    is an operand of some call, so the sort throws when the timestamp of an
    element does not convert to a number.  The comparator is a consistent
    one when every timestamp converts to a finite number, and the result is
    then the stable sort; when one converts to NaN or to an infinity, the
    comparator gives NaN on some pair, and the order is the one of the
    implementation. *)
Definition sort_by_timestamp (rt : runtime) (l : list DailyClosePoint)
  : result (list DailyClosePoint) :=
  match l with
  | [] | [_] => Ok l
  | _ =>
      keys <- map_result (fun p => ToNumber rt (timestamp p)) l ;;
      if forallb isFinite keys then Ok (js_sort (by_timestamp_gt rt) l)
      else Ok (arrange (sort_ranks rt keys) l)
  end.

Definition DAILY_CAP : nat := 900.

(** [mapDailyClose].  [(arr || [])] is an array or a truthy value without a
    [map] method, on which the call throws. *)
Definition mapDailyClose (rt : runtime) (arr : value)
  : result (list DailyClosePoint) :=
  match or_else arr (VArr []) with
  | VArr elems =>
      mapped <- map_result normalize_point elems ;;
      sorted <- sort_by_timestamp rt
                  (filter (fun d => Number_isFinite (close d)) mapped) ;;
      Ok (lastn DAILY_CAP sorted)
  | _ => Throw JsTypeError
  end.

(** [await Promise.all([a, b, c])] of three requests already issued: the
    three results if all are fulfilled, a rejection if one is rejected. *)
Definition promise_all3 {A : Type} (a b c : result A) : result (A * A * A) :=
  match a, b, c with
  | Ok x, Ok y, Ok z => Ok (x, y, z)
  | Throw e, _, _ => Throw e
  | _, Throw e, _ => Throw e
  | _, _, Throw e => Throw e
  end.

(** The body of the [try] block of [refreshDailyClosesCache].  [fetch k]
    is the outcome of the request for [k]: the body of the response, or the
    rejection.  [Promise.all] rejects as soon as one request does, and then
    nothing after the [await] runs. *)
Definition refresh_body (rt : runtime) (fetch : asset -> result value) (now : Z)
  : M DailyClosesCache unit :=
  resps <~ lift (promise_all3 (fetch Bitcoin) (fetch Ethereum) (fetch Solana)) ;;
  let '(btcDailyResp, ethDailyResp, solDailyResp) := resps in
  b <~ lift (mapDailyClose rt (opt_prop btcDailyResp "data")) ;;
  _ <~ modify (cache_set Bitcoin b) ;;
  e <~ lift (mapDailyClose rt (opt_prop ethDailyResp "data")) ;;
  _ <~ modify (cache_set Ethereum e) ;;
  s <~ lift (mapDailyClose rt (opt_prop solDailyResp "data")) ;;
  _ <~ modify (cache_set Solana s) ;;
  modify (set_lastFetchedAt now).

(** [refreshDailyClosesCache]: the [catch] logs and returns. *)
Definition refreshDailyClosesCache (rt : runtime) (fetch : asset -> result value)
  (now : Z) : M DailyClosesCache unit :=
  try_catch (refresh_body rt fetch now) (fun _ => ret tt).

(** The key chosen by [getCachedDailyCloses]. *)
Definition cache_key (symbol : value) : asset :=
  match symbol with
  | VStr s =>
      if String.eqb s "ethereum" then Ethereum
      else if String.eqb s "solana" then Solana
      else Bitcoin
  | _ => Bitcoin
  end.

(** [getCachedDailyCloses]. *)
Definition getCachedDailyCloses (rt : runtime) (fetch : asset -> result value)
  (now : Z) (symbol : value) : M DailyClosesCache (list DailyClosePoint) :=
  let key := cache_key symbol in
  st <~ get_state ;;
  let cached := cache_get key st in
  if Nat.ltb 0 (List.length cached) then ret cached
  else
    _ <~ refreshDailyClosesCache rt fetch now ;;
    st' <~ get_state ;;
    ret (cache_get key st').

(* ================================================================== *)
(** * The indicator summary: [generateBullPeakSummary] *)
(* ================================================================== *)

Definition newline : string := String (ascii_of_nat 10) EmptyString.

Definition NO_INDICATORS : string := "No Bull Market Peak Indicators available".

(** The callback of [.map] in [generateBullPeakSummary]: the template
    literal converts the name, the value and the threshold to text, in this
    order, and throws where a conversion does. *)
Definition indicator_line (rt : runtime) (ind : value) : result string :=
  let name := or_else (opt_prop ind "indicator_name") (VStr "Unknown Indicator") in
  let hit := truthy (opt_prop ind "hit_status") in
  let val := or_else (or_else (opt_prop ind "current_value") (opt_prop ind "value"))
               (VStr "N/A") in
  let threshold := or_else (opt_prop ind "threshold") (VStr "N/A") in
  n <- ToString rt name ;;
  v <- ToString rt val ;;
  t <- ToString rt threshold ;;
  Ok (n ++ ": " ++ bool_string hit ++ " (Value: " ++ v ++ ", Threshold: " ++ t
      ++ ")")%string.

(** The [try] block of [generateBullPeakSummary].  The document is truthy
    where its property is read and the indicators are read through [?.]:
    only the conversions of the template literal can throw. *)
Definition summary_lines (rt : runtime) (latestBullPeakDoc : value)
  : result string :=
  if negb (truthy latestBullPeakDoc) then Ok NO_INDICATORS
  else
    match opt_prop latestBullPeakDoc "indicators" with
    | VArr indicators =>
        lines <- map_result (indicator_line rt) indicators ;;
        Ok (String.concat newline lines)
    | _ => Ok NO_INDICATORS
    end.

(** [generateBullPeakSummary]: the [catch] returns the fixed sentence. *)
Definition generateBullPeakSummary (rt : runtime) (latestBullPeakDoc : value)
  : string :=
  match summary_lines rt latestBullPeakDoc with
  | Ok summary => summary
  | Throw _ => NO_INDICATORS
  end.

(* ================================================================== *)
(** * The recent window: [formatSeriesForPrompt] *)
(* ================================================================== *)

Definition SAMPLE_STRIDE : nat := 5.
Definition RECENT_CAP : nat := 288.

Definition formatSeriesForPrompt (rt : runtime) (arr : value) (label : string)
  : string :=
  match arr with
  | VArr ((_ :: _) as elems) =>
      let sampled := filteri (fun i => Nat.eqb (i mod SAMPLE_STRIDE) 0) elems in
      JSON_stringify rt (VArr (lastn RECENT_CAP sampled))
  | _ => "insufficient_" ++ label ++ "_data"
  end.

(* ================================================================== *)
(** * Extraction of JSON from the completion text: [parseJsonFromText] *)
(* ================================================================== *)

(** The class [\s] on code units below 256. *)
Definition is_space (c : ascii) : bool :=
  let n := nat_of_ascii c in
  ((9 <=? n) && (n <=? 13)) || (n =? 32) || (n =? 160).

(** Case folding of the flag [i]: on code units below 256 only the letters
    a-z and A-Z fold onto each other as far as the pattern is concerned. *)
Definition ascii_upper (c : ascii) : ascii :=
  let n := nat_of_ascii c in
  if (97 <=? n) && (n <=? 122) then ascii_of_nat (n - 32) else c.

Fixpoint prefix_ci (p s : string) : bool :=
  match p, s with
  | EmptyString, _ => true
  | String a p', String b s' =>
      Ascii.eqb (ascii_upper a) (ascii_upper b) && prefix_ci p' s'
  | String _ _, EmptyString => false
  end.

Fixpoint drop (n : nat) (s : string) : string :=
  match n, s with
  | O, _ => s
  | S n', String _ s' => drop n' s'
  | S _, EmptyString => EmptyString
  end.

Fixpoint skip_spaces (s : string) : string :=
  match s with
  | String c s' => if is_space c then skip_spaces s' else s
  | EmptyString => s
  end.

Definition FENCE : string := "```".
Definition FENCE_JSON : string := "```json".

(** The tail [\s*```] of the pattern, matched at the start of [s].  The
    greedy [\s*] takes every space: a fence does not start with one. *)
Definition closes (s : string) : bool := String.prefix FENCE (skip_spaces s).

(** The lazy group [([\s\S]*?)] followed by the tail: the shortest capture
    after which the tail matches. *)
Fixpoint lazy_capture (s : string) : option string :=
  if closes s then Some EmptyString
  else
    match s with
    | EmptyString => None
    | String c s' => option_map (String c) (lazy_capture s')
    end.

(** The greedy [\s*] after the label, then the group: one more space is
    tried first, and given back if the rest does not match. *)
Fixpoint after_label (s : string) : option string :=
  match s with
  | String c s' =>
      if is_space c then
        match after_label s' with
        | Some cap => Some cap
        | None => lazy_capture s
        end
      else lazy_capture s
  | EmptyString => lazy_capture s
  end.

Definition match_here (s : string) : option string :=
  if prefix_ci FENCE_JSON s then after_label (drop 7 s) else None.

(** [text.match(/```json\s*([\s\S]*?)\s*```/i)]: the leftmost match; the
    result is the capture [fenced[1]], [None] when there is no match. *)
Fixpoint match_fence (s : string) : option string :=
  match match_here s with
  | Some cap => Some cap
  | None =>
      match s with
      | EmptyString => None
      | String _ s' => match_fence s'
      end
  end.

(** [text.indexOf(c)]; [None] is the [-1] of the language. *)
Fixpoint indexOf (c : ascii) (s : string) : option nat :=
  match s with
  | EmptyString => None
  | String a s' => if Ascii.eqb a c then Some 0 else option_map S (indexOf c s')
  end.

(** [text.lastIndexOf(c)]. *)
Fixpoint lastIndexOf (c : ascii) (s : string) : option nat :=
  match s with
  | EmptyString => None
  | String a s' =>
      match lastIndexOf c s' with
      | Some i => Some (S i)
      | None => if Ascii.eqb a c then Some 0 else None
      end
  end.

(** [text.slice(i, j)] for [i <= j]. *)
Definition slice (s : string) (i j : nat) : string := substring i (j - i) s.

Definition EMPTY_RESPONSE : exn := JsError "Empty AI response".
Definition NO_JSON_FOUND : exn := JsError "No JSON found in AI response".

Definition LBRACE : ascii := ascii_of_nat 123.
Definition RBRACE : ascii := ascii_of_nat 125.

(** The third strategy, with the final [throw]. *)
Definition parse_braces (rt : runtime) (text : string) : result value :=
  match indexOf LBRACE text, lastIndexOf RBRACE text with
  | Some first, Some last =>
      if first <? last then parse_or_throw rt (slice text first (last + 1))
      else Throw NO_JSON_FOUND
  | _, _ => Throw NO_JSON_FOUND
  end.

(** The second strategy ([try { return JSON.parse(text) } catch (_) {}])
    and what follows it. *)
Definition parse_whole_or_braces (rt : runtime) (text : string) : result value :=
  match JSON_parse rt text with
  | Some v => Ok v
  | None => parse_braces rt text
  end.

Definition parseJsonFromText (rt : runtime) (text : value) : result value :=
  match text with
  | VStr s =>
      if String.eqb s EmptyString then Throw EMPTY_RESPONSE
      else
        match match_fence s with
        | Some ((String _ _) as interior) => parse_or_throw rt interior
        | _ => parse_whole_or_braces rt s
        end
  | _ => Throw EMPTY_RESPONSE
  end.

(* ================================================================== *)
(** * One pipeline run: [buildPromptData], [callLLM], [storeResult], [analyze] *)
(* ================================================================== *)

(** ** The listener on the latest indicators document *)

(** A document snapshot of the store: [doc.exists], [doc.id], and the
    fields [doc.data()] returns for a document that exists. *)
Record DocumentSnapshot : Type := {
  doc_exists : bool;
  doc_id : string;
  doc_data : list (string * value)
}.

(** [{ id: doc.id, ...doc.data() }], in the listener and in [getRecent]. *)
Definition doc_row (doc : DocumentSnapshot) : value :=
  VObj (spread [("id", VStr (doc_id doc))] (doc_data doc)).

(** What [onSnapshot] delivers: a snapshot to its first callback, an error
    to its second. *)
Inductive ListenerEvent : Type :=
| Next (doc : DocumentSnapshot)
| ListenerError (e : exn).

(** The two callbacks of [setupBullPeakLatestListener]: the value they
    assign to [latestData.BULL_PEAK].  The line the first callback logs
    after the assignment is not modelled. *)
Definition onSnapshot (ev : ListenerEvent) : value :=
  match ev with
  | Next doc => if doc_exists doc then doc_row doc else VNull
  | ListenerError _ => VNull
  end.

(** [latestData.BULL_PEAK] after the events, from the value [latest]. *)
Definition latest_after (latest : value) (events : list ListenerEvent) : value :=
  fold_left (fun _ ev => onSnapshot ev) events latest.

(** [latestData.BULL_PEAK] after the events, from the [null] the
    constructor sets. *)
Definition BULL_PEAK_after (events : list ListenerEvent) : value :=
  latest_after VNull events.

(** What the world answers during one run.  Other runs do not interleave
    with it; the listener does, while [buildPromptData] awaits. *)
Record Env : Type := {
  (** [this.latestData.BULL_PEAK] when [buildPromptData] summarizes it *)
  BULL_PEAK : value;
  (** what the listener is delivered from then on, while [buildPromptData]
      awaits the daily closes, until it reads [this.latestData.BULL_PEAK]
      again for the object it returns *)
  snapshots : list ListenerEvent;
  (** outcome of [fetchDataServiceJson("/<asset>?hours=24")] *)
  fetch_minute : asset -> result value;
  (** outcome of the daily requests of the [n]-th call of
      [getCachedDailyCloses] in [buildPromptData], should it refresh *)
  fetch_daily : nat -> asset -> result value;
  (** [Date.now()] in [refreshDailyClosesCache] *)
  refresh_now : Z;
  (** [new Date().toISOString()] in [buildPromptData] *)
  build_iso : string;
  (** [CONFIG.OPENROUTER_API_KEY] is set *)
  api_key_configured : bool;
  (** the prompt filled from the template data and posted: the body of the
      response, or the failure of either step *)
  completion : value -> result value;
  (** [Date.now()] at the start of [analyze] and at the enrichment *)
  t0 : Z;
  t1 : Z;
  (** [db] is not null *)
  db_available : bool;
  (** [db.collection(...).add(doc)]: the identifier of the new document, or
      the rejection *)
  db_add : value -> result string;
  (** [new Date().toISOString()] and [Timestamp.now()] in [storeResult] *)
  store_iso : string;
  store_createdAt : value
}.

(** The state a run reads and writes: the cache, the stored collection, and
    the arguments of the calls of [storeResult] made so far. *)
Record State : Type := {
  daily : DailyClosesCache;
  collection : list value;
  storeResult_calls : list value
}.

Definition with_daily (c : DailyClosesCache) (st : State) : State :=
  {| daily := c; collection := collection st;
     storeResult_calls := storeResult_calls st |}.

(** A computation on the cache, run on the cache of the state. *)
Definition on_cache {A : Type} (c : M DailyClosesCache A) : M State A :=
  fun st => let '(r, d) := c (daily st) in (r, with_daily d st).

Definition MODEL : string := "openai/gpt-5-mini".

(** [fetchCryptoMinuteSeries]: each request has its own [.catch(() => null)]. *)
Definition fetchCryptoMinuteSeries (env : Env) : value * value * value :=
  (catch_with (fetch_minute env Bitcoin) VNull,
   catch_with (fetch_minute env Ethereum) VNull,
   catch_with (fetch_minute env Solana) VNull).

(** [m?.prices || m?.data || m]. *)
Definition recent_window (m : value) : value :=
  or_else (or_else (opt_prop m "prices") (opt_prop m "data")) m.

Definition stringify_daily (rt : runtime) (l : list DailyClosePoint) : string :=
  JSON_stringify rt (VArr (map point_value (lastn DAILY_CAP l))).

Definition buildPromptData (rt : runtime) (env : Env) : M State value :=
  let '(btc24, eth24, sol24) := fetchCryptoMinuteSeries env in
  let bullSummary := generateBullPeakSummary rt (BULL_PEAK env) in
  btcDaily <~ on_cache (getCachedDailyCloses rt (fetch_daily env 0)
                          (refresh_now env) (VStr "bitcoin")) ;;
  ethDaily <~ on_cache (getCachedDailyCloses rt (fetch_daily env 1)
                          (refresh_now env) (VStr "ethereum")) ;;
  solDaily <~ on_cache (getCachedDailyCloses rt (fetch_daily env 2)
                          (refresh_now env) (VStr "solana")) ;;
  ret (VObj
    [("timestamp", VStr (build_iso env));
     ("bull_market_peak_indicators", VStr bullSummary);
     ("bull_market_peak_raw",
        or_else (latest_after (BULL_PEAK env) (snapshots env))
          (VObj [("note", VStr "no_bull_peak_data")]));
     ("bitcoin_recent_minutes_24h",
        VStr (formatSeriesForPrompt rt (recent_window btc24) "btc24"));
     ("bitcoin_daily_900d_close", VStr (stringify_daily rt btcDaily));
     ("ethereum_recent_minutes_24h",
        VStr (formatSeriesForPrompt rt (recent_window eth24) "eth24"));
     ("ethereum_daily_900d_close", VStr (stringify_daily rt ethDaily));
     ("solana_recent_minutes_24h",
        VStr (formatSeriesForPrompt rt (recent_window sol24) "sol24"));
     ("solana_daily_900d_close", VStr (stringify_daily rt solDaily))]).

(** [callLLM]: the text is
    [response.data?.choices?.[0]?.message?.content], or the empty string
    when that is falsy. *)
Definition callLLM (env : Env) (templateData : value) : result value :=
  if negb (api_key_configured env) then
    Throw (JsError "OpenRouter API key not configured")
  else
    data <- completion env templateData ;;
    Ok (or_else
          (opt_prop (opt_prop (opt_index (opt_prop data "choices") 0) "message")
             "content")
          (VStr EmptyString)).

(** The own properties [{...v}] copies.  Only an object reaches the spreads
    of the program: [validateOutput] has thrown on anything else. *)
Definition spread_fields (v : value) : list (string * value) :=
  match v with
  | VObj fields => fields
  | _ => []
  end.

Definition NOT_STORED : value :=
  VObj [("stored", VBool false); ("reason", VStr "firestore_not_available")].

Definition log_storeResult (arg : value) (st : State) : State :=
  {| daily := daily st; collection := collection st;
     storeResult_calls := storeResult_calls st ++ [arg] |}.

Definition append_doc (doc : value) (st : State) : State :=
  {| daily := daily st; collection := collection st ++ [doc];
     storeResult_calls := storeResult_calls st |}.

Definition storeResult (env : Env) (res : value) : M State value :=
  _ <~ modify (log_storeResult res) ;;
  if negb (db_available env) then ret NOT_STORED
  else
    let doc := VObj (spread (spread_fields res)
                 [("timestamp", VStr (store_iso env));
                  ("createdAt", store_createdAt env);
                  ("service", VStr "market-peak-analysis-service");
                  ("serviceVersion", VStr "1.0.0")]) in
    id <~ lift (db_add env doc) ;;
    _ <~ modify (append_doc doc) ;;
    ret (VObj [("stored", VBool true); ("id", VStr id)]).

Definition analysis_metadata (env : Env) : value :=
  VObj [("model", VStr MODEL);
        ("data_sources",
           VArr [VStr "BULL_PEAK"; VStr "BTC"; VStr "ETH"; VStr "SOL"]);
        ("collection_duration_ms",
           VNum (Fin (inject_Z (t1 env - t0 env))))].

(** Step 5 of [analyze]: [{...parsed, analysis_metadata: {...}}]. *)
Definition enrich (env : Env) (parsed : value) : value :=
  VObj (spread (spread_fields parsed)
          [("analysis_metadata", analysis_metadata env)]).

(** [analyze].  Its result is the object
    [{success: true, analysis: enriched, storage}]; a throw is what the
    callers report as a failed run. *)
Definition analyze (rt : runtime) (env : Env) : M State value :=
  templateData <~ buildPromptData rt env ;;
  aiText <~ lift (callLLM env templateData) ;;
  parsed <~ lift (parseJsonFromText rt aiText) ;;
  _ <~ lift (validateOutput parsed) ;;
  let enriched := enrich env parsed in
  storage <~ storeResult env enriched ;;
  ret (VObj [("success", VBool true); ("analysis", enriched);
             ("storage", storage)]).

(** How the callers of [analyze] (the trigger route and the hourly job)
    see a run. *)
Inductive Report : Type :=
| Succeeded (analysis storage : value)
| Failed (e : exn).

Definition report_of (r : result value) : Report :=
  match r with
  | Ok v => Succeeded (opt_prop v "analysis") (opt_prop v "storage")
  | Throw e => Failed e
  end.

Definition run (rt : runtime) (env : Env) (st : State) : Report * State :=
  let '(r, st') := analyze rt env st in (report_of r, st').

(* ================================================================== *)
(** * An executable instance of the builtins *)
(* ================================================================== *)

(** The theorems below hold for every [runtime].  This instance is used to
    run the model on explicit inputs.  It reads and prints numerals
    exactly, where the language rounds to the nearest double: it agrees
    with the language on numerals that are doubles with a short decimal
    expansion (integers below 2^53, halves, quarters, ...), and on strings
    of code units below 256.  Under a comparator that is not consistent its
    sort leaves the elements in their order. *)
Module Reference.

Definition ascii_in (lo hi : nat) (c : ascii) : bool :=
  let n := nat_of_ascii c in (lo <=? n) && (n <=? hi).

Definition is_digit (c : ascii) : bool := ascii_in 48 57 c.

Definition digit_val (c : ascii) : Z := Z.of_nat (nat_of_ascii c - 48).

Definition is_json_ws (c : ascii) : bool :=
  let n := nat_of_ascii c in (n =? 32) || (n =? 9) || (n =? 10) || (n =? 13).

Fixpoint skip_ws (s : string) : string :=
  match s with
  | String c s' => if is_json_ws c then skip_ws s' else s
  | EmptyString => s
  end.

(** Digits at the start of [s]: their value, their number, the rest. *)
Fixpoint take_digits (acc : Z) (count : nat) (s : string) : Z * nat * string :=
  match s with
  | String c s' =>
      if is_digit c then take_digits (10 * acc + digit_val c)%Z (S count) s'
      else (acc, count, s)
  | EmptyString => (acc, count, s)
  end.

(** The largest finite double is below [2^1024]. *)
Definition overflow_bound : Q := inject_Z (2 ^ 1024).

Definition make_number (neg : bool) (mant : Z) (scale : Z) : number :=
  let q := if (0 <=? scale)%Z
           then inject_Z (mant * 10 ^ scale)
           else Qmake mant (Z.to_pos (10 ^ (- scale))) in
  if Qle_bool overflow_bound q then (if neg then NegInf else PosInf)
  else Fin (Qred (if neg then Qopp q else q)).

(** The optional exponent part [[eE][+-]?digits]. *)
Definition take_exponent (s : string) : option (Z * string) :=
  match s with
  | String c s' =>
      if (nat_of_ascii c =? 101) || (nat_of_ascii c =? 69) then
        let '(neg, s'') :=
          match s' with
          | String d r =>
              if nat_of_ascii d =? 45 then (true, r)
              else if nat_of_ascii d =? 43 then (false, r)
              else (false, s')
          | EmptyString => (false, s')
          end in
        let '(e, n, rest) := take_digits 0 0 s'' in
        if n =? 0 then None else Some (if neg then (- e)%Z else e, rest)
      else Some (0%Z, s)
  | EmptyString => Some (0%Z, s)
  end.

(** The fraction and the exponent after the integer part [ip]. *)
Definition take_fraction_exponent (neg : bool) (ip : Z) (s : string)
  : option (number * string) :=
  let frac :=
    match s with
    | String c s' =>
        if nat_of_ascii c =? 46 then
          let '(m, n, rest) := take_digits ip 0 s' in
          if n =? 0 then None else Some (m, n, rest)
        else Some (ip, 0, s)
    | EmptyString => Some (ip, 0, s)
    end in
  match frac with
  | None => None
  | Some (m, n, rest) =>
      match take_exponent rest with
      | None => None
      | Some (e, rest') => Some (make_number neg m (e - Z.of_nat n), rest')
      end
  end.

(** A JSON number: an optional minus sign, an integer part without a
    leading zero, an optional fraction, an optional exponent. *)
Definition parse_number (s : string) : option (number * string) :=
  let '(neg, s1) :=
    match s with
    | String c r => if nat_of_ascii c =? 45 then (true, r) else (false, s)
    | EmptyString => (false, s)
    end in
  match s1 with
  | String c r =>
      if nat_of_ascii c =? 48 then take_fraction_exponent neg 0 r
      else if is_digit c then
        let '(ip, _, rest) := take_digits 0 0 s1 in
        take_fraction_exponent neg ip rest
      else None
  | EmptyString => None
  end.

Definition hex_val (c : ascii) : option nat :=
  let n := nat_of_ascii c in
  if ascii_in 48 57 c then Some (n - 48)
  else if ascii_in 97 102 c then Some (n - 87)
  else if ascii_in 65 70 c then Some (n - 55)
  else None.

(** The four hexadecimal digits of a [\u] escape. *)
Definition take_hex4 (s : string) : option (nat * string) :=
  match s with
  | String a (String b (String c (String d rest))) =>
      match hex_val a, hex_val b, hex_val c, hex_val d with
      | Some x, Some y, Some z, Some w =>
          Some (((x * 16 + y) * 16 + z) * 16 + w, rest)
      | _, _, _, _ => None
      end
  | _ => None
  end.

(** The characters of a string after its opening quote. *)
Fixpoint parse_string_body (fuel : nat) (s : string) : option (string * string) :=
  match fuel with
  | O => None
  | S fuel' =>
      match s with
      | EmptyString => None
      | String c r =>
          let n := nat_of_ascii c in
          if n =? 34 then Some (EmptyString, r)
          else if n <? 32 then None
          else if n =? 92 then
            match r with
            | String e r' =>
                let m := nat_of_ascii e in
                let plain (x : nat) :=
                  option_map (fun '(t, rest) => (String (ascii_of_nat x) t, rest))
                    (parse_string_body fuel' r') in
                if m =? 34 then plain 34
                else if m =? 92 then plain 92
                else if m =? 47 then plain 47
                else if m =? 98 then plain 8
                else if m =? 102 then plain 12
                else if m =? 110 then plain 10
                else if m =? 114 then plain 13
                else if m =? 116 then plain 9
                else if m =? 117 then
                  match take_hex4 r' with
                  | Some (u, r'') =>
                      if u <? 256 then
                        option_map
                          (fun '(t, rest) => (String (ascii_of_nat u) t, rest))
                          (parse_string_body fuel' r'')
                      else None
                  | None => None
                  end
                else None
            | EmptyString => None
            end
          else
            option_map (fun '(t, rest) => (String c t, rest))
              (parse_string_body fuel' r)
      end
  end.

Definition parse_string (s : string) : option (string * string) :=
  parse_string_body (S (String.length s)) s.

Definition expect (lit : string) (v : value) (s : string) : option (value * string) :=
  if String.prefix lit s then Some (v, drop (String.length lit) s) else None.

(** A JSON value at the start of [s], after white space; the elements of
    an array after its bracket or a comma; the members of an object. *)
Fixpoint parse_value (fuel : nat) (s : string) : option (value * string) :=
  match fuel with
  | O => None
  | S fuel' =>
      match skip_ws s with
      | EmptyString => None
      | (String c r) as s0 =>
          let n := nat_of_ascii c in
          if n =? 123 then
            match skip_ws r with
            | String d r' =>
                if nat_of_ascii d =? 125 then Some (VObj [], r')
                else parse_members fuel' (skip_ws r) []
            | EmptyString => None
            end
          else if n =? 91 then
            match skip_ws r with
            | String d r' =>
                if nat_of_ascii d =? 93 then Some (VArr [], r')
                else parse_elements fuel' (skip_ws r) []
            | EmptyString => None
            end
          else if n =? 34 then
            option_map (fun '(t, rest) => (VStr t, rest)) (parse_string r)
          else if n =? 116 then expect "true" (VBool true) s0
          else if n =? 102 then expect "false" (VBool false) s0
          else if n =? 110 then expect "null" VNull s0
          else option_map (fun '(x, rest) => (VNum x, rest)) (parse_number s0)
      end
  end

with parse_elements (fuel : nat) (s : string) (acc : list value)
  : option (value * string) :=
  match fuel with
  | O => None
  | S fuel' =>
      match parse_value fuel' s with
      | None => None
      | Some (v, rest) =>
          match skip_ws rest with
          | String c r =>
              if nat_of_ascii c =? 44 then parse_elements fuel' r (acc ++ [v])
              else if nat_of_ascii c =? 93 then Some (VArr (acc ++ [v]), r)
              else None
          | EmptyString => None
          end
      end
  end

with parse_members (fuel : nat) (s : string) (acc : list (string * value))
  : option (value * string) :=
  match fuel with
  | O => None
  | S fuel' =>
      match skip_ws s with
      | String q r =>
          if nat_of_ascii q =? 34 then
            match parse_string r with
            | None => None
            | Some (k, rest) =>
                match skip_ws rest with
                | String c r1 =>
                    if nat_of_ascii c =? 58 then
                      match parse_value fuel' r1 with
                      | None => None
                      | Some (v, rest') =>
                          match skip_ws rest' with
                          | String d r2 =>
                              if nat_of_ascii d =? 44 then
                                parse_members fuel' r2 (set_own acc k v)
                              else if nat_of_ascii d =? 125 then
                                Some (VObj (set_own acc k v), r2)
                              else None
                          | EmptyString => None
                          end
                      end
                    else None
                | EmptyString => None
                end
            end
          else None
      | EmptyString => None
      end
  end.

(** [JSON.parse]: one value, white space around it, nothing else. *)
Definition json_parse (s : string) : option value :=
  match parse_value (2 * String.length s + 4) s with
  | Some (v, rest) =>
      match skip_ws rest with
      | EmptyString => Some v
      | String _ _ => None
      end
  | None => None
  end.

Definition Z_string (z : Z) : string := NilZero.string_of_int (Z.to_int z).

(** The decimal digits of the fraction [num/den] in [0, 1), at most [fuel]
    of them. *)
Fixpoint fraction_digits (fuel : nat) (num den : Z) : string :=
  match fuel with
  | O => EmptyString
  | S fuel' =>
      if (num =? 0)%Z then EmptyString
      else
        let d := (10 * num / den)%Z in
        String (ascii_of_nat (48 + Z.to_nat d))
          (fraction_digits fuel' (10 * num - d * den)%Z den)
  end.

Definition number_string (n : number) : string :=
  match n with
  | NaN => "NaN"
  | PosInf => "Infinity"
  | NegInf => "-Infinity"
  | Fin q =>
      let num := Qnum q in
      let den := Zpos (Qden q) in
      let a := Z.abs num in
      let ip := (a / den)%Z in
      let fr := (a - ip * den)%Z in
      let body :=
        if (fr =? 0)%Z then Z_string ip
        else (Z_string ip ++ "." ++ fraction_digits 25 fr den)%string in
      if (num <? 0)%Z then ("-" ++ body)%string else body
  end.

Definition hex_digit (n : nat) : ascii :=
  if n <? 10 then ascii_of_nat (48 + n) else ascii_of_nat (87 + n).

(** The characters of a quoted string. *)
Fixpoint quote_body (s : string) : string :=
  match s with
  | EmptyString => EmptyString
  | String c r =>
      let n := nat_of_ascii c in
      let esc (x : string) := ("\" ++ x ++ quote_body r)%string in
      if n =? 34 then esc (String c EmptyString)
      else if n =? 92 then esc "\"
      else if n =? 8 then esc "b"
      else if n =? 12 then esc "f"
      else if n =? 10 then esc "n"
      else if n =? 13 then esc "r"
      else if n =? 9 then esc "t"
      else if n <? 32 then
        esc ("u00" ++ String (hex_digit (n / 16))
                        (String (hex_digit (n mod 16)) EmptyString))%string
      else String c (quote_body r)
  end.

Definition quote (s : string) : string :=
  String (ascii_of_nat 34)
    (quote_body s ++ String (ascii_of_nat 34) EmptyString)%string.

Definition is_undefined (v : value) : bool :=
  match v with VUndef => true | _ => false end.

(** [JSON.stringify] of a value other than [undefined]: in an array
    [undefined] is written [null], in an object a property whose value is
    [undefined] is left out, and a number that is not finite is [null]. *)
Fixpoint json_stringify (v : value) : string :=
  match v with
  | VUndef | VNull => "null"
  | VBool b => bool_string b
  | VNum n => if isFinite n then number_string n else "null"
  | VStr s => quote s
  | VArr elems =>
      ("[" ++ String.concat "," (map json_stringify elems) ++ "]")%string
  | VObj fields =>
      ("{" ++ String.concat ","
                (flat_map (fun '(k, x) =>
                             if is_undefined x then []
                             else [(quote k ++ ":" ++ json_stringify x)%string])
                   fields)
           ++ "}")%string
  end.

Fixpoint rev_string (s acc : string) : string :=
  match s with
  | EmptyString => acc
  | String c r => rev_string r (String c acc)
  end.

Definition trim (s : string) : string :=
  rev_string (skip_spaces (rev_string (skip_spaces s) EmptyString)) EmptyString.

(** The numeric value of a string: empty after trimming is zero, a signed
    decimal literal or [Infinity] is its value, anything else is [NaN].
    (The literals without an integer part or without digits after the
    point, and the literals in another base, are not read by this
    instance.) *)
Definition unsigned_number (t : string) : number :=
  if String.eqb t "Infinity" then PosInf
  else
    let '(ip, n, rest) := take_digits 0 0 t in
    if n =? 0 then NaN
    else
      match take_fraction_exponent false ip rest with
      | Some (x, EmptyString) => x
      | _ => NaN
      end.

Definition string_number (s : string) : number :=
  match trim s with
  | EmptyString => Fin 0
  | String c r as t =>
      if nat_of_ascii c =? 45 then num_sub (Fin 0) (unsigned_number r)
      else if nat_of_ascii c =? 43 then unsigned_number r
      else unsigned_number t
  end.

Definition rt : runtime :=
  {| JSON_parse := json_parse;
     JSON_stringify := json_stringify;
     NumberToString := number_string;
     StringToNumber := string_number;
     sort_ranks := fun keys => map (fun _ => 0) keys |}.

End Reference.

(* ================================================================== *)
(** * The properties the specification states, in its own words *)
(* ================================================================== *)

Module Spec.

(** "[score] a finite number in the inclusive range [1, 100]". *)
Definition score_in_range (v : value) : Prop :=
  exists q : Q, v = VNum (Fin q) /\ (1 <= q)%Q /\ (q <= 100)%Q.

(** The field [k] of the object with properties [fields]; [undefined] when
    it is absent. *)
Definition field (fields : list (string * value)) (k : string) : value :=
  match get_own fields k with Some v => v | None => VUndef end.

Definition is_present (fields : list (string * value)) (k : string) : Prop :=
  get_own fields k <> None.

(** "AssessmentResult: [{score: integer 1..100, analysis: string,
    reasoning: string, key_factors: ordered sequence of string}]". *)
Definition is_AssessmentResult (v : value) : bool :=
  match opt_prop v "score" with
  | VNum n => isInteger n && negb (num_ltb n (Fin 1)) && negb (num_ltb (Fin 100) n)
  | _ => false
  end
  && isString (opt_prop v "analysis")
  && isString (opt_prop v "reasoning")
  && match opt_prop v "key_factors" with
     | VArr l => forallb isString l
     | _ => false
     end.

(** "missing fields render as a literal N/A": the field [k] of the
    indicator, rendered. *)
Definition rendered (rt : runtime) (ind : value) (k : string) : result string :=
  match ind with
  | VObj fields =>
      match get_own fields k with
      | Some v => ToString rt v
      | None => Ok "N/A"
      end
  | _ => Ok "N/A"
  end.

Definition has_field (ind : value) (k : string) : bool :=
  match ind with
  | VObj fields => match get_own fields k with Some _ => true | None => false end
  | _ => false
  end.

(** "[<name>: <hit> (Value: <value>, Threshold: <threshold>)]"; the value
    is the field [current_value], or [value] in the feeds that name it so. *)
Definition summary_line (rt : runtime) (ind : value) : result string :=
  n <- rendered rt ind "indicator_name" ;;
  v <- (if has_field ind "current_value" then rendered rt ind "current_value"
        else rendered rt ind "value") ;;
  t <- rendered rt ind "threshold" ;;
  Ok (n ++ ": " ++ bool_string (truthy (opt_prop ind "hit_status"))
      ++ " (Value: " ++ v ++ ", Threshold: " ++ t ++ ")")%string.

(** "one line per indicator, joined by newlines ... If there is no
    snapshot or it has no indicators, the summary is a fixed sentence". *)
Definition summary (rt : runtime) (snapshot : value) : result string :=
  match opt_prop snapshot "indicators" with
  | VArr ((_ :: _) as indicators) =>
      lines <- map_result (summary_line rt) indicators ;;
      Ok (String.concat newline lines)
  | _ => Ok NO_INDICATORS
  end.

(** "an extraction chain, in order, stopping at the first that yields
    parseable JSON": the interior of the fenced block labeled json, the
    whole text, the substring from the first [{] to the last [}]. *)
Definition candidates (text : string) : list string :=
  match match_fence text with Some interior => [interior] | None => [] end
  ++ [text]
  ++ match indexOf LBRACE text, lastIndexOf RBRACE text with
     | Some first, Some last =>
         if first <? last then [slice text first (last + 1)] else []
     | _, _ => []
     end.

Fixpoint first_parseable (rt : runtime) (cs : list string) : option value :=
  match cs with
  | [] => None
  | c :: rest =>
      match JSON_parse rt c with
      | Some v => Some v
      | None => first_parseable rt rest
      end
  end.

(** "If none succeed, fails with NoStructuredOutputError". *)
Definition extract (rt : runtime) (text : string) : result value :=
  match first_parseable rt (candidates text) with
  | Some v => Ok v
  | None => Throw NO_JSON_FOUND
  end.

(** "a failure fetching one asset must not corrupt or block the others
    already fetched in the same refresh": an asset whose request succeeded
    has its cached series replaced by the normalized answer. *)
Definition partial_success (rt : runtime) (fetch : asset -> result value)
  (now : Z) (c : DailyClosesCache) : Prop :=
  forall k body series,
    fetch k = Ok body ->
    mapDailyClose rt (opt_prop body "data") = Ok series ->
    cache_get k (snd (refreshDailyClosesCache rt fetch now c)) = series.

(** "strictly ascending by timestamp". *)
Definition strictly_ascending (rt : runtime) (l : list DailyClosePoint) : Prop :=
  Sorted (fun a b =>
            exists x y,
              ToNumber rt (timestamp a) = Ok x /\ ToNumber rt (timestamp b) = Ok y
              /\ num_ltb x y = true) l.

End Spec.

(** The states of the cache: the initial one, and the ones a refresh
    leaves, when every answer of the provider satisfies [P]. *)
Inductive reachable (rt : runtime) (P : value -> Prop) : DailyClosesCache -> Prop :=
| reachable_initial : reachable rt P initial_cache
| reachable_refresh (fetch : asset -> result value) (now : Z) (c : DailyClosesCache) :
    (forall k body, fetch k = Ok body -> P body) ->
    reachable rt P c ->
    reachable rt P (snd (refreshDailyClosesCache rt fetch now c)).

(** The answer lists points whose timestamps are finite numbers. *)
Definition timestamps_finite (body : value) : Prop :=
  forall elems,
    opt_prop body "data" = VArr elems ->
    Forall (fun d => exists q : Q, opt_prop d "timestamp" = VNum (Fin q)) elems.

(** [a] is not after [b]: both timestamps are finite numbers, in order. *)
Definition ts_le (a b : DailyClosePoint) : Prop :=
  exists qa qb : Q,
    timestamp a = VNum (Fin qa) /\ timestamp b = VNum (Fin qb) /\ (qa <= qb)%Q.

Definition ts_finite (p : DailyClosePoint) : Prop :=
  exists q : Q, timestamp p = VNum (Fin q).

Definition close_finite (p : DailyClosePoint) : Prop :=
  exists q : Q, close p = VNum (Fin q).

(** [a] is before [b]. *)
Definition ts_lt (a b : DailyClosePoint) : Prop :=
  exists qa qb : Q,
    timestamp a = VNum (Fin qa) /\ timestamp b = VNum (Fin qb) /\ (qa < qb)%Q.

(** A timestamp as a key: the reduced fraction of a finite number. *)
Definition ts_key (t : value) : option Q :=
  match t with
  | VNum (Fin q) => Some (Qred q)
  | _ => None
  end.

(** No two points of the answer carry the same timestamp. *)
Definition timestamps_distinct (body : value) : Prop :=
  forall elems,
    opt_prop body "data" = VArr elems ->
    NoDup (map (fun d => ts_key (opt_prop d "timestamp")) elems).

(** What holds of a cached series: at most 900 points, each with a finite
    close, in ascending order of timestamp when [timed] holds, strictly so
    when [distinct] holds too. *)
Definition series_inv (timed distinct : Prop) (l : list DailyClosePoint) : Prop :=
  List.length l <= 900
  /\ Forall close_finite l
  /\ (timed -> StronglySorted ts_le l)
  /\ (timed -> distinct -> StronglySorted ts_lt l).

Definition cache_inv (timed distinct : Prop) (c : DailyClosesCache) : Prop :=
  forall k, series_inv timed distinct (cache_get k c).

(** The cache after the statements of [refreshDailyClosesCache] that ran:
    each assignment is made only if nothing before it threw. *)
Definition refreshed (rt : runtime) (fetch : asset -> result value) (now : Z)
  (c : DailyClosesCache) : DailyClosesCache :=
  match promise_all3 (fetch Bitcoin) (fetch Ethereum) (fetch Solana) with
  | Throw _ => c
  | Ok (b, e, s) =>
      match mapDailyClose rt (opt_prop b "data") with
      | Throw _ => c
      | Ok lb =>
          match mapDailyClose rt (opt_prop e "data") with
          | Throw _ => cache_set Bitcoin lb c
          | Ok le =>
              match mapDailyClose rt (opt_prop s "data") with
              | Throw _ => cache_set Ethereum le (cache_set Bitcoin lb c)
              | Ok ls =>
                  set_lastFetchedAt now
                    (cache_set Solana ls
                       (cache_set Ethereum le (cache_set Bitcoin lb c)))
              end
          end
      end
  end.

Definition no_fenced_interior (s : string) : Prop :=
  match_fence s = None \/ match_fence s = Some EmptyString.

Definition brace_pair (s : string) (first last : nat) : Prop :=
  indexOf LBRACE s = Some first /\ lastIndexOf RBRACE s = Some last /\ first < last.

(** ** What the pattern of the fence matches *)

Fixpoint all_spaces (s : string) : bool :=
  match s with
  | EmptyString => true
  | String c r => is_space c && all_spaces r
  end.

(** A match of the pattern with capture [c]: the label, spaces, the
    capture, spaces, the closing fence, anywhere in the text. *)
Definition fence_match (s c : string) : Prop :=
  exists pre label ws1 ws2 post : string,
    s = (pre ++ label ++ ws1 ++ c ++ ws2 ++ FENCE ++ post)%string
    /\ String.length label = 7
    /\ prefix_ci FENCE_JSON label = true
    /\ all_spaces ws1 = true
    /\ all_spaces ws2 = true.

(** ** The first fenced block, in words *)

(** [s] without the white space at its end. *)
Fixpoint trim_end (s : string) : string :=
  match s with
  | EmptyString => EmptyString
  | String c r =>
      match trim_end r with
      | EmptyString => if is_space c then EmptyString else String c EmptyString
      | t => String c t
      end
  end.

(** [s] without the white space around it. *)
Definition trim (s : string) : string := trim_end (skip_spaces s).

(** [rest] is what follows the first label: the text is [pre], a label
    (the seven characters of the opening fence with [json], in either case
    of the letters) and [rest], and no label starts before. *)
Definition after_first_label (s rest : string) : Prop :=
  exists pre label : string,
    s = (pre ++ label ++ rest)%string
    /\ String.length label = 7
    /\ prefix_ci FENCE_JSON label = true
    /\ (forall pre' r : string,
          s = (pre' ++ r)%string -> String.length pre' < String.length pre ->
          prefix_ci FENCE_JSON r = false).

(** [a] is what precedes the first run of three backticks of [rest]. *)
Definition before_first_fence (rest a : string) : Prop :=
  exists post : string,
    rest = (a ++ FENCE ++ post)%string
    /\ (forall x y : string,
          (a ++ FENCE)%string = (x ++ FENCE ++ y)%string -> y = EmptyString).

(** The interior of the first fenced block of [s]: the text between the
    first label and the first run of three backticks after it, without the
    white space around it. *)
Definition fenced_interior (s interior : string) : Prop :=
  exists rest a : string,
    after_first_label s rest /\ before_first_fence rest a /\ interior = trim a.

(** The first fenced block, if there is one, has nothing inside. *)
Definition unfenced (s : string) : Prop :=
  forall interior, fenced_interior s interior -> interior = EmptyString.

(** The text before the first run of three backticks, and the text after
    it. *)
Fixpoint split_fence (s : string) : option (string * string) :=
  if String.prefix FENCE s then Some (EmptyString, drop 3 s)
  else
    match s with
    | EmptyString => None
    | String c r =>
        match split_fence r with
        | Some (a, post) => Some (String c a, post)
        | None => None
        end
    end.

(** The text after the first label. *)
Fixpoint first_label (s : string) : option string :=
  if prefix_ci FENCE_JSON s then Some (drop 7 s)
  else
    match s with
    | EmptyString => None
    | String _ r => first_label r
    end.


(** What the chain [a || b || ... || default] of [generateBullPeakSummary]
    shows: the first operand that is truthy, rendered, or the default. *)
Inductive shown (rt : runtime) : list value -> string -> string -> Prop :=
| shown_default (d : string) : shown rt [] d d
| shown_here (v : value) (vs : list value) (d s : string) :
    truthy v = true -> ToString rt v = Ok s -> shown rt (v :: vs) d s
| shown_next (v : value) (vs : list value) (d s : string) :
    truthy v = false -> shown rt vs d s -> shown rt (v :: vs) d s.

(** The line of one indicator. *)
Definition line_of (rt : runtime) (ind : value) (line : string) : Prop :=
  exists name val threshold : string,
    line = (name ++ ": " ++ bool_string (truthy (opt_prop ind "hit_status"))
            ++ " (Value: " ++ val ++ ", Threshold: " ++ threshold ++ ")")%string
    /\ shown rt [opt_prop ind "indicator_name"] "Unknown Indicator" name
    /\ shown rt [opt_prop ind "current_value"; opt_prop ind "value"] "N/A" val
    /\ shown rt [opt_prop ind "threshold"] "N/A" threshold.

(** A value that converts to text: it is not an object with an own
    property named [toString], and lists none in an array. *)
Fixpoint converts (v : value) : bool :=
  match v with
  | VArr elems => forallb converts elems
  | VObj fields =>
      match get_own fields "toString" with
      | Some _ => false
      | None => true
      end
  | _ => true
  end.

(** The operand a chain [a || b || ...] stops at, if any. *)
Fixpoint first_truthy (vs : list value) : option value :=
  match vs with
  | [] => None
  | v :: rest => if truthy v then Some v else first_truthy rest
  end.

(** The value a chain shows: the operand it stops at, or the default. *)
Definition chain_value (vs : list value) (d : string) : value :=
  match first_truthy vs with
  | Some v => v
  | None => VStr d
  end.

(** An indicator with a field to show that does not convert to text. *)
Definition unrenderable (ind : value) : Prop :=
  exists vs v,
    In vs [[opt_prop ind "indicator_name"];
           [opt_prop ind "current_value"; opt_prop ind "value"];
           [opt_prop ind "threshold"]]
    /\ first_truthy vs = Some v
    /\ converts v = false.

(* ================================================================== *)
(** * Explicit inputs *)
(* ================================================================== *)

Module Examples.

(** A verdict with the given score and the other three fields present. *)
Definition verdict (score : Q) : list (string * value) :=
  [("score", VNum (Fin score)); ("analysis", VStr "calm");
   ("reasoning", VStr "no signal"); ("key_factors", VArr [VStr "funding"])].

Definition verdict_without_analysis : list (string * value) :=
  [("score", VNum (Fin 1)); ("reasoning", VStr "no signal");
   ("key_factors", VArr [])].

Definition verdict_with_text_factors : list (string * value) :=
  [("score", VNum (Fin 50)); ("analysis", VStr "calm");
   ("reasoning", VStr "no signal"); ("key_factors", VStr "funding")].

(** Twelve one-minute points, numbered from 0. *)
Definition minutes : list value :=
  map (fun n => VNum (Fin (inject_Z (Z.of_nat n)))) (seq 0 12).

(** A snapshot whose only indicator has no name and a current value of
    zero. *)
Definition snapshot_unnamed : value :=
  VObj [("indicators",
         VArr [VObj [("hit_status", VBool true);
                     ("current_value", VNum (Fin 0));
                     ("threshold", VNum (Fin 5))]])].

(** A snapshot whose second indicator has for threshold an object with a
    property named [toString]. *)
Definition snapshot_opaque : value :=
  VObj [("indicators",
         VArr [VObj [("indicator_name", VStr "Pi Cycle Top");
                     ("hit_status", VBool false);
                     ("current_value", VNum (Fin 3));
                     ("threshold", VNum (Fin 5))];
               VObj [("indicator_name", VStr "Puell Multiple");
                     ("hit_status", VBool true);
                     ("threshold", VObj [("toString", VNum (Fin 1))])]])].

Definition snapshot_two : value :=
  VObj [("indicators",
         VArr [VObj [("indicator_name", VStr "Pi Cycle Top");
                     ("hit_status", VBool false);
                     ("current_value", VNum (Fin 3));
                     ("threshold", VNum (Fin 5))];
               VObj [("indicator_name", VStr "Puell Multiple");
                     ("hit_status", VBool true);
                     ("value", VStr "2.4")]])].

Definition raw_point (t c : Z) : value :=
  VObj [("timestamp", VNum (Fin (inject_Z t))); ("close", VNum (Fin (inject_Z c)))].

Definition point (t c : Z) : DailyClosePoint :=
  {| timestamp := VNum (Fin (inject_Z t)); close := VNum (Fin (inject_Z c)) |}.

Definition daily_body (points : list value) : value :=
  VObj [("data", VArr points)].

(** The provider answers for every asset, with two points that carry the
    same timestamp. *)
Definition fetch_duplicates (k : asset) : result value :=
  Ok (daily_body [raw_point 2 30; raw_point 1 10; raw_point 1 20]).

(** The provider answers with three points of different timestamps, out
    of order. *)
Definition fetch_distinct (k : asset) : result value :=
  Ok (daily_body [raw_point 2 30; raw_point 1 10; raw_point 3 20]).

(** The provider answers with dates written as text, latest first. *)
Definition fetch_dated (k : asset) : result value :=
  Ok (daily_body
        [VObj [("timestamp", VStr "2024-01-02"); ("close", VNum (Fin 30))];
         VObj [("timestamp", VStr "2024-01-01"); ("close", VNum (Fin 10))]]).

Definition dated_point (t : string) (c : Q) : DailyClosePoint :=
  {| timestamp := VStr t; close := VNum (Fin c) |}.

(** The request for bitcoin fails, the other two succeed. *)
Definition fetch_bitcoin_down (k : asset) : result value :=
  match k with
  | Bitcoin => Throw (Rejected "timeout of 30000ms exceeded")
  | _ => Ok (daily_body [raw_point 1 10])
  end.

(** The provider is down. *)
Definition fetch_down (k : asset) : result value :=
  Throw (Rejected "connect ECONNREFUSED").

(** The three requests succeed, but the answer for ethereum lists a null
    point. *)
Definition fetch_ethereum_malformed (k : asset) : result value :=
  match k with
  | Ethereum => Ok (daily_body [raw_point 1 10; VNull])
  | _ => Ok (daily_body [raw_point 1 10])
  end.

(** A cache filled by an earlier refresh. *)
Definition cache_old : DailyClosesCache :=
  {| bitcoin := [point 0 7]; ethereum := [point 0 8]; solana := [point 0 9];
     lastFetchedAt := 1000%Z |}.

Definition dq : string := String (ascii_of_nat 34) EmptyString.

(** [s] between double quotes. *)
Definition quoted (s : string) : string := (dq ++ s ++ dq)%string.

(** A verdict as the model writes it, without its braces: ["score":
    <score>, "analysis": "calm", "reasoning": "no signal", "key_factors":
    ["funding"]]. *)
Definition verdict_inner (score : string) : string :=
  (quoted "score" ++ ": " ++ score ++ ", "
   ++ quoted "analysis" ++ ": " ++ quoted "calm" ++ ", "
   ++ quoted "reasoning" ++ ": " ++ quoted "no signal" ++ ", "
   ++ quoted "key_factors" ++ ": [" ++ quoted "funding" ++ "]")%string.

Definition verdict_text (score : string) : string :=
  ("{" ++ verdict_inner score ++ "}")%string.

(** A verdict in a fenced block, with prose around it. *)
Definition text_fenced : string :=
  ("Here is my assessment." ++ newline ++ "```json" ++ newline
   ++ verdict_text "8" ++ newline ++ "```" ++ newline ++ "Let me know.")%string.

(** A verdict followed by prose. *)
Definition text_with_trailing_prose : string :=
  ("Assessment: " ++ verdict_text "8" ++ " I hope this helps.")%string.

(** A fenced block that is not JSON, followed by an object. *)
Definition text_bad_fence_then_object : string :=
  ("```json" ++ newline ++ "score: high" ++ newline ++ "``` "
   ++ verdict_text "8")%string.

(** A fenced block that is not JSON, and nothing else. *)
Definition text_bad_fence : string :=
  ("```json" ++ newline ++ "score: high" ++ newline ++ "```")%string.

(** An empty fenced block, then a fenced block that holds JSON. *)
Definition text_two_blocks : string :=
  ("```json" ++ newline ++ "```" ++ newline ++ "```json" ++ newline ++ "[1]"
   ++ newline ++ "```")%string.

(** Prose with braces around something that is not JSON. *)
Definition text_braces_prose : string := "I think {maybe} not".

(** Prose without braces. *)
Definition text_prose : string := "The market looks calm today.".

(** A verdict whose score is 1.5, whose analysis is a number, whose
    reasoning is null and whose key factors are numbers. *)
Definition text_loose_verdict : string :=
  ("{" ++ quoted "score" ++ ": 1.5, " ++ quoted "analysis" ++ ": 5, "
   ++ quoted "reasoning" ++ ": null, " ++ quoted "key_factors" ++ ": [1]}")%string.

(** The body of a completion response whose first choice carries [text]. *)
Definition completion_body (text : string) : value :=
  VObj [("id", VStr "gen-1");
        ("choices",
           VArr [VObj [("message",
                        VObj [("role", VStr "assistant");
                              ("content", VStr text)])]])].

(** A run in which the data service is down, the completion call answers
    [text], and the store behaves as given. *)
Definition env_of (text : string) (db : bool) (add : value -> result string) : Env :=
  {| BULL_PEAK := VNull;
     snapshots := [];
     fetch_minute := fun _ => Throw (Rejected "connect ECONNREFUSED");
     fetch_daily := fun _ => fetch_down;
     refresh_now := 0%Z;
     build_iso := "2024-01-15T10:00:00.000Z";
     api_key_configured := true;
     completion := fun _ => Ok (completion_body text);
     t0 := 0%Z;
     t1 := 1200%Z;
     db_available := db;
     db_add := add;
     store_iso := "2024-01-15T10:00:01.200Z";
     store_createdAt := VStr "2024-01-15T10:00:01.200Z" |}.

(** What a run with [text_loose_verdict] returns as its analysis. *)
Definition loose_analysis : value :=
  VObj [("score", VNum (Fin (3 # 2))); ("analysis", VNum (Fin 5));
        ("reasoning", VNull); ("key_factors", VArr [VNum (Fin 1)]);
        ("analysis_metadata",
           VObj [("model", VStr MODEL);
                 ("data_sources",
                    VArr [VStr "BULL_PEAK"; VStr "BTC"; VStr "ETH"; VStr "SOL"]);
                 ("collection_duration_ms", VNum (Fin 1200))])].

Definition add_ok (doc : value) : result string := Ok "doc-1".

Definition add_rejected (doc : value) : result string :=
  Throw (Rejected "14 UNAVAILABLE: No connection established").

Definition state0 : State :=
  {| daily := initial_cache; collection := []; storeResult_calls := [] |}.

End Examples.


(* ================================================================== *)
(** * Further inputs and predicates *)
(* ================================================================== *)

(** The point carries the timestamp [q]. *)
Definition has_ts (q : Q) (p : DailyClosePoint) : bool :=
  match timestamp p with
  | VNum (Fin x) => Qeq_bool x q
  | _ => false
  end.

Definition finite_close (p : DailyClosePoint) : bool := Number_isFinite (close p).

(** Every element of the answer has a timestamp that is a finite number. *)
Definition elems_timed (elems : list value) : Prop :=
  Forall (fun d => exists q : Q, opt_prop d "timestamp" = VNum (Fin q)) elems.

Module Inputs.

(** Four daily points sent out of order, one of them without a usable
    close, two of them on the same day. *)
Definition raw_days : list value :=
  [Examples.raw_point 3 30;
   VObj [("timestamp", VNum (Fin 2)); ("close", VStr "n/a"); ("price", VNum (Fin 5))];
   Examples.raw_point 1 10;
   VObj [("timestamp", VNum (Fin 1)); ("price", VNum (Fin 11))]].

(** A point whose timestamp is an object with a property named
    [toString]. *)
Definition raw_opaque : value :=
  VObj [("timestamp", VObj [("toString", VNum (Fin 1))]);
        ("close", VNum (Fin 10))].

Definition days : list DailyClosePoint :=
  [Examples.point 1 10; Examples.point 1 11; Examples.point 3 30].

Definition cache_bitcoin_only : DailyClosesCache :=
  {| bitcoin := [Examples.point 0 7]; ethereum := []; solana := [];
     lastFetchedAt := 1000%Z |}.

(** A run in which the request of the minutes of bitcoin fails, the one of
    ethereum answers with an empty [prices] beside [data], and the one of
    solana answers with a bare array. *)
Definition env_minutes : Env :=
  {| BULL_PEAK := Examples.snapshot_two;
     snapshots := [];
     fetch_minute := fun k =>
       match k with
       | Bitcoin => Throw (Rejected "timeout of 90000ms exceeded")
       | Ethereum => Ok (VObj [("prices", VArr []); ("data", VArr Examples.minutes)])
       | Solana => Ok (VArr Examples.minutes)
       end;
     fetch_daily := fun _ => Examples.fetch_distinct;
     refresh_now := 5%Z;
     build_iso := "2024-01-15T10:00:00.000Z";
     api_key_configured := false;
     completion := fun _ => Throw (Rejected "socket hang up");
     t0 := 0%Z;
     t1 := 1200%Z;
     db_available := true;
     db_add := Examples.add_ok;
     store_iso := "2024-01-15T10:00:01.200Z";
     store_createdAt := VStr "2024-01-15T10:00:01.200Z" |}.

End Inputs.


(** The keys of the object [buildPromptData] returns, in order. *)
Definition PAYLOAD_KEYS : list string :=
  ["timestamp"; "bull_market_peak_indicators"; "bull_market_peak_raw";
   "bitcoin_recent_minutes_24h"; "bitcoin_daily_900d_close";
   "ethereum_recent_minutes_24h"; "ethereum_daily_900d_close";
   "solana_recent_minutes_24h"; "solana_daily_900d_close"].

Definition minute_key (k : asset) : string :=
  match k with
  | Bitcoin => "bitcoin_recent_minutes_24h"
  | Ethereum => "ethereum_recent_minutes_24h"
  | Solana => "solana_recent_minutes_24h"
  end.

Definition minute_label (k : asset) : string :=
  match k with
  | Bitcoin => "btc24"
  | Ethereum => "eth24"
  | Solana => "sol24"
  end.

Definition daily_key (k : asset) : string :=
  match k with
  | Bitcoin => "bitcoin_daily_900d_close"
  | Ethereum => "ethereum_daily_900d_close"
  | Solana => "solana_daily_900d_close"
  end.

(** The property [k] of the object a computation returned. *)
Definition returned_field {S : Type} (r : result value * S) (k : string) : value :=
  match fst r with
  | Ok v => opt_prop v k
  | Throw _ => VUndef
  end.


(** The environment with another completion call. *)
Definition with_completion (f : value -> result value) (env : Env) : Env :=
  {| BULL_PEAK := BULL_PEAK env;
     snapshots := snapshots env;
     fetch_minute := fetch_minute env;
     fetch_daily := fetch_daily env;
     refresh_now := refresh_now env;
     build_iso := build_iso env;
     api_key_configured := api_key_configured env;
     completion := f;
     t0 := t0 env;
     t1 := t1 env;
     db_available := db_available env;
     db_add := db_add env;
     store_iso := store_iso env;
     store_createdAt := store_createdAt env |}.

(** [response.data?.choices?.[0]?.message?.content] in [callLLM]. *)
Definition completion_content (data : value) : value :=
  opt_prop (opt_prop (opt_index (opt_prop data "choices") 0) "message") "content".

(** The document [storeResult] writes for [res]. *)
Definition stored_doc (env : Env) (res : value) : value :=
  VObj (spread (spread_fields res)
          [("timestamp", VStr (store_iso env));
           ("createdAt", store_createdAt env);
           ("service", VStr "market-peak-analysis-service");
           ("serviceVersion", VStr "1.0.0")]).

Definition STORAGE_KEYS : list string :=
  ["timestamp"; "createdAt"; "service"; "serviceVersion"].


(* ================================================================== *)
(** * The read routes *)
(* ================================================================== *)

(** The environment of a run that starts after [before] and during which
    the listener is delivered [during]. *)
Definition with_events (before during : list ListenerEvent) (env : Env) : Env :=
  {| BULL_PEAK := BULL_PEAK_after before;
     snapshots := during;
     fetch_minute := fetch_minute env;
     fetch_daily := fetch_daily env;
     refresh_now := refresh_now env;
     build_iso := build_iso env;
     api_key_configured := api_key_configured env;
     completion := completion env;
     t0 := t0 env;
     t1 := t1 env;
     db_available := db_available env;
     db_add := db_add env;
     store_iso := store_iso env;
     store_createdAt := store_createdAt env |}.

Definition NO_BULL_PEAK_DATA : value := VObj [("note", VStr "no_bull_peak_data")].

(** [Math.min(a, b)]. *)
Definition Math_min (a b : number) : number :=
  match a, b with
  | NaN, _ | _, NaN => NaN
  | _, _ => if num_ltb b a then b else a
  end.


(** What the read routes depend on: whether the handle [db] is
    initialised, the query
    [collection(...).orderBy("timestamp", "desc").limit(n).get()] as a
    function of [n], [parseInt], the clock and [e.message]. *)
Record Reader : Type := {
  db : bool;
  recent_docs : number -> result (list DocumentSnapshot);
  parseInt : value -> number;
  now_iso : string;
  message : exn -> value
}.

Definition getRecent (rd : Reader) (limit : number) : result value :=
  if negb (db rd) then
    Ok (VObj [("analyses", VArr []); ("error", VStr "firestore_not_available")])
  else
    snap <- recent_docs rd (Math_min limit (Fin 50)) ;;
    Ok (VObj [("analyses", VArr (map doc_row snap))]).

Record Response : Type := { status : nat; body : value }.




(** [GET /api/analysis/latest]. *)
Definition route_latest (rd : Reader) : Response :=
  match (r <- getRecent rd (Fin 1) ;; get_prop r "analyses") with
  | Ok analyses =>
      {| status := 200;
         body := VObj [("latest", or_else (opt_index analyses 0) VNull);
                       ("timestamp", VStr (now_iso rd))] |}
  | Throw e => {| status := 500; body := VObj [("error", message rd e)] |}
  end.

(** The last of the events, if any. *)
Definition last_event (events : list ListenerEvent) : option ListenerEvent :=
  last (map Some events) None.

Module Reads.

(** The latest indicators document, carrying a field named [id]. *)
Definition latest_doc : DocumentSnapshot :=
  {| doc_exists := true; doc_id := "latest";
     doc_data := [("indicators",
                     VArr [VObj [("indicator_name", VStr "Pi Cycle Top");
                                 ("hit_status", VBool false)]]);
                  ("id", VStr "run-7")] |}.

End Reads.

(* ================================================================== *)
(** * Theorems *)
(* ================================================================== *)

(** ** Numbers and properties *)

Lemma Qlt_bool_false_iff (a b : Q) : Qlt_bool a b = false <-> (b <= a)%Q.
Proof.
  unfold Qlt_bool. rewrite negb_false_iff. apply Qle_bool_iff.
Qed.

Lemma Qlt_bool_true_iff (a b : Q) : Qlt_bool a b = true <-> (a < b)%Q.
Proof.
  unfold Qlt_bool. rewrite negb_true_iff. split; intro H.
  - apply Qnot_le_lt. intro Hle. apply Qle_bool_iff in Hle. congruence.
  - destruct (Qle_bool b a) eqn:E; [|reflexivity].
    apply Qle_bool_iff in E. exfalso. exact (Qlt_not_le _ _ H E).
Qed.

Lemma score_rejected_false_iff (v : value) :
  score_rejected v = false <-> Spec.score_in_range v.
Proof.
  unfold Spec.score_in_range. split.
  - destruct v as [| |b|n|s|l|f]; simpl; try discriminate.
    destruct n as [| | |q]; simpl; try discriminate.
    rewrite orb_false_r, orb_false_iff, !Qlt_bool_false_iff.
    intros [H1 H2]. exists q. auto.
  - intros [q [-> [H1 H2]]]. simpl.
    rewrite orb_false_r, orb_false_iff, !Qlt_bool_false_iff. auto.
Qed.

(** The loop over the required keys stops at the first absent one. *)
Lemma check_required_missing (fields : list (string * value))
  (pre : list string) (k : string) (post : list string) :
  (forall k', In k' pre -> Spec.is_present fields k') ->
  get_own fields k = None ->
  check_required (VObj fields) (pre ++ k :: post)
  = Throw (JsError ("Missing: " ++ k)).
Proof.
  induction pre as [|p pre IH]; intros Hpre Hk; simpl.
  - rewrite Hk. reflexivity.
  - destruct (get_own fields p) eqn:E.
    + simpl. apply IH; [|assumption]. intros k' Hin. apply Hpre. now right.
    + exfalso. apply (Hpre p); [now left | assumption].
Qed.

Lemma check_required_ok_iff (fields : list (string * value)) (ks : list string) :
  check_required (VObj fields) ks = Ok tt
  <-> forall k, In k ks -> Spec.is_present fields k.
Proof.
  induction ks as [|k ks IH]; simpl.
  - split; [intros _ k []|reflexivity].
  - destruct (get_own fields k) eqn:E; simpl.
    + rewrite IH. split.
      * intros H k' [<-|Hin]; [unfold Spec.is_present; congruence | auto].
      * intros H k' Hin. apply H. now right.
    + split; [discriminate|]. intro H. exfalso. apply (H k); [now left|exact E].
Qed.

Lemma check_required_result (v : value) (ks : list string) :
  check_required v ks = Ok tt \/ exists e, check_required v ks = Throw e.
Proof.
  induction ks as [|k ks IH]; simpl; [now left|].
  destruct (in_op k v) as [[|]|e]; simpl; eauto.
Qed.

(** ** Validation *)

Lemma validateOutput_present (fields : list (string * value)) :
  (forall k, In k required -> Spec.is_present fields k) ->
  validateOutput (VObj fields)
  = if score_rejected (Spec.field fields "score")
    then Throw (JsError "score must be 1..100 number")
    else if negb (isArray (Spec.field fields "key_factors"))
         then Throw (JsError "key_factors must be array")
         else Ok tt.
Proof.
  intro Hall. unfold validateOutput.
  apply check_required_ok_iff in Hall. rewrite Hall. reflexivity.
Qed.

Lemma validateOutput_ok_iff (fields : list (string * value)) :
  validateOutput (VObj fields) = Ok tt <->
  (forall k, In k required -> Spec.is_present fields k)
  /\ Spec.score_in_range (Spec.field fields "score")
  /\ isArray (Spec.field fields "key_factors") = true.
Proof.
  split.
  - intro H.
    assert (Hall : forall k, In k required -> Spec.is_present fields k).
    { intros k Hin.
      destruct (check_required_result (VObj fields) required) as [Hok|[e He]].
      - apply (proj1 (check_required_ok_iff fields required) Hok k Hin).
      - unfold validateOutput in H. rewrite He in H. discriminate. }
    rewrite (validateOutput_present fields Hall) in H.
    destruct (score_rejected (Spec.field fields "score")) eqn:Es; [discriminate|].
    apply score_rejected_false_iff in Es.
    destruct (isArray (Spec.field fields "key_factors")); [auto|discriminate].
  - intros [Hall [Hscore Harr]]. rewrite (validateOutput_present fields Hall).
    apply score_rejected_false_iff in Hscore. rewrite Hscore, Harr. reflexivity.
Qed.

(** Anything that is not an object is rejected too: a primitive by the
    [in] operator, an array for want of a [score]. *)
Lemma validateOutput_not_object (v : value) :
  (forall fields, v <> VObj fields) -> exists e, validateOutput v = Throw e.
Proof.
  intro H. destruct v as [| |b|n|s|l|f]; try (eexists; reflexivity).
  exfalso. now apply (H f).
Qed.

(** C3.  For every parsed object, [validateOutput] rejects it when one of
    [score], [analysis], [reasoning], [key_factors] is absent, naming the
    first absent field; with all four present it rejects a [score] that is
    not a finite number in the inclusive range 1..100, then a [key_factors]
    that is not an array; and it accepts exactly the objects that satisfy
    the three conditions. *)
Theorem validateOutput_spec (fields : list (string * value)) :
  (forall pre k post,
      required = pre ++ k :: post ->
      (forall k', In k' pre -> Spec.is_present fields k') ->
      get_own fields k = None ->
      validateOutput (VObj fields) = Throw (JsError ("Missing: " ++ k)))
  /\ ((forall k, In k required -> Spec.is_present fields k) ->
      ~ Spec.score_in_range (Spec.field fields "score") ->
      validateOutput (VObj fields) = Throw (JsError "score must be 1..100 number"))
  /\ ((forall k, In k required -> Spec.is_present fields k) ->
      Spec.score_in_range (Spec.field fields "score") ->
      isArray (Spec.field fields "key_factors") = false ->
      validateOutput (VObj fields) = Throw (JsError "key_factors must be array"))
  /\ (validateOutput (VObj fields) = Ok tt <->
      (forall k, In k required -> Spec.is_present fields k)
      /\ Spec.score_in_range (Spec.field fields "score")
      /\ isArray (Spec.field fields "key_factors") = true).
Proof.
  split; [|split; [|split]].
  - intros pre k post Hreq Hpre Hk. unfold validateOutput.
    rewrite Hreq, (check_required_missing fields pre k post Hpre Hk).
    reflexivity.
  - intros Hall Hscore. rewrite (validateOutput_present fields Hall).
    destruct (score_rejected (Spec.field fields "score")) eqn:E; [reflexivity|].
    apply score_rejected_false_iff in E. contradiction.
  - intros Hall Hscore Harr. rewrite (validateOutput_present fields Hall).
    apply score_rejected_false_iff in Hscore. rewrite Hscore, Harr. reflexivity.
  - apply validateOutput_ok_iff.
Qed.

Lemma verdict_all_present (q : Q) (k : string) :
  In k required -> Spec.is_present (Examples.verdict q) k.
Proof.
  unfold required, Spec.is_present.
  intros [<-|[<-|[<-|[<-|[]]]]]; simpl; discriminate.
Qed.

Lemma validateOutput_spec_witness :
  validateOutput (VObj (Examples.verdict 0))
    = Throw (JsError "score must be 1..100 number")
  /\ validateOutput (VObj (Examples.verdict 101))
    = Throw (JsError "score must be 1..100 number")
  /\ validateOutput (VObj (Examples.verdict 1)) = Ok tt
  /\ validateOutput (VObj (Examples.verdict 100)) = Ok tt
  /\ validateOutput (VObj Examples.verdict_without_analysis)
    = Throw (JsError "Missing: analysis")
  /\ validateOutput (VObj Examples.verdict_with_text_factors)
    = Throw (JsError "key_factors must be array").
Proof.
  refine (conj _ (conj _ (conj _ (conj _ (conj _ _))))).
  - apply (proj1 (proj2 (validateOutput_spec (Examples.verdict 0)))).
    + apply verdict_all_present.
    + intros [q [Hq [H1 _]]]. simpl in Hq. injection Hq as <-.
      unfold Qle in H1. simpl in H1. lia.
  - apply (proj1 (proj2 (validateOutput_spec (Examples.verdict 101)))).
    + apply verdict_all_present.
    + intros [q [Hq [_ H2]]]. simpl in Hq. injection Hq as <-.
      unfold Qle in H2. simpl in H2. lia.
  - apply (proj2 (proj2 (proj2 (proj2 (validateOutput_spec (Examples.verdict 1)))))).
    split; [apply verdict_all_present|]. split; [|reflexivity].
    exists 1%Q. split; [reflexivity|]. split; unfold Qle; simpl; lia.
  - apply (proj2 (proj2 (proj2 (proj2 (validateOutput_spec (Examples.verdict 100)))))).
    split; [apply verdict_all_present|]. split; [|reflexivity].
    exists 100%Q. split; [reflexivity|]. split; unfold Qle; simpl; lia.
  - apply (proj1 (validateOutput_spec Examples.verdict_without_analysis)
             ["score"] "analysis" ["reasoning"; "key_factors"]).
    + reflexivity.
    + intros k' [<-|[]]. unfold Spec.is_present. simpl. discriminate.
    + reflexivity.
  - apply (proj1 (proj2 (proj2 (validateOutput_spec Examples.verdict_with_text_factors)))).
    + unfold required, Spec.is_present.
      intros k [<-|[<-|[<-|[<-|[]]]]]; simpl; discriminate.
    + exists 50%Q. split; [reflexivity|]. split; unfold Qle; simpl; lia.
    + reflexivity.
Defined.

(** ** The recent window *)

Lemma nth_error_nil_none {A : Type} (k : nat) : nth_error (@nil A) k = None.
Proof. destruct k; reflexivity. Qed.

Lemma stride_next (i : nat) : i mod 5 = 0 -> (S i + 4) mod 5 = 0.
Proof.
  intro H. replace (S i + 4) with (i + 1 * 5) by lia.
  now rewrite Nat.Div0.mod_add.
Qed.

Lemma stride_between (i d : nat) :
  (i + S d) mod 5 = 0 -> S d < 5 -> i mod 5 <> 0.
Proof.
  intros H Hd E. pose proof (Nat.div_mod_eq i 5) as Hi. rewrite E in Hi.
  set (q := i / 5) in *. rewrite Hi in H.
  replace (5 * q + 0 + S d) with (S d + q * 5) in H by lia.
  rewrite Nat.Div0.mod_add, Nat.mod_small in H; lia.
Qed.

(** Keeping the indices that are multiples of the stride: the [k]-th
    element kept is the element at the [k]-th multiple. *)
Lemma filteri_from_stride {A : Type} (l : list A) :
  forall i d k,
    (i + d) mod 5 = 0 -> d < 5 ->
    nth_error (filteri_from (fun j => Nat.eqb (j mod SAMPLE_STRIDE) 0) i l) k
    = nth_error l (d + 5 * k).
Proof.
  unfold SAMPLE_STRIDE.
  induction l as [|x r IH]; intros i d k Hmod Hd; cbn [filteri_from].
  - now rewrite !nth_error_nil_none.
  - destruct d as [|d'].
    + rewrite Nat.add_0_r in Hmod. rewrite Hmod. cbn [Nat.eqb].
      destruct k as [|k']; [reflexivity|].
      replace (0 + 5 * S k') with (S (4 + 5 * k')) by lia.
      cbn [nth_error]. apply IH; [now apply stride_next|lia].
    + assert (Hne : i mod 5 <> 0) by (now apply (stride_between i d')).
      apply Nat.eqb_neq in Hne. rewrite Hne.
      cbn [Nat.add nth_error]. apply IH; [|lia].
      replace (S i + d') with (i + S d') by lia. exact Hmod.
Qed.

Lemma filteri_stride {A : Type} (l : list A) (k : nat) :
  nth_error (filteri (fun j => Nat.eqb (j mod SAMPLE_STRIDE) 0) l) k
  = nth_error l (5 * k).
Proof.
  unfold filteri. rewrite (filteri_from_stride l 0 0 k); [reflexivity|reflexivity|lia].
Qed.

Lemma lastn_suffix {A : Type} (n : nat) (l : list A) :
  l = firstn (List.length l - n) l ++ lastn n l.
Proof. unfold lastn. symmetry. apply firstn_skipn. Qed.

Lemma lastn_length {A : Type} (n : nat) (l : list A) :
  List.length (lastn n l) = Nat.min n (List.length l).
Proof. unfold lastn. rewrite length_skipn. lia. Qed.

(** C8.  [formatSeriesForPrompt] on a non-empty array keeps the elements
    at the 0-indexed positions that are multiples of 5, then the last 288
    of the sampled elements, and serializes them; on an absent value, a
    value that is not an array or an empty array it returns the marker
    [insufficient_<label>_data]. *)
Theorem formatSeriesForPrompt_spec (rt : runtime) (arr : value) (label : string) :
  (forall elems, arr = VArr elems -> elems <> [] ->
     exists sampled dropped kept,
       (forall k, nth_error sampled k = nth_error elems (5 * k))
       /\ sampled = dropped ++ kept
       /\ List.length kept = Nat.min 288 (List.length sampled)
       /\ formatSeriesForPrompt rt arr label = JSON_stringify rt (VArr kept))
  /\ ((forall elems, arr = VArr elems -> elems = []) ->
      formatSeriesForPrompt rt arr label = ("insufficient_" ++ label ++ "_data")%string).
Proof.
  split.
  - intros elems -> Hne.
    set (sampled := filteri (fun j => Nat.eqb (j mod SAMPLE_STRIDE) 0) elems).
    exists sampled, (firstn (List.length sampled - 288) sampled), (lastn 288 sampled).
    split; [intro k; apply filteri_stride|].
    split; [apply lastn_suffix|].
    split; [apply lastn_length|].
    destruct elems as [|x r]; [contradiction|reflexivity].
  - intro Hempty. destruct arr as [| |b|n|s|l|f]; try reflexivity.
    rewrite (Hempty l eq_refl). reflexivity.
Qed.

Lemma formatSeriesForPrompt_spec_witness :
  (exists sampled dropped kept,
      (forall k, nth_error sampled k = nth_error Examples.minutes (5 * k))
      /\ sampled = dropped ++ kept
      /\ List.length kept = Nat.min 288 (List.length sampled)
      /\ formatSeriesForPrompt Reference.rt (VArr Examples.minutes) "btc24"
         = JSON_stringify Reference.rt (VArr kept))
  /\ formatSeriesForPrompt Reference.rt (VArr []) "btc24" = "insufficient_btc24_data"
  /\ formatSeriesForPrompt Reference.rt VNull "btc24" = "insufficient_btc24_data".
Proof.
  split; [|split].
  - apply (proj1 (formatSeriesForPrompt_spec Reference.rt (VArr Examples.minutes) "btc24")
             Examples.minutes); [reflexivity|discriminate].
  - apply (proj2 (formatSeriesForPrompt_spec Reference.rt (VArr []) "btc24")).
    intros elems H. injection H as <-. reflexivity.
  - apply (proj2 (formatSeriesForPrompt_spec Reference.rt VNull "btc24")).
    intros elems H. discriminate.
Defined.

(** The sampled window of the twelve points, evaluated. *)
Example formatSeriesForPrompt_minutes :
  formatSeriesForPrompt Reference.rt (VArr Examples.minutes) "btc24" = "[0,5,10]".
Proof. vm_compute. reflexivity. Qed.

(** ** Conversions to text and to numbers *)

(** Induction on values, through the elements of arrays. *)
Lemma value_elements_ind (P : value -> Prop) :
  P VUndef -> P VNull -> (forall b, P (VBool b)) -> (forall n, P (VNum n)) ->
  (forall s, P (VStr s)) ->
  (forall elems, Forall P elems -> P (VArr elems)) ->
  (forall fields, P (VObj fields)) ->
  forall v, P v.
Proof.
  intros Hu Hn Hb Hnum Hs Ha Ho.
  fix IH 1. intros [| |b|n|s|elems|fields];
    [exact Hu|exact Hn|apply Hb|apply Hnum|apply Hs| |apply Ho].
  apply Ha.
  exact ((fix elements (l : list value) : Forall P l :=
            match l with
            | [] => Forall_nil P
            | e :: rest => Forall_cons e (IH e) (elements rest)
            end) elems).
Qed.

(** The conversion to text throws exactly on the values that do not
    convert, and then a [TypeError]. *)
Lemma ToString_converts (rt : runtime) (v : value) :
  if converts v then exists s, ToString rt v = Ok s
  else ToString rt v = Throw JsTypeError.
Proof.
  induction v as [| |b|n|s|elems IH|fields] using value_elements_ind.
  1-5: cbn; eauto.
  - cbn [converts ToString].
    assert (H : if forallb converts elems
                then exists parts,
                  (fix join_parts (l : list value) : result (list string) :=
                     match l with
                     | [] => Ok []
                     | e :: rest =>
                         s <- match e with
                              | VUndef | VNull => Ok EmptyString
                              | _ => ToString rt e
                              end ;;
                         ss <- join_parts rest ;;
                         Ok (s :: ss)
                     end) elems = Ok parts
                else
                  (fix join_parts (l : list value) : result (list string) :=
                     match l with
                     | [] => Ok []
                     | e :: rest =>
                         s <- match e with
                              | VUndef | VNull => Ok EmptyString
                              | _ => ToString rt e
                              end ;;
                         ss <- join_parts rest ;;
                         Ok (s :: ss)
                     end) elems = Throw JsTypeError).
    { induction IH as [|e rest He _ IHrest]; [cbn; eauto|].
      cbn [forallb]. destruct (converts e) eqn:Ee; cbn [andb].
      - destruct He as [se Hse].
        assert (Hpart : match e with
                        | VUndef | VNull => Ok EmptyString
                        | _ => ToString rt e
                        end = Ok (match e with
                                  | VUndef | VNull => EmptyString
                                  | _ => se
                                  end)).
        { destruct e; try exact Hse; reflexivity. }
        rewrite Hpart. cbn [bind].
        destruct (forallb converts rest).
        + destruct IHrest as [parts ->]. cbn. eauto.
        + rewrite IHrest. reflexivity.
      - assert (Hpart : match e with
                        | VUndef | VNull => Ok EmptyString
                        | _ => ToString rt e
                        end = Throw JsTypeError).
        { destruct e; try exact He; discriminate Ee. }
        rewrite Hpart. reflexivity. }
    destruct (forallb converts elems).
    + destruct H as [parts ->]. cbn. eauto.
    + rewrite H. reflexivity.
  - cbn. destruct (get_own fields "toString"); eauto.
Qed.

Lemma ToString_ok_iff (rt : runtime) (v : value) :
  (exists s, ToString rt v = Ok s) <-> converts v = true.
Proof.
  pose proof (ToString_converts rt v) as H.
  destruct (converts v).
  - tauto.
  - rewrite H. split; [intros [s Hs]; discriminate Hs|discriminate].
Qed.

Lemma ToString_throw_iff (rt : runtime) (v : value) :
  (exists e, ToString rt v = Throw e) <-> converts v = false.
Proof.
  pose proof (ToString_converts rt v) as H.
  destruct (converts v).
  - destruct H as [s ->]. split; [intros [e He]; discriminate He|discriminate].
  - rewrite H. split; eauto.
Qed.

(** ** The indicator summary *)

Lemma shown_iff (rt : runtime) (vs : list value) (d s : string) :
  shown rt vs d s <-> ToString rt (chain_value vs d) = Ok s.
Proof.
  unfold chain_value. split.
  - induction 1 as [d|v vs d s Ht Hs|v vs d s Ht _ IH]; cbn [first_truthy].
    + reflexivity.
    + now rewrite Ht.
    + now rewrite Ht.
  - revert s. induction vs as [|v vs IH]; cbn [first_truthy]; intros s H.
    + cbn in H. injection H as <-. constructor.
    + destruct (truthy v) eqn:Ht.
      * now apply shown_here.
      * apply shown_next; [assumption|now apply IH].
Qed.

Lemma or_else_chain (v : value) (d : string) :
  or_else v (VStr d) = chain_value [v] d.
Proof.
  unfold or_else, chain_value. cbn [first_truthy]. now destruct (truthy v).
Qed.

Lemma or_else_chain2 (v w : value) (d : string) :
  or_else (or_else v w) (VStr d) = chain_value [v; w] d.
Proof.
  unfold or_else, chain_value. cbn [first_truthy].
  destruct (truthy v) eqn:Ev; [now rewrite Ev|].
  now destruct (truthy w).
Qed.

Lemma indicator_line_chains (rt : runtime) (ind : value) :
  indicator_line rt ind
  = (n <- ToString rt (chain_value [opt_prop ind "indicator_name"] "Unknown Indicator") ;;
     v <- ToString rt (chain_value [opt_prop ind "current_value"; opt_prop ind "value"]
                         "N/A") ;;
     t <- ToString rt (chain_value [opt_prop ind "threshold"] "N/A") ;;
     Ok (n ++ ": " ++ bool_string (truthy (opt_prop ind "hit_status"))
         ++ " (Value: " ++ v ++ ", Threshold: " ++ t ++ ")")%string).
Proof.
  unfold indicator_line. now rewrite or_else_chain2, !or_else_chain.
Qed.

(** A line is what the callback returns. *)
Lemma indicator_line_of (rt : runtime) (ind : value) (line : string) :
  indicator_line rt ind = Ok line <-> line_of rt ind line.
Proof.
  rewrite indicator_line_chains. unfold line_of. split.
  - destruct (ToString rt (chain_value [opt_prop ind "indicator_name"] _))
      as [n|] eqn:En; cbn [bind]; [|discriminate].
    destruct (ToString rt (chain_value [opt_prop ind "current_value"; _] _))
      as [v|] eqn:Ev; cbn [bind]; [|discriminate].
    destruct (ToString rt (chain_value [opt_prop ind "threshold"] _))
      as [t|] eqn:Et; cbn [bind]; [|discriminate].
    intro H. injection H as <-. exists n, v, t.
    split; [reflexivity|]. rewrite !shown_iff. auto.
  - intros [n [v [t [-> [Hn [Hv Ht]]]]]].
    apply shown_iff in Hn, Hv, Ht. now rewrite Hn, Hv, Ht.
Qed.

(** The callback throws on the indicators with a field to show that does
    not convert. *)
Lemma indicator_line_throws (rt : runtime) (ind : value) :
  (exists e, indicator_line rt ind = Throw e) <-> unrenderable ind.
Proof.
  rewrite indicator_line_chains. unfold unrenderable.
  set (c1 := [opt_prop ind "indicator_name"]).
  set (c2 := [opt_prop ind "current_value"; opt_prop ind "value"]).
  set (c3 := [opt_prop ind "threshold"]).
  assert (Hdefault : forall vs d,
            converts (chain_value vs d) = false ->
            exists v, first_truthy vs = Some v /\ converts v = false).
  { intros vs d. unfold chain_value.
    destruct (first_truthy vs) as [v|]; [eauto|discriminate]. }
  assert (Hchain : forall vs d v,
            first_truthy vs = Some v -> converts v = false ->
            ToString rt (chain_value vs d) = Throw JsTypeError).
  { intros vs d v Hv Hc. unfold chain_value. rewrite Hv.
    pose proof (ToString_converts rt v) as H. now rewrite Hc in H. }
  split.
  - intros [e He].
    destruct (ToString rt (chain_value c1 "Unknown Indicator")) as [n|e1] eqn:E1.
    + destruct (ToString rt (chain_value c2 "N/A")) as [v|e2] eqn:E2.
      * destruct (ToString rt (chain_value c3 "N/A")) as [t|e3] eqn:E3;
          [cbn in He; discriminate He|].
        destruct (Hdefault c3 "N/A") as [x [Hx Hc]].
        { apply (ToString_throw_iff rt). eauto. }
        exists c3, x. cbn. auto.
      * destruct (Hdefault c2 "N/A") as [x [Hx Hc]].
        { apply (ToString_throw_iff rt). eauto. }
        exists c2, x. cbn. auto.
    + destruct (Hdefault c1 "Unknown Indicator") as [x [Hx Hc]].
      { apply (ToString_throw_iff rt). eauto. }
      exists c1, x. cbn. auto.
  - intros [vs [x [Hin [Hx Hc]]]].
    destruct (ToString rt (chain_value c1 "Unknown Indicator")) as [n|e1] eqn:E1;
      [|cbn; eauto].
    destruct (ToString rt (chain_value c2 "N/A")) as [v|e2] eqn:E2; [|cbn; eauto].
    destruct (ToString rt (chain_value c3 "N/A")) as [t|e3] eqn:E3; [|cbn; eauto].
    exfalso. cbn in Hin. destruct Hin as [<-|[<-|[<-|[]]]].
    + rewrite (Hchain c1 _ x Hx Hc) in E1. discriminate E1.
    + rewrite (Hchain c2 _ x Hx Hc) in E2. discriminate E2.
    + rewrite (Hchain c3 _ x Hx Hc) in E3. discriminate E3.
Qed.

Lemma map_result_ok_iff {A B : Type} (f : A -> result B) (l : list A) (r : list B) :
  map_result f l = Ok r <-> Forall2 (fun x y => f x = Ok y) l r.
Proof.
  split.
  - revert r. induction l as [|x l IH]; cbn; intros r H.
    + injection H as <-. constructor.
    + destruct (f x) as [y|] eqn:E; cbn in H; [|discriminate].
      destruct (map_result f l) as [ys|]; cbn in H; [|discriminate].
      injection H as <-. constructor; [assumption|now apply IH].
  - induction 1 as [|x y l r Hxy _ IH]; cbn; [reflexivity|].
    now rewrite Hxy, IH.
Qed.

Lemma map_result_throw_iff {A B : Type} (f : A -> result B) (l : list A) :
  (exists e, map_result f l = Throw e) <-> Exists (fun x => exists e, f x = Throw e) l.
Proof.
  induction l as [|x l IH]; cbn.
  - split; [intros [e H]; discriminate H|intro H; inversion H].
  - destruct (f x) as [y|e] eqn:E; cbn.
    + destruct (map_result f l) as [ys|e']; cbn.
      * split; [intros [e H]; discriminate H|].
        intro H. inversion H as [? ? [e He]|? ? Hl]; subst.
        -- rewrite E in He. discriminate He.
        -- apply IH in Hl. destruct Hl as [e Hl]. discriminate Hl.
      * split; [|eauto]. intros _. apply Exists_cons_tl. apply IH. eauto.
    + split; [|eauto]. intros _. apply Exists_cons_hd. eauto.
Qed.

Lemma Forall2_line_of (rt : runtime) (inds : list value) (lines : list string) :
  map_result (indicator_line rt) inds = Ok lines <-> Forall2 (line_of rt) inds lines.
Proof.
  rewrite map_result_ok_iff. split; intro H.
  - eapply Forall2_impl; [|exact H]. intros ind line. apply indicator_line_of.
  - eapply Forall2_impl; [|exact H]. intros ind line. apply indicator_line_of.
Qed.

(** C5 (amended).  Without a snapshot, or when its [indicators] is not an
    array, the summary is the fixed sentence.  When [indicators] is an
    array, either every field to show converts to text, and the summary is
    one line per indicator, in order, joined by newlines; or an indicator
    has a field to show that does not convert, and the summary is the fixed
    sentence, by the [catch].  A line is [<name>: <hit> (Value: <value>,
    Threshold: <threshold>)] where the hit state is [true] or [false], the
    name is [indicator_name], or [Unknown Indicator] when there is none,
    the value is [current_value], else [value], else [N/A], and the
    threshold is [threshold], else [N/A]. *)
Theorem generateBullPeakSummary_lines (rt : runtime) (doc : value) :
  ((truthy doc = false \/ isArray (opt_prop doc "indicators") = false) ->
     generateBullPeakSummary rt doc = NO_INDICATORS)
  /\ (forall inds,
        truthy doc = true -> opt_prop doc "indicators" = VArr inds ->
        (forall lines,
           Forall2 (line_of rt) inds lines ->
           generateBullPeakSummary rt doc = String.concat newline lines)
        /\ (Exists unrenderable inds ->
            generateBullPeakSummary rt doc = NO_INDICATORS)
        /\ ((exists lines, Forall2 (line_of rt) inds lines)
            \/ Exists unrenderable inds)).
Proof.
  unfold generateBullPeakSummary, summary_lines. split.
  - intros [H|H]; [now rewrite H|].
    destruct (truthy doc); [|reflexivity]. cbn [negb].
    destruct (opt_prop doc "indicators"); try reflexivity. discriminate.
  - intros inds Ht Hi. rewrite Ht, Hi. cbn [negb].
    assert (Hun : Exists unrenderable inds
                  <-> exists e, map_result (indicator_line rt) inds = Throw e).
    { rewrite map_result_throw_iff. split; intro H.
      - eapply Exists_impl; [|exact H]. intros ind. apply indicator_line_throws.
      - eapply Exists_impl; [|exact H]. intros ind. apply indicator_line_throws. }
    split; [|split].
    + intros lines Hl. apply Forall2_line_of in Hl. now rewrite Hl.
    + intro H. apply Hun in H. destruct H as [e ->]. reflexivity.
    + destruct (map_result (indicator_line rt) inds) as [lines|e] eqn:E.
      * left. exists lines. now apply Forall2_line_of.
      * right. apply Hun. eauto.
Qed.

Lemma generateBullPeakSummary_lines_witness :
  generateBullPeakSummary Reference.rt VNull = NO_INDICATORS
  /\ generateBullPeakSummary Reference.rt Examples.snapshot_two
     = ("Pi Cycle Top: false (Value: 3, Threshold: 5)" ++ newline
        ++ "Puell Multiple: true (Value: 2.4, Threshold: N/A)")%string
  /\ generateBullPeakSummary Reference.rt Examples.snapshot_opaque = NO_INDICATORS.
Proof.
  split; [|split].
  - apply (proj1 (generateBullPeakSummary_lines Reference.rt VNull)).
    left. reflexivity.
  - apply (proj1 (proj2 (generateBullPeakSummary_lines Reference.rt Examples.snapshot_two)
                    _ eq_refl eq_refl)
             ["Pi Cycle Top: false (Value: 3, Threshold: 5)";
              "Puell Multiple: true (Value: 2.4, Threshold: N/A)"]).
    apply Forall2_line_of. vm_compute. reflexivity.
  - apply (proj1 (proj2 (proj2 (generateBullPeakSummary_lines Reference.rt
                                  Examples.snapshot_opaque) _ eq_refl eq_refl))).
    apply Exists_cons_tl, Exists_cons_hd.
    exists [VObj [("toString", VNum (Fin 1))]], (VObj [("toString", VNum (Fin 1))]).
    split; [cbn; tauto|]. split; reflexivity.
Defined.

Example generateBullPeakSummary_two :
  generateBullPeakSummary Reference.rt Examples.snapshot_two
  = ("Pi Cycle Top: false (Value: 3, Threshold: 5)" ++ newline
     ++ "Puell Multiple: true (Value: 2.4, Threshold: N/A)")%string.
Proof. vm_compute. reflexivity. Qed.

(** C5, as stated, fails: an indicator without a name is rendered with the
    name [Unknown Indicator], not [N/A], and its current value 0, which is
    present, is rendered [N/A]. *)
Lemma generateBullPeakSummary_counterexample :
  generateBullPeakSummary Reference.rt Examples.snapshot_unnamed
    = "Unknown Indicator: true (Value: N/A, Threshold: 5)"
  /\ Spec.summary Reference.rt Examples.snapshot_unnamed
    = Ok "N/A: true (Value: 0, Threshold: 5)"
  /\ Ok (generateBullPeakSummary Reference.rt Examples.snapshot_unnamed)
     <> Spec.summary Reference.rt Examples.snapshot_unnamed.
Proof.
  split; [vm_compute; reflexivity|].
  split; [vm_compute; reflexivity|].
  vm_compute. discriminate.
Qed.

(** ** The daily closes cache *)

Lemma sort_insert_perm {A : Type} (gt : A -> A -> bool) (x : A) (l : list A) :
  Permutation (x :: l) (sort_insert gt x l).
Proof.
  induction l as [|y r IH]; simpl; [reflexivity|].
  destruct (gt x y); [|reflexivity].
  rewrite perm_swap. now apply perm_skip.
Qed.

(** The sort keeps every element, as often as it occurs. *)
Lemma js_sort_perm {A : Type} (gt : A -> A -> bool) (l : list A) :
  Permutation l (js_sort gt l).
Proof.
  induction l as [|x r IH]; simpl; [reflexivity|].
  rewrite <- sort_insert_perm. now apply perm_skip.
Qed.

Lemma Forall_lastn {A : Type} (P : A -> Prop) (n : nat) (l : list A) :
  Forall P l -> Forall P (lastn n l).
Proof.
  intro H. rewrite (lastn_suffix n l) in H. apply Forall_app in H. tauto.
Qed.

Lemma StronglySorted_app_r {A : Type} (R : A -> A -> Prop) (l1 l2 : list A) :
  StronglySorted R (l1 ++ l2) -> StronglySorted R l2.
Proof.
  induction l1 as [|x l1 IH]; simpl; intro H; [exact H|].
  inversion H; subst. now apply IH.
Qed.

Lemma StronglySorted_lastn {A : Type} (R : A -> A -> Prop) (n : nat) (l : list A) :
  StronglySorted R l -> StronglySorted R (lastn n l).
Proof.
  intro H. rewrite (lastn_suffix n l) in H. now apply StronglySorted_app_r in H.
Qed.

(** On finite timestamps the comparator is positive exactly when the
    first is after the second. *)
Lemma by_timestamp_gt_finite (rt : runtime) (a b : DailyClosePoint) (qa qb : Q) :
  timestamp a = VNum (Fin qa) -> timestamp b = VNum (Fin qb) ->
  (by_timestamp_gt rt a b = true <-> (qb < qa)%Q)
  /\ (by_timestamp_gt rt a b = false <-> (qa <= qb)%Q).
Proof.
  intros Ha Hb. unfold by_timestamp_gt, by_timestamp. rewrite Ha, Hb. simpl.
  rewrite Qlt_bool_true_iff, Qlt_bool_false_iff. split; split; intro H.
  - apply (Qplus_lt_l _ _ (- qb)). rewrite Qplus_opp_r. exact H.
  - apply (Qplus_lt_l _ _ (- qb)) in H. rewrite Qplus_opp_r in H. exact H.
  - apply (Qplus_le_l _ _ (- qb)). rewrite Qplus_opp_r. exact H.
  - apply (Qplus_le_l _ _ (- qb)) in H. rewrite Qplus_opp_r in H. exact H.
Qed.

Lemma ts_le_trans (a b c : DailyClosePoint) : ts_le a b -> ts_le b c -> ts_le a c.
Proof.
  intros [qa [qb [Ha [Hb Hab]]]] [qb' [qc [Hb' [Hc Hbc]]]].
  rewrite Hb in Hb'. injection Hb' as <-.
  exists qa, qc. split; [assumption|]. split; [assumption|].
  now apply (Qle_trans _ qb).
Qed.

Lemma sort_insert_sorted (rt : runtime) (x : DailyClosePoint) (l : list DailyClosePoint) :
  ts_finite x -> Forall ts_finite l ->
  StronglySorted ts_le l ->
  StronglySorted ts_le (sort_insert (by_timestamp_gt rt) x l).
Proof.
  intros [qx Hx] Hfin Hs.
  induction l as [|y r IH]; simpl.
  - constructor; constructor.
  - inversion Hfin as [|? ? [qy Hy] Hfr]; subst.
    inversion Hs as [|? ? Hsr Hyr]; subst.
    destruct (by_timestamp_gt_finite rt x y qx qy Hx Hy) as [Hgt Hle].
    destruct (by_timestamp_gt rt x y) eqn:E.
    + constructor; [now apply IH|].
      apply (Permutation_Forall (sort_insert_perm _ x r)).
      constructor; [|assumption].
      exists qy, qx. split; [assumption|]. split; [assumption|].
      apply Qlt_le_weak. now apply Hgt.
    + assert (Hxy : ts_le x y).
      { exists qx, qy. split; [assumption|]. split; [assumption|]. now apply Hle. }
      constructor; [assumption|].
      constructor; [assumption|].
      eapply Forall_impl; [|exact Hyr]. intros z Hz. now apply (ts_le_trans x y z).
Qed.

(** On finite timestamps the sort leaves the points in ascending order. *)
Lemma js_sort_sorted (rt : runtime) (l : list DailyClosePoint) :
  Forall ts_finite l ->
  StronglySorted ts_le (js_sort (by_timestamp_gt rt) l).
Proof.
  induction l as [|x r IH]; simpl; intro H; [constructor|].
  inversion H; subst.
  apply sort_insert_sorted; [assumption| |now apply IH].
  now apply (Permutation_Forall (js_sort_perm _ r)).
Qed.

Lemma combine_snd {A B : Type} (ks : list A) (l : list B) :
  List.length ks = List.length l -> map snd (combine ks l) = l.
Proof.
  revert l. induction ks as [|k ks IH]; intros [|x l] H; try discriminate H.
  - reflexivity.
  - cbn. f_equal. apply IH. now injection H.
Qed.

(** Whatever the ranks, the elements are kept, as often as they occur. *)
Lemma arrange_perm {A : Type} (ranks : list nat) (l : list A) :
  Permutation l (arrange ranks l).
Proof.
  unfold arrange.
  rewrite <- (Permutation_map snd (js_sort_perm _ _)).
  rewrite combine_snd; [reflexivity|].
  now rewrite length_map, length_seq.
Qed.

Lemma timestamps_convert (rt : runtime) (l : list DailyClosePoint) :
  Forall ts_finite l ->
  exists keys,
    map_result (fun p => ToNumber rt (timestamp p)) l = Ok keys
    /\ forallb isFinite keys = true.
Proof.
  induction 1 as [|p l [q Hq] _ [keys [Hk Hf]]]; cbn; [eauto|].
  rewrite Hq, Hk. cbn. exists (Fin q :: keys). split; [reflexivity|exact Hf].
Qed.

(** On timestamps that are finite numbers the sort is the stable sort. *)
Lemma sort_by_timestamp_finite (rt : runtime) (l : list DailyClosePoint) :
  Forall ts_finite l ->
  sort_by_timestamp rt l = Ok (js_sort (by_timestamp_gt rt) l).
Proof.
  intro H. destruct l as [|a [|b l]]; [reflexivity|reflexivity|].
  destruct (timestamps_convert rt _ H) as [keys [Hk Hf]].
  unfold sort_by_timestamp. now rewrite Hk; cbn [bind]; rewrite Hf.
Qed.

(** The sort keeps every element, as often as it occurs. *)
Lemma sort_by_timestamp_perm (rt : runtime) (l sorted : list DailyClosePoint) :
  sort_by_timestamp rt l = Ok sorted -> Permutation l sorted.
Proof.
  destruct l as [|a [|b l]]; [intros [= <-]; reflexivity..|].
  unfold sort_by_timestamp.
  destruct (map_result _ (a :: b :: l)) as [keys|]; cbn [bind]; [|discriminate].
  destruct (forallb isFinite keys); intros [= <-].
  - apply (js_sort_perm _ (a :: b :: l)).
  - apply (arrange_perm _ (a :: b :: l)).
Qed.

Lemma get_prop_opt_prop (d : value) (k : string) (v : value) :
  get_prop d k = Ok v -> v = opt_prop d k.
Proof.
  destruct d; simpl; intro H; try discriminate; now injection H as <-.
Qed.

Lemma normalize_point_timestamp (d : value) (p : DailyClosePoint) :
  normalize_point d = Ok p -> timestamp p = opt_prop d "timestamp".
Proof.
  unfold normalize_point.
  destruct (get_prop d "timestamp") as [t|] eqn:Et; simpl; [|discriminate].
  destruct (get_prop d "close"); simpl; [|discriminate].
  destruct (get_prop d "price"); simpl; [|discriminate].
  destruct (get_prop d "c"); simpl; [|discriminate].
  intro H. injection H as <-. simpl. now apply get_prop_opt_prop.
Qed.

Lemma map_result_Forall2 {A B : Type} (f : A -> result B) (l : list A) (r : list B) :
  map_result f l = Ok r -> Forall2 (fun x y => f x = Ok y) l r.
Proof.
  revert r. induction l as [|x l IH]; simpl; intros r H.
  - injection H as <-. constructor.
  - destruct (f x) as [y|] eqn:E; simpl in H; [|discriminate].
    destruct (map_result f l) as [ys|]; simpl in H; [|discriminate].
    injection H as <-. constructor; [assumption|now apply IH].
Qed.

Lemma Number_isFinite_close (p : DailyClosePoint) :
  Number_isFinite (close p) = true -> close_finite p.
Proof.
  unfold close_finite. destruct (close p) as [| |b|n|s|l|f]; simpl; try discriminate.
  destruct n; try discriminate. intros _. eauto.
Qed.

Lemma NoDup_map_filter {A B : Type} (f : A -> B) (g : A -> bool) (l : list A) :
  NoDup (map f l) -> NoDup (map f (filter g l)).
Proof.
  induction l as [|x l IH]; simpl; intro H; [constructor|].
  inversion H as [|? ? Hnin Hnd]; subst.
  destruct (g x); [|now apply IH].
  simpl. constructor; [|now apply IH].
  intro Hin. apply Hnin. apply in_map_iff in Hin.
  destruct Hin as [y [Hy Hyin]]. apply filter_In in Hyin.
  apply in_map_iff. exists y. tauto.
Qed.

Lemma NoDup_map_lastn {A B : Type} (f : A -> B) (n : nat) (l : list A) :
  NoDup (map f l) -> NoDup (map f (lastn n l)).
Proof.
  intro H. rewrite (lastn_suffix n l), map_app in H.
  now apply NoDup_app_remove_l in H.
Qed.

Lemma normalize_points_keys (elems : list value) (mapped : list DailyClosePoint) :
  Forall2 (fun d p => normalize_point d = Ok p) elems mapped ->
  map (fun p => ts_key (timestamp p)) mapped
  = map (fun d => ts_key (opt_prop d "timestamp")) elems.
Proof.
  induction 1 as [|d p ds ps Hd _ IH]; simpl; [reflexivity|].
  now rewrite IH, (normalize_point_timestamp d p Hd).
Qed.

(** An ascending series without two equal timestamps is strictly
    ascending. *)
Lemma StronglySorted_strict (l : list DailyClosePoint) :
  StronglySorted ts_le l ->
  NoDup (map (fun p => ts_key (timestamp p)) l) ->
  StronglySorted ts_lt l.
Proof.
  induction 1 as [|x l Hs IH Hx]; simpl; intro Hnd; [constructor|].
  inversion Hnd as [|? ? Hnin Hnd']; subst.
  constructor; [now apply IH|].
  apply Forall_forall. intros y Hy.
  rewrite Forall_forall in Hx. destruct (Hx y Hy) as [qx [qy [Ex [Ey Hle]]]].
  exists qx, qy. split; [assumption|]. split; [assumption|].
  apply Qle_lteq in Hle. destruct Hle as [Hlt|Heq]; [assumption|].
  exfalso. apply Hnin. apply in_map_iff. exists y. split; [|assumption].
  rewrite Ex, Ey. simpl. f_equal. apply Qred_complete. now symmetry.
Qed.

(** What [mapDailyClose] returns: at most 900 points, each with a finite
    close; in ascending order when the timestamps of the answer are finite
    numbers, and strictly so when no two of them are equal. *)
Lemma mapDailyClose_series (rt : runtime) (arr : value) (l : list DailyClosePoint) :
  mapDailyClose rt arr = Ok l ->
  List.length l <= 900
  /\ Forall close_finite l
  /\ ((forall elems, arr = VArr elems ->
         Forall (fun d => exists q : Q, opt_prop d "timestamp" = VNum (Fin q)) elems) ->
      StronglySorted ts_le l
      /\ ((forall elems, arr = VArr elems ->
             NoDup (map (fun d => ts_key (opt_prop d "timestamp")) elems)) ->
          StronglySorted ts_lt l)).
Proof.
  unfold mapDailyClose.
  destruct (or_else arr (VArr [])) as [| |b|n|s|elems|f] eqn:Earr; try discriminate.
  destruct (map_result normalize_point elems) as [mapped|] eqn:Emap; simpl; [|discriminate].
  destruct (sort_by_timestamp rt _) as [sorted|] eqn:Esort; simpl; [|discriminate].
  intro H. injection H as <-.
  apply map_result_Forall2 in Emap.
  pose proof (sort_by_timestamp_perm rt _ _ Esort) as Hperm.
  split; [rewrite lastn_length; unfold DAILY_CAP; lia|].
  split.
  - apply Forall_lastn.
    apply (Permutation_Forall Hperm).
    apply Forall_forall. intros p Hp. apply filter_In in Hp.
    now apply Number_isFinite_close.
  - intro Hts.
    assert (Hsorted : StronglySorted ts_le (lastn DAILY_CAP sorted)).
    { apply StronglySorted_lastn.
      enough (Hfin : Forall ts_finite
                       (filter (fun d => Number_isFinite (close d)) mapped)).
      { rewrite (sort_by_timestamp_finite rt _ Hfin) in Esort.
        injection Esort as <-. now apply js_sort_sorted. }
      assert (Hel : Forall (fun d => exists q : Q, opt_prop d "timestamp" = VNum (Fin q))
                      elems).
      { unfold or_else in Earr. destruct (truthy arr).
        - now apply Hts.
        - injection Earr as <-. constructor. }
      assert (Hm : Forall ts_finite mapped).
      { clear Earr Hts Esort Hperm.
        induction Emap as [|d p ds ps Hd _ IH]; [constructor|].
        inversion Hel as [|? ? [q Hq] Hel']; subst.
        constructor; [|now apply IH].
        exists q. rewrite (normalize_point_timestamp d p Hd). exact Hq. }
      apply Forall_forall. intros p Hp. apply filter_In in Hp.
      rewrite Forall_forall in Hm. now apply Hm. }
    split; [exact Hsorted|].
    intro Hnd. apply StronglySorted_strict; [exact Hsorted|].
    apply NoDup_map_lastn.
    apply (Permutation_NoDup (Permutation_map _ Hperm)).
    apply NoDup_map_filter.
    rewrite (normalize_points_keys elems mapped Emap).
    unfold or_else in Earr. destruct (truthy arr).
    + now apply Hnd.
    + injection Earr as <-. constructor.
Qed.

Lemma promise_all3_ok {A : Type} (a b c : result A) (x y z : A) :
  promise_all3 a b c = Ok (x, y, z) <-> a = Ok x /\ b = Ok y /\ c = Ok z.
Proof.
  split.
  - destruct a, b, c; simpl; intro H; try discriminate.
    injection H as <- <- <-. auto.
  - intros [-> [-> ->]]. reflexivity.
Qed.

Lemma promise_all3_throw {A : Type} (a b c : result A) :
  (exists e, a = Throw e) \/ (exists e, b = Throw e) \/ (exists e, c = Throw e) ->
  exists e, promise_all3 a b c = Throw e.
Proof.
  intro H. destruct a, b, c; simpl; eauto.
  destruct H as [[e H]|[[e H]|[e H]]]; discriminate.
Qed.

(** The refresh never throws, and leaves the cache [refreshed]. *)
Lemma refreshDailyClosesCache_refreshed (rt : runtime)
  (fetch : asset -> result value) (now : Z) (c : DailyClosesCache) :
  refreshDailyClosesCache rt fetch now c = (Ok tt, refreshed rt fetch now c).
Proof.
  unfold refreshDailyClosesCache, try_catch, refresh_body, refreshed, bindM, lift,
    modify, ret.
  destruct (promise_all3 (fetch Bitcoin) (fetch Ethereum) (fetch Solana))
    as [[[b e] s]|x]; [|reflexivity].
  destruct (mapDailyClose rt (opt_prop b "data")); [|reflexivity].
  destruct (mapDailyClose rt (opt_prop e "data")); [|reflexivity].
  destruct (mapDailyClose rt (opt_prop s "data")); reflexivity.
Qed.

Lemma cache_get_set (k k' : asset) (l : list DailyClosePoint) (c : DailyClosesCache) :
  cache_get k' (cache_set k l c) = if match k, k' with
                                      | Bitcoin, Bitcoin | Ethereum, Ethereum
                                      | Solana, Solana => true
                                      | _, _ => false
                                      end then l else cache_get k' c.
Proof. destruct k, k'; reflexivity. Qed.

Lemma cache_set_inv (timed distinct : Prop) (k : asset) (l : list DailyClosePoint)
  (c : DailyClosesCache) :
  series_inv timed distinct l -> cache_inv timed distinct c ->
  cache_inv timed distinct (cache_set k l c).
Proof.
  intros Hl Hc k'. rewrite cache_get_set.
  destruct k, k'; auto.
Qed.

Lemma set_lastFetchedAt_inv (timed distinct : Prop) (t : Z) (c : DailyClosesCache) :
  cache_inv timed distinct c -> cache_inv timed distinct (set_lastFetchedAt t c).
Proof. intros Hc k. specialize (Hc k). destruct k; exact Hc. Qed.

Lemma mapDailyClose_inv (rt : runtime) (timed distinct : Prop) (body : value)
  (l : list DailyClosePoint) :
  (timed -> timestamps_finite body) ->
  (distinct -> timestamps_distinct body) ->
  mapDailyClose rt (opt_prop body "data") = Ok l ->
  series_inv timed distinct l.
Proof.
  intros Ht Hd Hm. destruct (mapDailyClose_series rt _ l Hm) as [Hlen [Hfin Hs]].
  split; [assumption|]. split; [assumption|]. split.
  - intro T. apply Hs. intros elems He. now apply (Ht T).
  - intros T D. apply Hs.
    + intros elems He. now apply (Ht T).
    + intros elems He. now apply (Hd D).
Qed.

Lemma refreshed_inv (rt : runtime) (timed distinct : Prop)
  (fetch : asset -> result value) (now : Z) (c : DailyClosesCache) :
  (timed -> forall k body, fetch k = Ok body -> timestamps_finite body) ->
  (distinct -> forall k body, fetch k = Ok body -> timestamps_distinct body) ->
  cache_inv timed distinct c -> cache_inv timed distinct (refreshed rt fetch now c).
Proof.
  intros Ht Hd Hc. unfold refreshed.
  destruct (promise_all3 (fetch Bitcoin) (fetch Ethereum) (fetch Solana))
    as [[[b e] s]|x] eqn:Eall; [|assumption].
  apply promise_all3_ok in Eall. destruct Eall as [Hb [He Hs]].
  destruct (mapDailyClose rt (opt_prop b "data")) as [lb|] eqn:Eb; [|assumption].
  assert (Ib : series_inv timed distinct lb).
  { apply (mapDailyClose_inv rt timed distinct b); [| |assumption].
    - intro T. now apply (Ht T Bitcoin).
    - intro D. now apply (Hd D Bitcoin). }
  destruct (mapDailyClose rt (opt_prop e "data")) as [le|] eqn:Ee;
    [|now apply cache_set_inv].
  assert (Ie : series_inv timed distinct le).
  { apply (mapDailyClose_inv rt timed distinct e); [| |assumption].
    - intro T. now apply (Ht T Ethereum).
    - intro D. now apply (Hd D Ethereum). }
  destruct (mapDailyClose rt (opt_prop s "data")) as [ls|] eqn:Es;
    [|now repeat apply cache_set_inv].
  assert (Is : series_inv timed distinct ls).
  { apply (mapDailyClose_inv rt timed distinct s); [| |assumption].
    - intro T. now apply (Ht T Solana).
    - intro D. now apply (Hd D Solana). }
  apply set_lastFetchedAt_inv. now repeat apply cache_set_inv.
Qed.

Lemma initial_cache_inv (timed distinct : Prop) :
  cache_inv timed distinct initial_cache.
Proof.
  intro k. destruct k;
    (split; [simpl; lia|]; split; [constructor|]; split; constructor).
Qed.

(** Every state of the cache satisfies the invariant. *)
Lemma reachable_inv (rt : runtime) (P : value -> Prop) (c : DailyClosesCache) :
  reachable rt P c ->
  cache_inv (forall body, P body -> timestamps_finite body)
    (forall body, P body -> timestamps_distinct body) c.
Proof.
  induction 1 as [|fetch now c HP Hr IH]; [apply initial_cache_inv|].
  rewrite refreshDailyClosesCache_refreshed. simpl.
  apply refreshed_inv; [| |assumption].
  - intros T k body Hk. apply T. now apply (HP k).
  - intros D k body Hk. apply D. now apply (HP k).
Qed.

(** [getCachedDailyCloses] never throws: it returns the cached series of
    the key when that is not empty, and otherwise the series of the key
    after one refresh. *)
Lemma getCachedDailyCloses_result (rt : runtime) (fetch : asset -> result value)
  (now : Z) (symbol : value) (c : DailyClosesCache) :
  getCachedDailyCloses rt fetch now symbol c
  = if Nat.ltb 0 (List.length (cache_get (cache_key symbol) c))
    then (Ok (cache_get (cache_key symbol) c), c)
    else (Ok (cache_get (cache_key symbol) (refreshed rt fetch now c)),
          refreshed rt fetch now c).
Proof.
  unfold getCachedDailyCloses, bindM, get_state, ret.
  destruct (Nat.ltb 0 (List.length (cache_get (cache_key symbol) c)));
    [reflexivity|].
  rewrite refreshDailyClosesCache_refreshed. reflexivity.
Qed.

(** C4 (amended).  In every state of the cache, the series returned by
    [getCachedDailyCloses] has at most 900 points and no point whose close
    is not a finite number.  When the timestamps the provider sends are
    finite numbers, it is in ascending order of timestamp, in the wide
    sense: two points may carry the same timestamp; it is strictly
    ascending when moreover no answer of the provider carries the same
    timestamp twice. *)
Theorem getCachedDailyCloses_series (rt : runtime) (P : value -> Prop)
  (fetch : asset -> result value) (now : Z) (symbol : value)
  (c : DailyClosesCache) :
  reachable rt P c ->
  (forall k body, fetch k = Ok body -> P body) ->
  exists l c',
    getCachedDailyCloses rt fetch now symbol c = (Ok l, c')
    /\ reachable rt P c'
    /\ List.length l <= 900
    /\ Forall close_finite l
    /\ ((forall body, P body -> timestamps_finite body) -> StronglySorted ts_le l)
    /\ ((forall body, P body -> timestamps_finite body) ->
        (forall body, P body -> timestamps_distinct body) ->
        StronglySorted ts_lt l).
Proof.
  intros Hr HP. rewrite getCachedDailyCloses_result.
  destruct (Nat.ltb 0 (List.length (cache_get (cache_key symbol) c))).
  - exists (cache_get (cache_key symbol) c), c.
    split; [reflexivity|]. split; [assumption|].
    apply (reachable_inv rt P c Hr).
  - exists (cache_get (cache_key symbol) (refreshed rt fetch now c)),
      (refreshed rt fetch now c).
    split; [reflexivity|].
    assert (Hr' : reachable rt P (refreshed rt fetch now c)).
    { pose proof (reachable_refresh rt P fetch now c HP Hr) as H.
      rewrite refreshDailyClosesCache_refreshed in H. exact H. }
    split; [assumption|].
    apply (reachable_inv rt P _ Hr').
Qed.

Lemma fetch_distinct_answers (k : asset) (body : value) :
  Examples.fetch_distinct k = Ok body ->
  timestamps_finite body /\ timestamps_distinct body.
Proof.
  unfold Examples.fetch_distinct. intro H. injection H as <-. split.
  - intros elems He. simpl in He. injection He as <-.
    repeat constructor; eexists; reflexivity.
  - intros elems He. simpl in He. injection He as <-.
    repeat constructor; simpl; intuition discriminate.
Qed.

Lemma getCachedDailyCloses_series_witness :
  exists l c',
    getCachedDailyCloses Reference.rt Examples.fetch_distinct 0 (VStr "bitcoin")
      initial_cache = (Ok l, c')
    /\ List.length l <= 900
    /\ Forall close_finite l
    /\ StronglySorted ts_le l
    /\ StronglySorted ts_lt l.
Proof.
  destruct (getCachedDailyCloses_series Reference.rt
              (fun body => timestamps_finite body /\ timestamps_distinct body)
              Examples.fetch_distinct 0%Z (VStr "bitcoin") initial_cache
              (reachable_initial Reference.rt _)
              fetch_distinct_answers)
    as [l [c' [Hget [_ [Hlen [Hfin [Hsorted Hstrict]]]]]]].
  exists l, c'.
  split; [exact Hget|]. split; [exact Hlen|]. split; [exact Hfin|]. split.
  - apply Hsorted. intros body H. exact (proj1 H).
  - apply Hstrict; intros body H; [exact (proj1 H)|exact (proj2 H)].
Defined.

Example getCachedDailyCloses_distinct :
  fst (getCachedDailyCloses Reference.rt Examples.fetch_distinct 0 (VStr "solana")
         initial_cache)
  = Ok [Examples.point 1 10; Examples.point 2 30; Examples.point 3 20].
Proof. vm_compute. reflexivity. Qed.

(** C4, as stated, fails: when the provider sends two points with the same
    timestamp, both are kept, and the series returned is not strictly
    ascending; and when it sends its timestamps as dates in text, the
    comparator is not a number, the order is the one of the implementation
    (here the order sent), and no order of the points is strictly
    ascending. *)
Lemma getCachedDailyCloses_series_counterexample :
  fst (getCachedDailyCloses Reference.rt Examples.fetch_duplicates 0 (VStr "bitcoin")
         initial_cache)
    = Ok [Examples.point 1 10; Examples.point 1 20; Examples.point 2 30]
  /\ ~ Spec.strictly_ascending Reference.rt
         [Examples.point 1 10; Examples.point 1 20; Examples.point 2 30]
  /\ fst (getCachedDailyCloses Reference.rt Examples.fetch_dated 0 (VStr "bitcoin")
            initial_cache)
    = Ok [Examples.dated_point "2024-01-02" 30; Examples.dated_point "2024-01-01" 10]
  /\ ~ Spec.strictly_ascending Reference.rt
         [Examples.dated_point "2024-01-02" 30; Examples.dated_point "2024-01-01" 10].
Proof.
  split; [vm_compute; reflexivity|]. split.
  - intro H. inversion H as [|? ? _ Hd]; subst.
    inversion Hd as [|? ? [x [y [Hx [Hy Hlt]]]]]; subst.
    vm_compute in Hx, Hy. injection Hx as <-. injection Hy as <-.
    vm_compute in Hlt. discriminate.
  - split; [vm_compute; reflexivity|].
    intro H. inversion H as [|? ? _ Hd]; subst.
    inversion Hd as [|? ? [x [y [Hx [Hy Hlt]]]]]; subst.
    vm_compute in Hx, Hy. injection Hx as <-. injection Hy as <-.
    vm_compute in Hlt. discriminate.
Qed.

(** The conversion to a number throws exactly on the values that do not
    convert. *)
Lemma ToNumber_converts (rt : runtime) (v : value) :
  if converts v then exists n, ToNumber rt v = Ok n
  else ToNumber rt v = Throw JsTypeError.
Proof.
  destruct v as [| |b|n|s|elems|fields]; try (cbn; eauto; fail).
  - pose proof (ToString_converts rt (VArr elems)) as H.
    unfold ToNumber. destruct (converts (VArr elems)).
    + destruct H as [s ->]. cbn. eauto.
    + now rewrite H.
  - cbn. destruct (get_own fields "toString"); eauto.
Qed.

Lemma map_result_throw_in {A B : Type} (f : A -> result B) (l : list A) (e : exn) :
  map_result f l = Throw e -> exists x, In x l /\ f x = Throw e.
Proof.
  induction l as [|x l IH]; cbn; [discriminate|].
  destruct (f x) as [y|e1] eqn:E; cbn.
  - destruct (map_result f l) as [ys|e2]; cbn; [discriminate|].
    intros [= ->]. destruct (IH eq_refl) as [z [Hz Hf]]. eauto.
  - intros [= ->]. eauto.
Qed.

Lemma sort_by_timestamp_throws (rt : runtime) (l : list DailyClosePoint) (e : exn) :
  sort_by_timestamp rt l = Throw e ->
  e = JsTypeError
  /\ 2 <= List.length l
  /\ Exists (fun p => converts (timestamp p) = false) l.
Proof.
  destruct l as [|a [|b l]]; [discriminate..|].
  unfold sort_by_timestamp.
  destruct (map_result _ (a :: b :: l)) as [keys|e'] eqn:Ek; cbn [bind].
  - destruct (forallb isFinite keys); discriminate.
  - intros [= ->].
    destruct (map_result_throw_in _ _ _ Ek) as [p [Hin Hp]].
    pose proof (ToNumber_converts rt (timestamp p)) as Hc.
    destruct (converts (timestamp p)) eqn:Ec.
    + destruct Hc as [n Hn]. congruence.
    + split; [congruence|]. split; [cbn; lia|].
      apply Exists_exists. eauto.
Qed.

Lemma sort_by_timestamp_converts (rt : runtime) (l : list DailyClosePoint) :
  Forall (fun p => converts (timestamp p) = true) l ->
  exists sorted, sort_by_timestamp rt l = Ok sorted.
Proof.
  intro H. destruct (sort_by_timestamp rt l) as [sorted|e] eqn:E; [eauto|].
  destruct (sort_by_timestamp_throws rt l e E) as [_ [_ Hex]].
  exfalso. apply Exists_exists in Hex. destruct Hex as [p [Hin Hp]].
  rewrite Forall_forall in H. rewrite (H p Hin) in Hp. discriminate Hp.
Qed.

(** An array without null or undefined elements, whose timestamps
    convert to numbers, normalizes. *)
Lemma mapDailyClose_ok (rt : runtime) (elems : list value) :
  Forall (fun d => nullish d = false) elems ->
  Forall (fun d => converts (opt_prop d "timestamp") = true) elems ->
  exists l, mapDailyClose rt (VArr elems) = Ok l.
Proof.
  intros H Hc. unfold mapDailyClose. simpl.
  assert (Hm : exists mapped, map_result normalize_point elems = Ok mapped).
  { clear Hc. induction H as [|d ds Hd _ [mapped IH]]; [simpl; eauto|].
    simpl. rewrite IH.
    destruct d; try discriminate; simpl; eauto. }
  destruct Hm as [mapped Hm]. rewrite Hm. cbn [bind].
  assert (Hmc : Forall (fun p => converts (timestamp p) = true) mapped).
  { apply map_result_Forall2 in Hm. clear H.
    induction Hm as [|d p ds ps Hd _ IH]; [constructor|].
    inversion Hc; subst. constructor; [|now apply IH].
    now rewrite (normalize_point_timestamp d p Hd). }
  destruct (sort_by_timestamp_converts rt
              (filter (fun d => Number_isFinite (close d)) mapped)) as [sorted ->].
  { apply Forall_forall. intros p Hp. apply filter_In in Hp.
    rewrite Forall_forall in Hmc. now apply Hmc. }
  cbn. eauto.
Qed.

(** An answer that lists a null point makes the normalization throw: the
    series assigned before it stay assigned, the others and the time of
    the refresh are not. *)
Example refresh_on_malformed_answer :
  refreshDailyClosesCache Reference.rt Examples.fetch_ethereum_malformed 5
    Examples.cache_old
  = (Ok tt,
     {| bitcoin := [Examples.point 1 10]; ethereum := [Examples.point 0 8];
        solana := [Examples.point 0 9]; lastFetchedAt := 1000%Z |}).
Proof. vm_compute. reflexivity. Qed.

(** C1 (amended).  No exception escapes [refreshDailyClosesCache].  If the
    request of any asset fails, the cache is left as it was: no series is
    replaced, not even those of the assets whose request succeeded.  If the
    three requests succeed and their answers normalize, the three series
    are replaced and the time of the refresh is recorded. *)
Theorem refreshDailyClosesCache_all_or_nothing (rt : runtime)
  (fetch : asset -> result value) (now : Z) (c : DailyClosesCache) :
  fst (refreshDailyClosesCache rt fetch now c) = Ok tt
  /\ ((exists k e, fetch k = Throw e) ->
      snd (refreshDailyClosesCache rt fetch now c) = c)
  /\ (forall b e s lb le ls,
        fetch Bitcoin = Ok b -> fetch Ethereum = Ok e -> fetch Solana = Ok s ->
        mapDailyClose rt (opt_prop b "data") = Ok lb ->
        mapDailyClose rt (opt_prop e "data") = Ok le ->
        mapDailyClose rt (opt_prop s "data") = Ok ls ->
        snd (refreshDailyClosesCache rt fetch now c)
        = {| bitcoin := lb; ethereum := le; solana := ls; lastFetchedAt := now |}).
Proof.
  rewrite refreshDailyClosesCache_refreshed. simpl.
  split; [reflexivity|]. split.
  - intros [k [e Hk]]. unfold refreshed.
    destruct (promise_all3_throw (fetch Bitcoin) (fetch Ethereum) (fetch Solana))
      as [x Hx]; [|now rewrite Hx].
    destruct k; eauto.
  - intros b e s lb le ls Hb He Hs Hlb Hle Hls. unfold refreshed.
    rewrite Hb, He, Hs. simpl. rewrite Hlb, Hle, Hls. reflexivity.
Qed.

Lemma refreshDailyClosesCache_all_or_nothing_witness :
  snd (refreshDailyClosesCache Reference.rt Examples.fetch_bitcoin_down 0
         Examples.cache_old) = Examples.cache_old
  /\ snd (refreshDailyClosesCache Reference.rt Examples.fetch_duplicates 5
            Examples.cache_old)
     = {| bitcoin := [Examples.point 1 10; Examples.point 1 20; Examples.point 2 30];
          ethereum := [Examples.point 1 10; Examples.point 1 20; Examples.point 2 30];
          solana := [Examples.point 1 10; Examples.point 1 20; Examples.point 2 30];
          lastFetchedAt := 5%Z |}.
Proof.
  split.
  - apply (proj1 (proj2 (refreshDailyClosesCache_all_or_nothing Reference.rt
                           Examples.fetch_bitcoin_down 0%Z Examples.cache_old))).
    exists Bitcoin, (Rejected "timeout of 30000ms exceeded"). reflexivity.
  - apply (proj2 (proj2 (refreshDailyClosesCache_all_or_nothing Reference.rt
                           Examples.fetch_duplicates 5%Z Examples.cache_old))
             (Examples.daily_body
                [Examples.raw_point 2 30; Examples.raw_point 1 10; Examples.raw_point 1 20])
             (Examples.daily_body
                [Examples.raw_point 2 30; Examples.raw_point 1 10; Examples.raw_point 1 20])
             (Examples.daily_body
                [Examples.raw_point 2 30; Examples.raw_point 1 10; Examples.raw_point 1 20]));
      reflexivity.
Defined.

(** C1, as stated, fails: with the request for bitcoin failing and the
    request for ethereum answered, the cached series of ethereum is not
    replaced by the answer. *)
Lemma refreshDailyClosesCache_counterexample :
  Examples.fetch_bitcoin_down Ethereum
    = Ok (Examples.daily_body [Examples.raw_point 1 10])
  /\ mapDailyClose Reference.rt
       (opt_prop (Examples.daily_body [Examples.raw_point 1 10]) "data")
     = Ok [Examples.point 1 10]
  /\ cache_get Ethereum
       (snd (refreshDailyClosesCache Reference.rt Examples.fetch_bitcoin_down 0
               Examples.cache_old))
     = [Examples.point 0 8]
  /\ ~ Spec.partial_success Reference.rt Examples.fetch_bitcoin_down 0
         Examples.cache_old.
Proof.
  split; [reflexivity|]. split; [vm_compute; reflexivity|].
  split; [vm_compute; reflexivity|].
  intro H.
  specialize (H Ethereum (Examples.daily_body [Examples.raw_point 1 10])
                [Examples.point 1 10] eq_refl eq_refl).
  vm_compute in H. discriminate.
Qed.

Lemma cache_key_other (symbol : value) :
  symbol <> VStr "ethereum" -> symbol <> VStr "solana" ->
  cache_key symbol = Bitcoin.
Proof.
  intros He Hs. destruct symbol as [| |b|n|s|l|f]; try reflexivity. simpl.
  destruct (String.eqb_spec s "ethereum") as [->|_]; [congruence|].
  destruct (String.eqb_spec s "solana") as [->|_]; [congruence|reflexivity].
Qed.

(** C10 (amended).  For every symbol other than [ethereum] and [solana],
    [getCachedDailyCloses] does what it does for [bitcoin]: it returns the
    cached series of bitcoin and never throws.  The result is empty only
    when the series of bitcoin was empty and is still empty after the one
    refresh of this call. *)
Theorem getCachedDailyCloses_other_symbol (rt : runtime)
  (fetch : asset -> result value) (now : Z) (symbol : value)
  (c : DailyClosesCache) :
  symbol <> VStr "ethereum" -> symbol <> VStr "solana" ->
  getCachedDailyCloses rt fetch now symbol c
    = getCachedDailyCloses rt fetch now (VStr "bitcoin") c
  /\ exists l c',
       getCachedDailyCloses rt fetch now symbol c = (Ok l, c')
       /\ l = bitcoin c'
       /\ (l = [] ->
           bitcoin c = []
           /\ c' = snd (refreshDailyClosesCache rt fetch now c)).
Proof.
  intros He Hs. rewrite !getCachedDailyCloses_result.
  rewrite (cache_key_other symbol He Hs). split; [reflexivity|]. simpl.
  destruct (bitcoin c) as [|p r] eqn:Eb; simpl.
  - exists (bitcoin (refreshed rt fetch now c)), (refreshed rt fetch now c).
    split; [reflexivity|]. split; [reflexivity|].
    intros _. split; [reflexivity|].
    now rewrite refreshDailyClosesCache_refreshed.
  - exists (p :: r), c. split; [reflexivity|]. split; [now rewrite Eb|].
    discriminate.
Qed.

Lemma getCachedDailyCloses_other_symbol_witness :
  getCachedDailyCloses Reference.rt Examples.fetch_down 0 (VStr "dogecoin")
    Examples.cache_old
    = getCachedDailyCloses Reference.rt Examples.fetch_down 0 (VStr "bitcoin")
        Examples.cache_old
  /\ exists l c',
       getCachedDailyCloses Reference.rt Examples.fetch_down 0 (VStr "dogecoin")
         Examples.cache_old = (Ok l, c')
       /\ l = bitcoin c'
       /\ (l = [] ->
           bitcoin Examples.cache_old = []
           /\ c' = snd (refreshDailyClosesCache Reference.rt Examples.fetch_down 0
                          Examples.cache_old)).
Proof.
  apply (getCachedDailyCloses_other_symbol Reference.rt Examples.fetch_down 0%Z
           (VStr "dogecoin") Examples.cache_old); discriminate.
Defined.

Example getCachedDailyCloses_dogecoin :
  getCachedDailyCloses Reference.rt Examples.fetch_down 0 (VStr "dogecoin")
    Examples.cache_old = (Ok [Examples.point 0 7], Examples.cache_old).
Proof. reflexivity. Qed.

(** C10, as stated, fails: with an empty cache and the provider down, the
    result for an unrecognized symbol is empty. *)
Lemma getCachedDailyCloses_other_symbol_counterexample :
  getCachedDailyCloses Reference.rt Examples.fetch_down 0 (VStr "dogecoin")
    initial_cache = (Ok [], initial_cache).
Proof. reflexivity. Qed.

(** ** The pattern of the fence *)

Lemma prefix_split (p s : string) :
  String.prefix p s = true -> exists r, s = (p ++ r)%string.
Proof.
  revert s. induction p as [|a p IH]; intros s H.
  - exists s. reflexivity.
  - destruct s as [|b s]; [discriminate|]. simpl in H.
    destruct (ascii_dec a b) as [->|]; [|discriminate].
    destruct (IH s H) as [r ->]. exists r. reflexivity.
Qed.

Lemma prefix_append (p r : string) : String.prefix p (p ++ r) = true.
Proof.
  induction p as [|a p IH]; simpl; [destruct r; reflexivity|].
  destruct (ascii_dec a a); [exact IH|contradiction].
Qed.

Lemma skip_spaces_split (s : string) :
  exists ws, s = (ws ++ skip_spaces s)%string /\ all_spaces ws = true.
Proof.
  induction s as [|c s [ws [IH Hws]]]; simpl.
  - exists EmptyString. split; reflexivity.
  - destruct (is_space c) eqn:E.
    + exists (String c ws). simpl. rewrite E, Hws. split; [now rewrite <- IH|reflexivity].
    + exists EmptyString. split; reflexivity.
Qed.

Lemma skip_spaces_fence (ws post : string) :
  all_spaces ws = true ->
  skip_spaces (ws ++ FENCE ++ post) = (FENCE ++ post)%string.
Proof.
  induction ws as [|c ws IH]; simpl; intro H; [reflexivity|].
  apply andb_true_iff in H. destruct H as [Hc Hws]. rewrite Hc. now apply IH.
Qed.

Lemma closes_split (s : string) :
  closes s = true ->
  exists ws post, s = (ws ++ FENCE ++ post)%string /\ all_spaces ws = true.
Proof.
  unfold closes. intro H. apply prefix_split in H. destruct H as [post Hp].
  destruct (skip_spaces_split s) as [ws [Hs Hws]].
  exists ws, post. split; [|assumption]. rewrite Hs at 1. now rewrite Hp.
Qed.

Lemma closes_fence (ws post : string) :
  all_spaces ws = true -> closes (ws ++ FENCE ++ post) = true.
Proof.
  intro H. unfold closes. rewrite (skip_spaces_fence ws post H).
  apply prefix_append.
Qed.

Lemma lazy_capture_sound (s c : string) :
  lazy_capture s = Some c ->
  exists ws post, s = (c ++ ws ++ FENCE ++ post)%string /\ all_spaces ws = true.
Proof.
  revert c. induction s as [|a s IH]; intros c H; cbn [lazy_capture] in H.
  - destruct (closes EmptyString) eqn:E; [|discriminate].
    injection H as <-. now apply closes_split.
  - destruct (closes (String a s)) eqn:E.
    + injection H as <-. now apply closes_split.
    + destruct (lazy_capture s) as [c'|]; [|discriminate].
      injection H as <-. destruct (IH c' eq_refl) as [ws [post [-> Hws]]].
      exists ws, post. split; [reflexivity|assumption].
Qed.

Lemma lazy_capture_complete (c ws post : string) :
  all_spaces ws = true ->
  exists c', lazy_capture (c ++ ws ++ FENCE ++ post) = Some c'.
Proof.
  intro Hws. induction c as [|a c [c' IH]].
  - change ((EmptyString ++ ws ++ FENCE ++ post)%string)
      with ((ws ++ FENCE ++ post)%string).
    pose proof (closes_fence ws post Hws) as Hc.
    destruct (ws ++ FENCE ++ post)%string; cbn [lazy_capture]; rewrite Hc; eauto.
  - change ((String a c ++ ws ++ FENCE ++ post)%string)
      with (String a (c ++ ws ++ FENCE ++ post)%string).
    cbn [lazy_capture]. destruct (closes _); [eauto|]. rewrite IH. simpl. eauto.
Qed.

Lemma after_label_sound (s c : string) :
  after_label s = Some c ->
  exists ws1 ws2 post,
    s = (ws1 ++ c ++ ws2 ++ FENCE ++ post)%string
    /\ all_spaces ws1 = true /\ all_spaces ws2 = true.
Proof.
  revert c. induction s as [|a s IH]; intros c H.
  - apply lazy_capture_sound in H. destruct H as [ws [post [Hs Hws]]].
    exists EmptyString, ws, post. auto.
  - cbn [after_label] in H. destruct (is_space a) eqn:Ea.
    + destruct (after_label s) as [c'|] eqn:El.
      * injection H as <-.
        destruct (IH c' eq_refl) as [ws1 [ws2 [post [-> [H1 H2]]]]].
        exists (String a ws1), ws2, post. simpl. rewrite Ea, H1. auto.
      * apply lazy_capture_sound in H. destruct H as [ws [post [Hs Hws]]].
        exists EmptyString, ws, post. auto.
    + apply lazy_capture_sound in H. destruct H as [ws [post [Hs Hws]]].
      exists EmptyString, ws, post. auto.
Qed.

Lemma after_label_of_lazy (s c : string) :
  lazy_capture s = Some c -> exists c', after_label s = Some c'.
Proof.
  intro H. destruct s as [|a s]; [simpl; eauto|].
  cbn [after_label]. destruct (is_space a); [|eauto].
  destruct (after_label s); eauto.
Qed.

Lemma after_label_complete (ws1 c ws2 post : string) :
  all_spaces ws1 = true -> all_spaces ws2 = true ->
  exists c', after_label (ws1 ++ c ++ ws2 ++ FENCE ++ post) = Some c'.
Proof.
  intros H1 H2. induction ws1 as [|a ws1 IH].
  - destruct (lazy_capture_complete c ws2 post H2) as [c' Hc].
    now apply (after_label_of_lazy _ c').
  - simpl in H1. apply andb_true_iff in H1. destruct H1 as [Ha H1].
    destruct (IH H1) as [c' Hc].
    change ((String a ws1 ++ c ++ ws2 ++ FENCE ++ post)%string)
      with (String a (ws1 ++ c ++ ws2 ++ FENCE ++ post)%string).
    cbn [after_label]. rewrite Ha, Hc. eauto.
Qed.

Lemma prefix_ci_split (p s : string) :
  prefix_ci p s = true ->
  exists label,
    s = (label ++ drop (String.length p) s)%string
    /\ String.length label = String.length p
    /\ prefix_ci p label = true.
Proof.
  revert s. induction p as [|a p IH]; intros s H.
  - exists EmptyString. auto.
  - destruct s as [|b s]; [discriminate|]. simpl in H.
    apply andb_true_iff in H. destruct H as [Hab Hp].
    destruct (IH s Hp) as [label [Hs [Hl Hpl]]].
    exists (String b label). simpl. rewrite Hab, Hpl, Hl, <- Hs. auto.
Qed.

Lemma prefix_ci_append (p label r : string) :
  String.length label = String.length p -> prefix_ci p label = true ->
  prefix_ci p (label ++ r) = true /\ drop (String.length p) (label ++ r) = r.
Proof.
  revert label. induction p as [|a p IH]; intros label Hl Hp.
  - destruct label; [auto|discriminate].
  - destruct label as [|b label]; [discriminate|]. simpl in *.
    apply andb_true_iff in Hp. destruct Hp as [Hab Hp]. rewrite Hab.
    injection Hl as Hl. now apply IH.
Qed.

(** The capture returned is the capture of a match of the pattern. *)
Lemma match_fence_sound (s c : string) :
  match_fence s = Some c -> fence_match s c.
Proof.
  induction s as [|a s IH]; cbn [match_fence]; intro H.
  - destruct (match_here EmptyString) eqn:E; discriminate.
  - destruct (match_here (String a s)) as [c'|] eqn:E.
    + injection H as <-. unfold match_here in E.
      destruct (prefix_ci FENCE_JSON (String a s)) eqn:Ep; [|discriminate].
      apply prefix_ci_split in Ep. destruct Ep as [label [Hs [Hl Hp]]].
      apply after_label_sound in E.
      destruct E as [ws1 [ws2 [post [Hr [H1 H2]]]]].
      exists EmptyString, label, ws1, ws2, post.
      split; [|auto]. simpl. rewrite Hs at 1.
      change (String.length FENCE_JSON) with 7. now rewrite Hr.
    + destruct (IH H) as [pre [label [ws1 [ws2 [post [-> Hrest]]]]]].
      exists (String a pre), label, ws1, ws2, post. auto.
Qed.

(** Where the pattern has a match, [match_fence] finds one. *)
Lemma match_fence_complete (s c : string) :
  fence_match s c -> exists c', match_fence s = Some c'.
Proof.
  intros [pre [label [ws1 [ws2 [post [-> [Hl [Hp [H1 H2]]]]]]]]].
  induction pre as [|a pre [c' IH]].
  - change ((EmptyString ++ label ++ ws1 ++ c ++ ws2 ++ FENCE ++ post)%string)
      with ((label ++ ws1 ++ c ++ ws2 ++ FENCE ++ post)%string).
    destruct (prefix_ci_append FENCE_JSON label
                (ws1 ++ c ++ ws2 ++ FENCE ++ post) Hl Hp) as [Hpre Hdrop].
    destruct (after_label_complete ws1 c ws2 post H1 H2) as [c' Hc].
    exists c'.
    assert (Hm : match_here (label ++ ws1 ++ c ++ ws2 ++ FENCE ++ post) = Some c').
    { unfold match_here. rewrite Hpre.
      change 7 with (String.length FENCE_JSON). now rewrite Hdrop. }
    destruct (label ++ ws1 ++ c ++ ws2 ++ FENCE ++ post)%string;
      cbn [match_fence]; now rewrite Hm.
  - change ((String a pre ++ label ++ ws1 ++ c ++ ws2 ++ FENCE ++ post)%string)
      with (String a (pre ++ label ++ ws1 ++ c ++ ws2 ++ FENCE ++ post)%string).
    cbn [match_fence]. destruct (match_here _); eauto.
Qed.

(** ** Extraction of JSON from the completion text *)

Lemma append_assoc (a b c : string) : ((a ++ b) ++ c = a ++ (b ++ c))%string.
Proof. induction a as [|x a IH]; simpl; [reflexivity|now rewrite IH]. Qed.

Lemma length_append (a b : string) :
  String.length (a ++ b) = String.length a + String.length b.
Proof. induction a as [|x a IH]; simpl; [reflexivity|now rewrite IH]. Qed.

(** The first occurrence of [c] in a text whose part before that
    occurrence has none. *)
Lemma indexOf_first (c : ascii) (pre rest : string) :
  indexOf c pre = None ->
  indexOf c (pre ++ String c rest) = Some (String.length pre).
Proof.
  induction pre as [|a pre IH]; simpl; intro H.
  - now rewrite Ascii.eqb_refl.
  - destruct (Ascii.eqb a c); [discriminate|].
    destruct (indexOf c pre); [discriminate|].
    now rewrite IH.
Qed.

(** The last occurrence of [c] in a text whose part after that occurrence
    has none. *)
Lemma lastIndexOf_last (c : ascii) (pre post : string) :
  lastIndexOf c post = None ->
  lastIndexOf c (pre ++ String c post) = Some (String.length pre).
Proof.
  intro H. induction pre as [|a pre IH]; simpl.
  - now rewrite H, Ascii.eqb_refl.
  - now rewrite IH.
Qed.

Lemma substring_skip (pre t : string) (m : nat) :
  substring (String.length pre) m (pre ++ t) = substring 0 m t.
Proof. induction pre as [|a pre IH]; simpl; [reflexivity|exact IH]. Qed.

Lemma substring_take (a b : string) :
  substring 0 (String.length a) (a ++ b) = a.
Proof.
  induction a as [|x a IH]; simpl.
  - destruct b; reflexivity.
  - now rewrite IH.
Qed.

(** The slice from the first opening brace to the last closing brace. *)
Lemma slice_braces (pre mid post : string) :
  slice (pre ++ String LBRACE (mid ++ String RBRACE post))
    (String.length pre) (String.length (pre ++ String LBRACE mid) + 1)
  = String LBRACE (mid ++ String RBRACE EmptyString).
Proof.
  unfold slice. rewrite substring_skip.
  replace (String.length (pre ++ String LBRACE mid) + 1 - String.length pre)
    with (String.length (String LBRACE (mid ++ String RBRACE EmptyString))).
  - replace (String LBRACE (mid ++ String RBRACE post))
      with ((String LBRACE (mid ++ String RBRACE EmptyString)) ++ post)%string.
    + apply substring_take.
    + simpl. now rewrite append_assoc.
  - rewrite length_append. simpl. rewrite length_append. simpl. lia.
Qed.

Lemma parseJsonFromText_unfenced (rt : runtime) (s : string) :
  s <> EmptyString -> no_fenced_interior s ->
  parseJsonFromText rt (VStr s) = parse_whole_or_braces rt s.
Proof.
  intros Hs Hf. unfold parseJsonFromText.
  apply String.eqb_neq in Hs. rewrite Hs.
  destruct Hf as [-> | ->]; reflexivity.
Qed.

Lemma parse_or_throw_not_missing (rt : runtime) (c : string) :
  parse_or_throw rt c <> Throw NO_JSON_FOUND.
Proof. unfold parse_or_throw. destruct (JSON_parse rt c); discriminate. Qed.

Lemma parse_braces_pair (rt : runtime) (s : string) (first last : nat) :
  brace_pair s first last ->
  parse_braces rt s = parse_or_throw rt (slice s first (last + 1)).
Proof.
  intros [Hf [Hl Hlt]]. unfold parse_braces. rewrite Hf, Hl.
  apply Nat.ltb_lt in Hlt. now rewrite Hlt.
Qed.

Lemma parse_braces_missing_iff (rt : runtime) (s : string) :
  parse_braces rt s = Throw NO_JSON_FOUND
  <-> ~ exists first last, brace_pair s first last.
Proof.
  unfold parse_braces, brace_pair. split.
  - intros H [first [last [Hf [Hl Hlt]]]]. rewrite Hf, Hl in H.
    apply Nat.ltb_lt in Hlt. rewrite Hlt in H.
    now apply parse_or_throw_not_missing in H.
  - intro H. destruct (indexOf LBRACE s) as [first|]; [|reflexivity].
    destruct (lastIndexOf RBRACE s) as [last|]; [|reflexivity].
    destruct (first <? last) eqn:E; [|reflexivity].
    exfalso. apply H. exists first, last. apply Nat.ltb_lt in E. auto.
Qed.

Lemma parseJsonFromText_missing_iff (rt : runtime) (s : string) :
  s <> EmptyString ->
  (parseJsonFromText rt (VStr s) = Throw NO_JSON_FOUND
   <-> no_fenced_interior s /\ JSON_parse rt s = None
       /\ ~ exists first last, brace_pair s first last).
Proof.
  intro Hs. split.
  - intro H.
    assert (Hf : no_fenced_interior s).
    { unfold no_fenced_interior.
      destruct (match_fence s) as [[|a i]|] eqn:Em; auto.
      exfalso. unfold parseJsonFromText in H.
      pose proof Hs as Hs'. apply String.eqb_neq in Hs'. rewrite Hs', Em in H.
      now apply parse_or_throw_not_missing in H. }
    split; [assumption|].
    rewrite (parseJsonFromText_unfenced rt s Hs Hf) in H.
    unfold parse_whole_or_braces in H.
    destruct (JSON_parse rt s); [discriminate|].
    split; [reflexivity|]. now apply (parse_braces_missing_iff rt s).
  - intros [Hf [Hw Hn]]. rewrite (parseJsonFromText_unfenced rt s Hs Hf).
    unfold parse_whole_or_braces. rewrite Hw.
    now apply parse_braces_missing_iff.
Qed.

(** ** The match of the pattern is the first fenced block *)

Lemma backtick_not_space (c : ascii) (r y : string) :
  String c r = (FENCE ++ y)%string -> is_space c = false.
Proof. intro H. injection H as -> _. reflexivity. Qed.

Lemma closes_space (x : ascii) (s : string) :
  is_space x = true -> closes (String x s) = closes s.
Proof.
  intro H. unfold closes. cbn [skip_spaces]. now rewrite H.
Qed.

Lemma prefix_fence_iff (s : string) :
  String.prefix FENCE s = true <-> exists r, s = (FENCE ++ r)%string.
Proof.
  split; [apply prefix_split|]. intros [r ->]. apply prefix_append.
Qed.

Lemma prefix_fence_space (c : ascii) (s : string) :
  is_space c = true -> String.prefix FENCE (String c s) = false.
Proof.
  intro Hc. destruct (String.prefix FENCE (String c s)) eqn:E; [|reflexivity].
  apply prefix_fence_iff in E. destruct E as [r Hr].
  rewrite (backtick_not_space c s r Hr) in Hc. discriminate Hc.
Qed.

Lemma append_length_nil (x y : string) :
  FENCE = (x ++ FENCE ++ y)%string -> y = EmptyString.
Proof.
  intro H. apply (f_equal String.length) in H.
  rewrite !length_append in H. destruct y; [reflexivity|cbn in H; lia].
Qed.

Lemma spaces_before_fence (ws x y : string) :
  all_spaces ws = true ->
  (ws ++ FENCE)%string = (x ++ FENCE ++ y)%string -> y = EmptyString.
Proof.
  revert x. induction ws as [|c ws IH]; intros x Hws H.
  - now apply (append_length_nil x y).
  - cbn [all_spaces] in Hws. apply andb_prop in Hws. destruct Hws as [Hc Hws].
    destruct x as [|c' x].
    + cbn [String.append] in H.
      rewrite (backtick_not_space c _ y H) in Hc. discriminate Hc.
    + cbn [String.append] in H. injection H as _ H. now apply (IH x).
Qed.

Lemma split_fence_sound (s a post : string) :
  split_fence s = Some (a, post) ->
  s = (a ++ FENCE ++ post)%string
  /\ (forall x y, (a ++ FENCE)%string = (x ++ FENCE ++ y)%string -> y = EmptyString).
Proof.
  revert a post. induction s as [|c s IH]; intros a post H.
  - discriminate H.
  - cbn [split_fence] in H.
    destruct (String.prefix FENCE (String c s)) eqn:Ep.
    + apply prefix_fence_iff in Ep. destruct Ep as [r Hr].
      rewrite Hr in H |- *. injection H as <- <-.
      split; [reflexivity|]. intros x y. apply append_length_nil.
    + destruct (split_fence s) as [[a' post']|] eqn:Es; [|discriminate H].
      injection H as <- <-. destruct (IH a' post' eq_refl) as [-> Hfirst].
      split; [reflexivity|].
      intros x y Hxy. destruct x as [|c' x].
      * exfalso. cbn [String.append] in Hxy.
        assert (Hp : String.prefix FENCE (String c (a' ++ FENCE ++ post')) = true).
        { apply prefix_fence_iff. exists (y ++ post')%string.
          change (String c (a' ++ FENCE ++ post'))
            with ((String c a') ++ FENCE ++ post')%string.
          rewrite <- (append_assoc (String c a')), <- (append_assoc FENCE).
          change (String c a' ++ FENCE)%string with (String c (a' ++ FENCE)).
          now rewrite Hxy. }
        rewrite Hp in Ep. discriminate Ep.
      * cbn [String.append] in Hxy. injection Hxy as _ Hxy. exact (Hfirst x y Hxy).
Qed.

Lemma prefix_fence_short (a post r : string) :
  (a ++ FENCE ++ post)%string = (FENCE ++ r)%string ->
  a <> EmptyString ->
  exists y, (a ++ FENCE)%string = (FENCE ++ y)%string /\ y <> EmptyString.
Proof.
  intros H Ha.
  destruct a as [|c1 [|c2 [|c3 a]]]; [contradiction| | |];
    cbn in H; inversion H; subst.
  - exists (String "`" EmptyString). split; [reflexivity|discriminate].
  - exists (String "`" (String "`" EmptyString)). split; [reflexivity|discriminate].
  - exists (a ++ FENCE)%string. split; [reflexivity|].
    destruct a; discriminate.
Qed.

Lemma split_fence_complete (s a post : string) :
  s = (a ++ FENCE ++ post)%string ->
  (forall x y, (a ++ FENCE)%string = (x ++ FENCE ++ y)%string -> y = EmptyString) ->
  split_fence s = Some (a, post).
Proof.
  revert s. induction a as [|c a IH]; intros s -> Hfirst.
  - change (EmptyString ++ FENCE ++ post)%string with (FENCE ++ post)%string.
    destruct post; reflexivity.
  - change ((String c a) ++ FENCE ++ post)%string with (String c (a ++ FENCE ++ post)).
    cbn [split_fence].
    destruct (String.prefix FENCE (String c (a ++ FENCE ++ post))) eqn:Ep.
    + exfalso. apply prefix_fence_iff in Ep. destruct Ep as [r Hr].
      destruct (prefix_fence_short (String c a) post r Hr ltac:(discriminate))
        as [y [Hy Hne]].
      apply Hne. exact (Hfirst EmptyString y Hy).
    + rewrite (IH _ eq_refl); [reflexivity|].
      intros x y Hxy. apply (Hfirst (String c x) y).
      cbn [String.append]. now rewrite Hxy.
Qed.

Lemma split_fence_found (u v : string) : split_fence (u ++ FENCE ++ v) <> None.
Proof.
  induction u as [|c u IH].
  - destruct v; discriminate.
  - change ((String c u) ++ FENCE ++ v)%string with (String c (u ++ FENCE ++ v)).
    cbn [split_fence].
    destruct (String.prefix FENCE _); [discriminate|].
    destruct (split_fence (u ++ FENCE ++ v)) as [[a post]|]; [discriminate|].
    now destruct IH.
Qed.

Lemma trim_end_spaces (a : string) : all_spaces a = true -> trim_end a = EmptyString.
Proof.
  induction a as [|c a IH]; [reflexivity|]. cbn [all_spaces trim_end].
  intro H. apply andb_prop in H. destruct H as [Hc Ha].
  now rewrite (IH Ha), Hc.
Qed.

Lemma trim_end_empty (a : string) : trim_end a = EmptyString -> all_spaces a = true.
Proof.
  induction a as [|c a IH]; [reflexivity|]. cbn [all_spaces trim_end].
  destruct (trim_end a); [|discriminate].
  destruct (is_space c); [|discriminate]. intros _. now rewrite IH.
Qed.

(** The lazy group stops before the first closing fence, and before the
    white space in front of it. *)
Lemma lazy_capture_split (s : string) :
  lazy_capture s
  = match split_fence s with
    | Some (a, _) => Some (trim_end a)
    | None => None
    end.
Proof.
  induction s as [|c s IH]; [reflexivity|].
  cbn [lazy_capture]. destruct (closes (String c s)) eqn:Ec.
  - destruct (closes_split _ Ec) as [ws [post [Hs Hws]]].
    rewrite (split_fence_complete _ ws post Hs (fun x y => spaces_before_fence ws x y Hws)).
    now rewrite (trim_end_spaces ws Hws).
  - rewrite IH. cbn [split_fence].
    destruct (String.prefix FENCE (String c s)) eqn:Ep.
    + exfalso. apply prefix_fence_iff in Ep. destruct Ep as [r Hr].
      rewrite Hr in Ec.
      change (FENCE ++ r)%string with (EmptyString ++ FENCE ++ r)%string in Ec.
      rewrite (closes_fence EmptyString r eq_refl) in Ec. discriminate Ec.
    + destruct (split_fence s) as [[a post]|] eqn:Es; [|reflexivity].
      cbn [option_map trim_end].
      destruct (trim_end a) eqn:Et; [|reflexivity].
      destruct (is_space c) eqn:Hc; [|reflexivity].
      exfalso. destruct (split_fence_sound s a post Es) as [-> _].
      change (String c (a ++ FENCE ++ post))
        with ((String c a) ++ FENCE ++ post)%string in Ec.
      rewrite closes_fence in Ec; [discriminate Ec|].
      cbn [all_spaces]. now rewrite Hc, (trim_end_empty a Et).
Qed.

Lemma split_fence_skip (s : string) :
  split_fence (skip_spaces s)
  = match split_fence s with
    | Some (a, post) => Some (skip_spaces a, post)
    | None => None
    end.
Proof.
  induction s as [|c s IH]; [reflexivity|].
  cbn [skip_spaces]. destruct (is_space c) eqn:Hc.
  - rewrite IH. cbn [split_fence]. rewrite (prefix_fence_space c s Hc).
    destruct (split_fence s) as [[a post]|]; [|reflexivity].
    cbn [skip_spaces]. now rewrite Hc.
  - cbn [split_fence]. destruct (String.prefix FENCE (String c s)); [reflexivity|].
    destruct (split_fence s) as [[a post]|]; [|reflexivity].
    cbn [skip_spaces]. now rewrite Hc.
Qed.

(** The white space after the label is skipped whole. *)
Lemma after_label_skip (s : string) : after_label s = lazy_capture (skip_spaces s).
Proof.
  induction s as [|c s IH]; [reflexivity|].
  cbn [after_label skip_spaces]. destruct (is_space c) eqn:Hc; [|reflexivity].
  rewrite IH. destruct (lazy_capture (skip_spaces s)) eqn:El; [reflexivity|].
  rewrite lazy_capture_split in El. rewrite split_fence_skip in El.
  rewrite lazy_capture_split. cbn [split_fence].
  rewrite (prefix_fence_space c s Hc).
  destruct (split_fence s) as [[a post]|]; [discriminate El|reflexivity].
Qed.

Lemma after_label_split (s : string) :
  after_label s
  = match split_fence s with
    | Some (a, _) => Some (trim a)
    | None => None
    end.
Proof.
  rewrite after_label_skip, lazy_capture_split, split_fence_skip.
  now destruct (split_fence s) as [[a post]|].
Qed.

Lemma drop_append (n : nat) (u v : string) :
  n <= String.length u -> drop n (u ++ v) = (drop n u ++ v)%string.
Proof.
  revert u. induction n as [|n IH]; intros u H; [reflexivity|].
  destruct u as [|c u]; [cbn in H; lia|].
  cbn [String.append drop]. apply IH. cbn in H. lia.
Qed.

Lemma first_label_sound (s rest : string) :
  first_label s = Some rest -> after_first_label s rest.
Proof.
  unfold after_first_label. induction s as [|c s IH]; intro H.
  - discriminate H.
  - cbn [first_label] in H. destruct (prefix_ci FENCE_JSON (String c s)) eqn:Ep.
    + injection H as <-. destruct (prefix_ci_split _ _ Ep) as [label [Hs [Hlen Hl]]].
      exists EmptyString, label. split; [exact Hs|]. split; [exact Hlen|].
      split; [exact Hl|]. intros pre' r _ Hlt. cbn in Hlt. lia.
    + destruct (IH H) as [pre [label [Hs [Hlen [Hl Hleft]]]]].
      exists (String c pre), label. split; [cbn; now rewrite <- Hs|].
      split; [exact Hlen|]. split; [exact Hl|].
      intros pre' r Hr Hlt. destruct pre' as [|c' pre'].
      * cbn in Hr. now rewrite <- Hr.
      * cbn in Hr. injection Hr as _ Hr. apply (Hleft pre' r Hr).
        cbn in Hlt. lia.
Qed.

Lemma first_label_complete (s rest : string) :
  after_first_label s rest -> first_label s = Some rest.
Proof.
  intros [pre [label [Hs [Hlen [Hl Hleft]]]]]. revert s Hs Hleft.
  induction pre as [|c pre IH]; intros s Hs Hleft.
  - cbn in Hs. subst s.
    destruct (prefix_ci_append FENCE_JSON label rest Hlen Hl) as [Hp Hd].
    destruct (label ++ rest)%string eqn:E; cbn [first_label]; rewrite Hp;
      now rewrite <- Hd.
  - cbn in Hs. subst s. cbn [first_label].
    rewrite (Hleft EmptyString _ eq_refl) by (cbn; lia).
    apply IH; [reflexivity|].
    intros pre' r Hr Hlt. apply (Hleft (String c pre') r).
    + cbn. now rewrite Hr.
    + cbn. lia.
Qed.

Lemma first_label_offset (s rest : string) :
  first_label s = Some rest ->
  exists u, s = (u ++ rest)%string /\ 7 <= String.length u.
Proof.
  intro H. destruct (first_label_sound s rest H) as [pre [label [Hs [Hlen _]]]].
  exists (pre ++ label)%string. split; [now rewrite append_assoc|].
  rewrite length_append. lia.
Qed.

(** The leftmost match of the pattern is at the first label, and its
    capture ends at the first closing fence after it. *)
Lemma match_fence_first_label (s : string) :
  match_fence s
  = match first_label s with
    | Some rest =>
        match split_fence rest with
        | Some (a, _) => Some (trim a)
        | None => None
        end
    | None => None
    end.
Proof.
  induction s as [|c s IH]; [reflexivity|].
  cbn [match_fence first_label]. unfold match_here.
  destruct (prefix_ci FENCE_JSON (String c s)) eqn:Ep; [|exact IH].
  rewrite after_label_split.
  destruct (split_fence (drop 7 (String c s))) as [[a post]|] eqn:Es; [reflexivity|].
  rewrite IH. destruct (first_label s) as [rest|] eqn:El; [|reflexivity].
  destruct (split_fence rest) as [[a post]|] eqn:Er; [|reflexivity].
  exfalso. destruct (first_label_offset s rest El) as [u [-> Hu]].
  destruct (split_fence_sound rest a post Er) as [-> _].
  change (String c (u ++ a ++ FENCE ++ post))
    with ((String c u) ++ a ++ FENCE ++ post)%string in Es.
  rewrite drop_append in Es by (cbn; lia).
  rewrite <- (append_assoc _ a) in Es.
  exact (split_fence_found _ _ Es).
Qed.

(** What the pattern captures is the interior of the first fenced block. *)
Lemma match_fence_interior (s interior : string) :
  match_fence s = Some interior <-> fenced_interior s interior.
Proof.
  rewrite match_fence_first_label. unfold fenced_interior. split.
  - destruct (first_label s) as [rest|] eqn:El; [|discriminate].
    destruct (split_fence rest) as [[a post]|] eqn:Es; [|discriminate].
    intros [= <-]. exists rest, a.
    split; [now apply first_label_sound|]. split; [|reflexivity].
    exists post. now apply split_fence_sound.
  - intros [rest [a [Hl [[post [Hr Hfirst]] ->]]]].
    rewrite (first_label_complete s rest Hl).
    now rewrite (split_fence_complete rest a post Hr Hfirst).
Qed.

Lemma unfenced_iff (s : string) : unfenced s <-> no_fenced_interior s.
Proof.
  unfold unfenced, no_fenced_interior. split.
  - intro H. destruct (match_fence s) as [c|] eqn:E; [|now left].
    right. f_equal. apply H. now apply match_fence_interior.
  - intros [H|H] interior Hi; apply match_fence_interior in Hi.
    + rewrite H in Hi. discriminate Hi.
    + rewrite H in Hi. now injection Hi.
Qed.

(** C2 (amended).  On a non-empty text, only the first fenced block
    counts: the text between the first label (the opening fence with
    [json], in either case of the letters) and the first run of three
    backticks after it, without the white space around it.  When this
    interior is not empty it decides the result, which is its parse, and a
    syntax error if it is not JSON (the other two strategies are then not
    tried).  When there is no such block or its interior is empty, whatever
    later blocks hold, the whole text is parsed; if that fails, the
    substring from the first opening brace to the last closing brace is
    parsed, and a syntax error is raised if it is not JSON.  The error [No
    JSON found in AI response] is raised exactly when the first block is
    absent or empty, the whole text is not JSON and there is no opening
    brace before a closing brace.  In particular a text without a fence,
    made of valid JSON between its first opening brace and its last closing
    brace followed by prose, is extracted by brace-slicing. *)
Theorem parseJsonFromText_strategies (rt : runtime) (s : string) :
  s <> EmptyString ->
  (forall interior,
      fenced_interior s interior -> interior <> EmptyString ->
      parseJsonFromText rt (VStr s) = parse_or_throw rt interior)
  /\ (unfenced s ->
      forall v, JSON_parse rt s = Some v -> parseJsonFromText rt (VStr s) = Ok v)
  /\ (unfenced s -> JSON_parse rt s = None ->
      forall first last, brace_pair s first last ->
        parseJsonFromText rt (VStr s) = parse_or_throw rt (slice s first (last + 1)))
  /\ (parseJsonFromText rt (VStr s) = Throw NO_JSON_FOUND
      <-> unfenced s /\ JSON_parse rt s = None
          /\ ~ exists first last, brace_pair s first last)
  /\ (forall pre mid post v,
        s = (pre ++ "{" ++ mid ++ "}" ++ post)%string ->
        indexOf LBRACE pre = None -> lastIndexOf RBRACE post = None ->
        unfenced s -> JSON_parse rt s = None ->
        JSON_parse rt ("{" ++ mid ++ "}") = Some v ->
        parseJsonFromText rt (VStr s) = Ok v).
Proof.
  intro Hs.
  assert (Hthird : unfenced s -> JSON_parse rt s = None ->
                   forall first last, brace_pair s first last ->
                   parseJsonFromText rt (VStr s)
                   = parse_or_throw rt (slice s first (last + 1))).
  { intros Hf Hw first last Hp. apply unfenced_iff in Hf.
    rewrite (parseJsonFromText_unfenced rt s Hs Hf).
    unfold parse_whole_or_braces. rewrite Hw. now apply parse_braces_pair. }
  split; [|split; [|split; [exact Hthird|split]]].
  - intros interior Hm Hi. apply match_fence_interior in Hm.
    unfold parseJsonFromText.
    apply String.eqb_neq in Hs. rewrite Hs, Hm.
    destruct interior; [contradiction|reflexivity].
  - intros Hf v Hv. apply unfenced_iff in Hf.
    rewrite (parseJsonFromText_unfenced rt s Hs Hf).
    unfold parse_whole_or_braces. now rewrite Hv.
  - rewrite unfenced_iff. now apply parseJsonFromText_missing_iff.
  - intros pre mid post v Heq Hpre Hpost Hf Hw Hv.
    assert (Hp : brace_pair s (String.length pre)
                   (String.length (pre ++ String LBRACE mid))).
    { subst s. split; [|split].
      - now apply indexOf_first.
      - change (pre ++ "{" ++ mid ++ "}" ++ post)%string
          with (pre ++ String LBRACE (mid ++ String RBRACE post))%string.
        replace (pre ++ String LBRACE (mid ++ String RBRACE post))%string
          with ((pre ++ String LBRACE mid) ++ String RBRACE post)%string
          by (rewrite append_assoc; reflexivity).
        now apply lastIndexOf_last.
      - rewrite length_append. simpl. lia. }
    rewrite (Hthird Hf Hw _ _ Hp). subst s.
    change (pre ++ "{" ++ mid ++ "}" ++ post)%string
      with (pre ++ String LBRACE (mid ++ String RBRACE post))%string.
    rewrite slice_braces. unfold parse_or_throw.
    change (String LBRACE (mid ++ String RBRACE EmptyString))
      with ("{" ++ mid ++ "}")%string.
    now rewrite Hv.
Qed.

Lemma text_with_trailing_prose_nonempty :
  Examples.text_with_trailing_prose <> EmptyString.
Proof. discriminate. Qed.

Lemma parseJsonFromText_strategies_witness :
  parseJsonFromText Reference.rt (VStr Examples.text_with_trailing_prose)
    = Ok (VObj (Examples.verdict 8))
  /\ parseJsonFromText Reference.rt (VStr Examples.text_fenced)
    = parse_or_throw Reference.rt (Examples.verdict_text "8")
  /\ parseJsonFromText Reference.rt (VStr Examples.text_prose) = Throw NO_JSON_FOUND
  /\ parseJsonFromText Reference.rt (VStr Examples.text_two_blocks)
     = Throw NO_JSON_FOUND.
Proof.
  split; [|split; [|split]].
  - apply (proj2 (proj2 (proj2 (proj2
             (parseJsonFromText_strategies Reference.rt
                Examples.text_with_trailing_prose
                text_with_trailing_prose_nonempty))))
             "Assessment: " (Examples.verdict_inner "8") " I hope this helps.").
    + reflexivity.
    + reflexivity.
    + reflexivity.
    + apply unfenced_iff. left. vm_compute. reflexivity.
    + vm_compute. reflexivity.
    + vm_compute. reflexivity.
  - apply (proj1 (parseJsonFromText_strategies Reference.rt Examples.text_fenced
                    ltac:(discriminate))).
    + apply match_fence_interior. vm_compute. reflexivity.
    + discriminate.
  - apply (proj1 (proj2 (proj2 (proj2
             (parseJsonFromText_strategies Reference.rt Examples.text_prose
                ltac:(discriminate)))))).
    split; [apply unfenced_iff; left; vm_compute; reflexivity|].
    split; [vm_compute; reflexivity|].
    intros [first [last [Hf _]]]. vm_compute in Hf. discriminate.
  - apply (proj1 (proj2 (proj2 (proj2
             (parseJsonFromText_strategies Reference.rt Examples.text_two_blocks
                ltac:(discriminate)))))).
    split; [apply unfenced_iff; right; vm_compute; reflexivity|].
    split; [vm_compute; reflexivity|].
    intros [first [last [Hf _]]]. vm_compute in Hf. discriminate.
Defined.

(** C2, as stated, fails: when the interior of the fenced block is not
    JSON the other strategies are not tried, although the third would
    succeed; and when then all three fail the error is the syntax error of
    the parser, not [No JSON found in AI response]. *)
Lemma parseJsonFromText_counterexample :
  parseJsonFromText Reference.rt (VStr Examples.text_bad_fence_then_object)
    = Throw JsSyntaxError
  /\ Spec.extract Reference.rt Examples.text_bad_fence_then_object
    = Ok (VObj (Examples.verdict 8))
  /\ parseJsonFromText Reference.rt (VStr Examples.text_bad_fence)
    = Throw JsSyntaxError
  /\ Spec.extract Reference.rt Examples.text_bad_fence = Throw NO_JSON_FOUND.
Proof.
  split; [vm_compute; reflexivity|].
  split; [vm_compute; reflexivity|].
  split; vm_compute; reflexivity.
Qed.

(** ** One pipeline run *)

(** [buildPromptData] never throws; of the state it changes the cache
    only. *)
Lemma buildPromptData_ok (rt : runtime) (env : Env) (st : State) :
  exists td d, buildPromptData rt env st = (Ok td, with_daily d st).
Proof.
  unfold buildPromptData, fetchCryptoMinuteSeries, bindM, on_cache, ret.
  rewrite getCachedDailyCloses_result.
  destruct (Nat.ltb 0 _); cbn [daily with_daily];
    rewrite getCachedDailyCloses_result;
    destruct (Nat.ltb 0 _); cbn [daily with_daily];
      rewrite getCachedDailyCloses_result;
      destruct (Nat.ltb 0 _); cbn [daily with_daily];
        eexists _, _; reflexivity.
Qed.

Lemma buildPromptData_state (rt : runtime) (env : Env) (st st1 : State) (td : value) :
  buildPromptData rt env st = (Ok td, st1) ->
  collection st1 = collection st
  /\ storeResult_calls st1 = storeResult_calls st.
Proof.
  destruct (buildPromptData_ok rt env st) as [td' [d H]].
  rewrite H. intro E. injection E as _ <-. split; reflexivity.
Qed.

(** The steps of [analyze] after the template data is built. *)
Lemma analyze_steps (rt : runtime) (env : Env) (st st1 : State) (td : value) :
  buildPromptData rt env st = (Ok td, st1) ->
  analyze rt env st
  = match callLLM env td with
    | Throw e => (Throw e, st1)
    | Ok aiText =>
        match parseJsonFromText rt aiText with
        | Throw e => (Throw e, st1)
        | Ok parsed =>
            match validateOutput parsed with
            | Throw e => (Throw e, st1)
            | Ok _ =>
                match storeResult env (enrich env parsed) st1 with
                | (Ok storage, st2) =>
                    (Ok (VObj [("success", VBool true);
                               ("analysis", enrich env parsed);
                               ("storage", storage)]), st2)
                | (Throw e, st2) => (Throw e, st2)
                end
            end
        end
    end.
Proof.
  intro H. unfold analyze, bindM, lift, ret. rewrite H.
  destruct (callLLM env td); [|reflexivity].
  destruct (parseJsonFromText rt a); [|reflexivity].
  destruct (validateOutput a0); reflexivity.
Qed.

Lemma storeResult_unavailable (env : Env) (res : value) (st : State) :
  db_available env = false ->
  storeResult env res st = (Ok NOT_STORED, log_storeResult res st).
Proof.
  intro H. unfold storeResult, bindM, modify, ret. now rewrite H.
Qed.

(** C6 (amended).  When the backing store is unavailable (the database
    handle was not initialised), [storeResult] does not raise: it returns
    the indicator with [stored: false] and the reason
    [firestore_not_available]; and a run whose completion parses and
    validates reports success with that indicator, nothing being stored. *)
Theorem storeResult_soft_failure (rt : runtime) (env : Env) (st st1 : State)
  (td aiText parsed : value) :
  db_available env = false ->
  buildPromptData rt env st = (Ok td, st1) ->
  callLLM env td = Ok aiText ->
  parseJsonFromText rt aiText = Ok parsed ->
  validateOutput parsed = Ok tt ->
  (forall res s, storeResult env res s = (Ok NOT_STORED, log_storeResult res s))
  /\ opt_prop NOT_STORED "stored" = VBool false
  /\ opt_prop NOT_STORED "reason" = VStr "firestore_not_available"
  /\ run rt env st
     = (Succeeded (enrich env parsed) NOT_STORED,
        log_storeResult (enrich env parsed) st1)
  /\ collection (snd (run rt env st)) = collection st.
Proof.
  intros Hdb Hb Hc Hp Hv.
  assert (Hrun : run rt env st
                 = (Succeeded (enrich env parsed) NOT_STORED,
                    log_storeResult (enrich env parsed) st1)).
  { unfold run. rewrite (analyze_steps rt env st st1 td Hb), Hc, Hp, Hv.
    rewrite (storeResult_unavailable env _ st1 Hdb). reflexivity. }
  split; [intros res s; now apply storeResult_unavailable|].
  split; [reflexivity|]. split; [reflexivity|]. split; [exact Hrun|].
  rewrite Hrun. simpl. apply (buildPromptData_state rt env st st1 td Hb).
Qed.

Lemma storeResult_soft_failure_witness :
  run Reference.rt (Examples.env_of (Examples.verdict_text "8") false Examples.add_rejected)
    Examples.state0
  = (Succeeded
       (enrich (Examples.env_of (Examples.verdict_text "8") false Examples.add_rejected)
          (VObj (Examples.verdict 8)))
       NOT_STORED,
     log_storeResult
       (enrich (Examples.env_of (Examples.verdict_text "8") false Examples.add_rejected)
          (VObj (Examples.verdict 8)))
       Examples.state0).
Proof.
  pose (env := Examples.env_of (Examples.verdict_text "8") false Examples.add_rejected).
  destruct (buildPromptData Reference.rt env Examples.state0) as [r st1] eqn:Hb.
  assert (Hst : st1 = Examples.state0 /\ exists td, r = Ok td).
  { vm_compute in Hb. injection Hb as <- <-. split; [reflexivity|eauto]. }
  destruct Hst as [-> [td ->]].
  apply (proj1 (proj2 (proj2 (proj2
           (storeResult_soft_failure Reference.rt env Examples.state0 Examples.state0
              td (VStr (Examples.verdict_text "8")) (VObj (Examples.verdict 8))
              eq_refl Hb eq_refl
              ltac:(vm_compute; reflexivity) ltac:(vm_compute; reflexivity)))))).
Defined.

(** C6, as stated, fails: with the store initialised but rejecting the
    write, a run whose completion parses and validates is reported as
    failed. *)
Lemma storeResult_counterexample :
  parseJsonFromText Reference.rt (VStr (Examples.verdict_text "8"))
    = Ok (VObj (Examples.verdict 8))
  /\ validateOutput (VObj (Examples.verdict 8)) = Ok tt
  /\ fst (run Reference.rt
            (Examples.env_of (Examples.verdict_text "8") true Examples.add_rejected)
            Examples.state0)
     = Failed (Rejected "14 UNAVAILABLE: No connection established").
Proof.
  split; [vm_compute; reflexivity|].
  split; vm_compute; reflexivity.
Qed.

Lemma parseJsonFromText_errors (rt : runtime) (text : value) (e : exn) :
  parseJsonFromText rt text = Throw e ->
  e = NO_JSON_FOUND \/ e = EMPTY_RESPONSE \/ e = JsSyntaxError.
Proof.
  unfold parseJsonFromText, parse_whole_or_braces, parse_braces, parse_or_throw.
  intro H.
  repeat match type of H with
         | context [match ?x with _ => _ end] => destruct x
         | context [if ?b then _ else _] => destruct b
         end;
    try discriminate; injection H as <-; auto.
Qed.

(** C7 (amended).  When the completion text yields no JSON, that is when
    [parseJsonFromText] throws, the run is reported as failed with the
    error it threw, and [storeResult] is not called: nothing is stored.
    The error is [No JSON found in AI response] exactly when the text is
    not empty, has no fenced block labeled json with a non-empty interior,
    is not JSON as a whole and has no opening brace before a closing
    brace; otherwise it is [Empty AI response] or the syntax error of the
    parser. *)
Theorem analyze_no_json (rt : runtime) (env : Env) (st st1 : State)
  (td aiText : value) (e : exn) :
  buildPromptData rt env st = (Ok td, st1) ->
  callLLM env td = Ok aiText ->
  parseJsonFromText rt aiText = Throw e ->
  run rt env st = (Failed e, st1)
  /\ storeResult_calls st1 = storeResult_calls st
  /\ collection st1 = collection st
  /\ (e = NO_JSON_FOUND \/ e = EMPTY_RESPONSE \/ e = JsSyntaxError)
  /\ (e = NO_JSON_FOUND <->
      exists s, aiText = VStr s /\ s <> EmptyString /\ no_fenced_interior s
                /\ JSON_parse rt s = None
                /\ ~ exists first last, brace_pair s first last).
Proof.
  intros Hb Hc Hp.
  split; [unfold run; now rewrite (analyze_steps rt env st st1 td Hb), Hc, Hp|].
  destruct (buildPromptData_state rt env st st1 td Hb) as [Hcol Hcalls].
  split; [assumption|]. split; [assumption|].
  split; [now apply (parseJsonFromText_errors rt aiText)|].
  split.
  - intros ->. destruct aiText as [| |b|n|s|l|f]; try (simpl in Hp; discriminate).
    exists s. split; [reflexivity|].
    assert (Hs : s <> EmptyString).
    { intros ->. simpl in Hp. discriminate. }
    split; [assumption|].
    now apply (parseJsonFromText_missing_iff rt s Hs).
  - intros [s [-> [Hs H]]].
    apply (parseJsonFromText_missing_iff rt s Hs) in H.
    rewrite H in Hp. now injection Hp as <-.
Qed.

Lemma analyze_no_json_witness :
  run Reference.rt (Examples.env_of Examples.text_prose true Examples.add_ok)
    Examples.state0
  = (Failed NO_JSON_FOUND, Examples.state0).
Proof.
  pose (env := Examples.env_of Examples.text_prose true Examples.add_ok).
  destruct (buildPromptData Reference.rt env Examples.state0) as [r st1] eqn:Hb.
  assert (Hst : st1 = Examples.state0 /\ exists td, r = Ok td).
  { vm_compute in Hb. injection Hb as <- <-. split; [reflexivity|eauto]. }
  destruct Hst as [-> [td ->]].
  apply (proj1 (analyze_no_json Reference.rt env Examples.state0 Examples.state0
                  td (VStr Examples.text_prose) NO_JSON_FOUND
                  Hb eq_refl ltac:(vm_compute; reflexivity))).
Defined.

(** C7, as stated, fails: prose with braces around something that is not
    JSON has no extractable JSON, and the run fails with the syntax error
    of the parser, not with [No JSON found in AI response]. *)
Lemma analyze_no_json_counterexample :
  Spec.extract Reference.rt Examples.text_braces_prose = Throw NO_JSON_FOUND
  /\ run Reference.rt (Examples.env_of Examples.text_braces_prose true Examples.add_ok)
       Examples.state0
     = (Failed JsSyntaxError, Examples.state0)
  /\ JsSyntaxError <> NO_JSON_FOUND.
Proof.
  split; [vm_compute; reflexivity|].
  split; [vm_compute; reflexivity|discriminate].
Qed.

Lemma validateOutput_ok_object (v : value) :
  validateOutput v = Ok tt -> exists fields, v = VObj fields.
Proof.
  destruct v as [| |b|n|s|l|f]; try (intro H; discriminate H).
  eauto.
Qed.

Lemma get_own_set_own_eq (fields : list (string * value)) (k : string) (v : value) :
  get_own (set_own fields k v) k = Some v.
Proof.
  induction fields as [|[k' v'] r IH]; simpl.
  - now rewrite String.eqb_refl.
  - destruct (String.eqb k' k) eqn:E; simpl.
    + now rewrite String.eqb_refl.
    + now rewrite E.
Qed.

Lemma get_own_set_own_neq (fields : list (string * value)) (k k' : string) (v : value) :
  k <> k' -> get_own (set_own fields k v) k' = get_own fields k'.
Proof.
  intro Hne. induction fields as [|[k0 v0] r IH]; simpl.
  - apply String.eqb_neq in Hne. now rewrite Hne.
  - destruct (String.eqb k0 k) eqn:E; simpl.
    + apply String.eqb_eq in E. subst k0.
      apply String.eqb_neq in Hne. now rewrite Hne.
    + destruct (String.eqb k0 k'); [reflexivity|exact IH].
Qed.

Lemma enrich_object (env : Env) (fields : list (string * value)) :
  enrich env (VObj fields)
  = VObj (set_own fields "analysis_metadata" (analysis_metadata env)).
Proof. reflexivity. Qed.

(** A successful run returns the enrichment of a validated object. *)
Lemma run_succeeded (rt : runtime) (env : Env) (st st' : State)
  (analysis storage : value) :
  run rt env st = (Succeeded analysis storage, st') ->
  exists parsed, validateOutput parsed = Ok tt /\ analysis = enrich env parsed.
Proof.
  destruct (buildPromptData_ok rt env st) as [td [d Hb]].
  unfold run. rewrite (analyze_steps rt env st _ td Hb).
  destruct (callLLM env td) as [aiText|]; [|discriminate].
  destruct (parseJsonFromText rt aiText) as [parsed|]; [|discriminate].
  destruct (validateOutput parsed) as [[]|] eqn:Ev; [|discriminate].
  destruct (storeResult env (enrich env parsed) (with_daily d st)) as [[sto|] st2];
    [|discriminate].
  simpl. intro H. injection H as <- _ _. eauto.
Qed.

(** C9 (amended).  The analysis returned by a successful run is an object
    whose [score] is a finite number in the inclusive range 1..100 (not
    necessarily an integer), in which [analysis] and [reasoning] are
    present (of any type), whose [key_factors] is an array (of any
    elements), and which carries the run metadata. *)
Theorem analyze_result_shape (rt : runtime) (env : Env) (st st' : State)
  (analysis storage : value) :
  run rt env st = (Succeeded analysis storage, st') ->
  exists fields,
    analysis = VObj fields
    /\ Spec.score_in_range (Spec.field fields "score")
    /\ Spec.is_present fields "analysis"
    /\ Spec.is_present fields "reasoning"
    /\ isArray (Spec.field fields "key_factors") = true
    /\ Spec.field fields "analysis_metadata" = analysis_metadata env.
Proof.
  intro Hrun.
  destruct (run_succeeded rt env st st' analysis storage Hrun) as [parsed [Hv ->]].
  destruct (validateOutput_ok_object parsed Hv) as [f ->].
  apply validateOutput_ok_iff in Hv.
  destruct Hv as [Hall [Hscore Harr]].
  exists (set_own f "analysis_metadata" (analysis_metadata env)).
  split; [apply enrich_object|].
  unfold Spec.field, Spec.is_present in *.
  rewrite !get_own_set_own_neq by discriminate.
  rewrite get_own_set_own_eq.
  split; [assumption|].
  split; [apply Hall; unfold required; simpl; tauto|].
  split; [apply Hall; unfold required; simpl; tauto|].
  split; [assumption|reflexivity].
Qed.

Lemma analyze_result_shape_witness :
  exists fields,
    enrich (Examples.env_of (Examples.verdict_text "8") true Examples.add_ok)
      (VObj (Examples.verdict 8)) = VObj fields
    /\ Spec.score_in_range (Spec.field fields "score")
    /\ Spec.is_present fields "analysis"
    /\ Spec.is_present fields "reasoning"
    /\ isArray (Spec.field fields "key_factors") = true
    /\ Spec.field fields "analysis_metadata"
       = analysis_metadata
           (Examples.env_of (Examples.verdict_text "8") true Examples.add_ok).
Proof.
  apply (analyze_result_shape Reference.rt
           (Examples.env_of (Examples.verdict_text "8") true Examples.add_ok)
           Examples.state0
           (snd (run Reference.rt
                   (Examples.env_of (Examples.verdict_text "8") true Examples.add_ok)
                   Examples.state0))
           _ (VObj [("stored", VBool true); ("id", VStr "doc-1")])).
  vm_compute. reflexivity.
Defined.

(** C9, as stated, fails: a verdict whose score is 1.5, whose analysis is
    a number, whose reasoning is null and whose key factors are numbers
    passes [validateOutput], and the run returns it. *)
Lemma analyze_result_shape_counterexample :
  fst (run Reference.rt
         (Examples.env_of Examples.text_loose_verdict true Examples.add_ok)
         Examples.state0)
    = Succeeded Examples.loose_analysis
        (VObj [("stored", VBool true); ("id", VStr "doc-1")])
  /\ Spec.is_AssessmentResult Examples.loose_analysis = false.
Proof.
  split; vm_compute; reflexivity.
Qed.

(* ================================================================== *)
(** * Further properties of the code *)
(* ================================================================== *)

(** ** The daily closes cache, continued *)

(** A read that finds a series does not refresh: the provider is not
    asked and the cache is left as it is.  And when a read has returned a
    series that is not empty, a read of the same symbol made in the cache
    it left returns that series again and leaves the cache as it is,
    whatever the provider would answer.  (A refresh made in between, by a
    read of a symbol whose series is empty, replaces the series.) *)
Theorem getCachedDailyCloses_cached_reads (rt : runtime) (symbol : value)
  (c : DailyClosesCache) :
  (cache_get (cache_key symbol) c <> [] ->
   forall fetch now,
     getCachedDailyCloses rt fetch now symbol c
     = (Ok (cache_get (cache_key symbol) c), c))
  /\ (forall fetch now l c',
        getCachedDailyCloses rt fetch now symbol c = (Ok l, c') ->
        l <> [] ->
        forall fetch' now',
          getCachedDailyCloses rt fetch' now' symbol c' = (Ok l, c')).
Proof.
  assert (Hhit : forall c0, cache_get (cache_key symbol) c0 <> [] ->
                 forall fetch now,
                   getCachedDailyCloses rt fetch now symbol c0
                   = (Ok (cache_get (cache_key symbol) c0), c0)).
  { intros c0 Hne fetch now. rewrite getCachedDailyCloses_result.
    destruct (cache_get (cache_key symbol) c0); [contradiction|reflexivity]. }
  split; [apply Hhit|].
  intros fetch now l c' Hget Hne fetch' now'.
  rewrite getCachedDailyCloses_result in Hget.
  destruct (Nat.ltb 0 (List.length (cache_get (cache_key symbol) c)));
    injection Hget as <- <-; now apply Hhit.
Qed.

Lemma getCachedDailyCloses_cached_reads_witness :
  getCachedDailyCloses Reference.rt Examples.fetch_down 0 (VStr "bitcoin")
    Inputs.cache_bitcoin_only
    = (Ok [Examples.point 0 7], Inputs.cache_bitcoin_only)
  /\ (forall fetch' now',
        getCachedDailyCloses Reference.rt fetch' now' (VStr "ethereum")
          (snd (getCachedDailyCloses Reference.rt Examples.fetch_distinct 5
                  (VStr "ethereum") Inputs.cache_bitcoin_only))
        = (Ok [Examples.point 1 10; Examples.point 2 30; Examples.point 3 20],
           snd (getCachedDailyCloses Reference.rt Examples.fetch_distinct 5
                  (VStr "ethereum") Inputs.cache_bitcoin_only))).
Proof.
  split.
  - apply (proj1 (getCachedDailyCloses_cached_reads Reference.rt (VStr "bitcoin")
                    Inputs.cache_bitcoin_only)).
    discriminate.
  - apply (proj2 (getCachedDailyCloses_cached_reads Reference.rt (VStr "ethereum")
                    Inputs.cache_bitcoin_only) Examples.fetch_distinct 5%Z).
    + vm_compute. reflexivity.
    + discriminate.
Defined.

Lemma cache_set_set (k : asset) (l : list DailyClosePoint) (c : DailyClosesCache) :
  cache_set k l (cache_set k l c) = cache_set k l c.
Proof. destruct k; reflexivity. Qed.

(** Refreshing twice with the same answers of the provider leaves the
    cache as refreshing once does, whether the refresh succeeds, fails, or
    stops half-way. *)
Theorem refreshDailyClosesCache_idempotent (rt : runtime)
  (fetch : asset -> result value) (now : Z) (c : DailyClosesCache) :
  snd (refreshDailyClosesCache rt fetch now
         (snd (refreshDailyClosesCache rt fetch now c)))
  = snd (refreshDailyClosesCache rt fetch now c).
Proof.
  rewrite !refreshDailyClosesCache_refreshed. simpl. unfold refreshed.
  destruct (promise_all3 (fetch Bitcoin) (fetch Ethereum) (fetch Solana))
    as [[[b e] s]|x]; [|reflexivity].
  destruct (mapDailyClose rt (opt_prop b "data")) as [lb|]; [|reflexivity].
  destruct (mapDailyClose rt (opt_prop e "data")) as [le|];
    [|destruct c; reflexivity].
  destruct (mapDailyClose rt (opt_prop s "data")) as [ls|];
    destruct c; reflexivity.
Qed.

Lemma map_result_throws {A B : Type} (f : A -> result B) (l : list A) (e : exn) :
  (forall x e', f x = Throw e' -> e' = e) ->
  Exists (fun x => exists e', f x = Throw e') l ->
  map_result f l = Throw e.
Proof.
  intros Hf H. induction l as [|x l IH]; [inversion H|].
  simpl. destruct (f x) as [y|e'] eqn:E; simpl.
  - inversion H as [? ? [e'' Hx]|? ? Hl]; subst; [congruence|].
    now rewrite (IH Hl).
  - now rewrite (Hf x e' E).
Qed.

Lemma normalize_point_throws (d : value) :
  (nullish d = true -> normalize_point d = Throw JsTypeError)
  /\ (nullish d = false -> exists p, normalize_point d = Ok p).
Proof.
  split; intro H; destruct d; try discriminate; try reflexivity;
    eexists; reflexivity.
Qed.

Lemma sort_by_timestamp_ok_iff (rt : runtime) (l : list DailyClosePoint) :
  (exists sorted, sort_by_timestamp rt l = Ok sorted)
  <-> (List.length l <= 1 \/ Forall (fun p => converts (timestamp p) = true) l).
Proof.
  split.
  - intros [sorted H].
    destruct l as [|a [|b l]]; [left; cbn; lia..|]. right.
    unfold sort_by_timestamp in H.
    destruct (map_result _ (a :: b :: l)) as [keys|] eqn:Ek; [|discriminate H].
    apply map_result_Forall2 in Ek. clear H.
    induction Ek as [|p k ps ks Hp _ IH]; constructor; [|exact IH].
    pose proof (ToNumber_converts rt (timestamp p)) as Hc.
    destruct (converts (timestamp p)); [reflexivity|congruence].
  - intros [H|H]; [|now apply sort_by_timestamp_converts].
    destruct l as [|a [|b l]]; [cbn; eauto..|cbn in H; lia].
Qed.

Lemma normalize_all (elems : list value) :
  Forall (fun d => nullish d = false) elems ->
  exists mapped, map_result normalize_point elems = Ok mapped.
Proof.
  induction 1 as [|d ds Hd _ [mapped IH]]; [cbn; eauto|].
  cbn. rewrite IH. destruct d; try discriminate; cbn; eauto.
Qed.

(** When [mapDailyClose] throws.  A missing or falsy [data] is an empty
    series.  Anything truthy that is not an array (an object, a text, a
    number) has no [map] and throws a type error, as an array one of whose
    elements is [null] or [undefined] does.  An array without such
    elements normalizes exactly when at most one of its points has a close
    that is a finite number, the comparator of the sort being then not
    called, or when the timestamps of these points convert to numbers;
    otherwise the sort throws a type error. *)
Theorem mapDailyClose_succeeds_iff (rt : runtime) (arr : value) :
  (truthy arr = false -> mapDailyClose rt arr = Ok [])
  /\ (forall elems, arr = VArr elems ->
        Forall (fun d => nullish d = false) elems ->
        exists mapped,
          Forall2 (fun d p => normalize_point d = Ok p) elems mapped
          /\ ((List.length (filter finite_close mapped) <= 1
               \/ Forall (fun p => converts (timestamp p) = true)
                    (filter finite_close mapped)) ->
              exists l, mapDailyClose rt arr = Ok l)
          /\ (2 <= List.length (filter finite_close mapped) ->
              Exists (fun p => converts (timestamp p) = false)
                (filter finite_close mapped) ->
              mapDailyClose rt arr = Throw JsTypeError))
  /\ (forall elems, arr = VArr elems ->
        Exists (fun d => nullish d = true) elems ->
        mapDailyClose rt arr = Throw JsTypeError)
  /\ (truthy arr = true -> isArray arr = false ->
        mapDailyClose rt arr = Throw JsTypeError).
Proof.
  split; [|split; [|split]].
  - intro H. unfold mapDailyClose, or_else. rewrite H. reflexivity.
  - intros elems -> H. destruct (normalize_all elems H) as [mapped Hm].
    exists mapped. split; [now apply map_result_Forall2|].
    unfold mapDailyClose. cbn [or_else truthy]. rewrite Hm. cbn [bind].
    fold finite_close.
    change (filter (fun d => Number_isFinite (close d)) mapped)
      with (filter finite_close mapped).
    split.
    + intro Hok. apply (sort_by_timestamp_ok_iff rt) in Hok.
      destruct Hok as [sorted ->]. cbn. eauto.
    + intros Hlen Hex.
      destruct (sort_by_timestamp rt (filter finite_close mapped))
        as [sorted|e] eqn:Es.
      * exfalso.
        assert (Hok : exists sorted, sort_by_timestamp rt (filter finite_close mapped)
                                     = Ok sorted) by eauto.
        apply sort_by_timestamp_ok_iff in Hok. destruct Hok as [Hle|Hall]; [lia|].
        apply Exists_exists in Hex. destruct Hex as [p [Hin Hp]].
        rewrite Forall_forall in Hall. rewrite (Hall p Hin) in Hp. discriminate Hp.
      * destruct (sort_by_timestamp_throws rt _ e Es) as [-> _]. reflexivity.
  - intros elems -> H. unfold mapDailyClose. simpl.
    rewrite (map_result_throws normalize_point elems JsTypeError); [reflexivity| |].
    + intros x e' Hx. destruct (nullish x) eqn:En.
      * rewrite (proj1 (normalize_point_throws x) En) in Hx. now injection Hx.
      * destruct (proj2 (normalize_point_throws x) En) as [p Hp]. congruence.
    + eapply Exists_impl; [|exact H]. intros d Hd.
      exists JsTypeError. now apply normalize_point_throws.
  - intros Ht Ha. unfold mapDailyClose, or_else. rewrite Ht.
    destruct arr; try reflexivity; discriminate.
Qed.

Lemma mapDailyClose_succeeds_iff_witness :
  mapDailyClose Reference.rt VUndef = Ok []
  /\ (exists l, mapDailyClose Reference.rt (VArr Inputs.raw_days) = Ok l)
  /\ (exists l, mapDailyClose Reference.rt (VArr [Inputs.raw_opaque]) = Ok l)
  /\ mapDailyClose Reference.rt (VArr [Examples.raw_point 1 10; Inputs.raw_opaque])
     = Throw JsTypeError
  /\ mapDailyClose Reference.rt (VArr [Examples.raw_point 1 10; VNull])
     = Throw JsTypeError
  /\ mapDailyClose Reference.rt (VObj [("error", VStr "rate limited")])
     = Throw JsTypeError.
Proof.
  split; [|split; [|split; [|split; [|split]]]].
  - apply (proj1 (mapDailyClose_succeeds_iff Reference.rt VUndef)). reflexivity.
  - destruct (proj1 (proj2 (mapDailyClose_succeeds_iff Reference.rt
                              (VArr Inputs.raw_days)))
                Inputs.raw_days eq_refl ltac:(repeat constructor))
      as [mapped [Hm [Hok _]]].
    apply Hok. right.
    assert (Hmapped : map_result normalize_point Inputs.raw_days = Ok mapped)
      by now apply map_result_ok_iff.
    vm_compute in Hmapped. injection Hmapped as <-.
    vm_compute. repeat constructor.
  - destruct (proj1 (proj2 (mapDailyClose_succeeds_iff Reference.rt
                              (VArr [Inputs.raw_opaque])))
                [Inputs.raw_opaque] eq_refl ltac:(repeat constructor))
      as [mapped [Hm [Hok _]]].
    apply Hok. left.
    assert (Hmapped : map_result normalize_point [Inputs.raw_opaque] = Ok mapped)
      by now apply map_result_ok_iff.
    vm_compute in Hmapped. injection Hmapped as <-.
    vm_compute. lia.
  - destruct (proj1 (proj2 (mapDailyClose_succeeds_iff Reference.rt
                              (VArr [Examples.raw_point 1 10; Inputs.raw_opaque])))
                [Examples.raw_point 1 10; Inputs.raw_opaque] eq_refl
                ltac:(repeat constructor))
      as [mapped [Hm [_ Hthrow]]].
    assert (Hmapped : map_result normalize_point
                        [Examples.raw_point 1 10; Inputs.raw_opaque] = Ok mapped)
      by now apply map_result_ok_iff.
    vm_compute in Hmapped. injection Hmapped as <-.
    apply Hthrow; [vm_compute; lia|].
    apply Exists_cons_tl, Exists_cons_hd. reflexivity.
  - apply (proj1 (proj2 (proj2 (mapDailyClose_succeeds_iff Reference.rt
                                   (VArr [Examples.raw_point 1 10; VNull]))))
             [Examples.raw_point 1 10; VNull]); [reflexivity|].
    apply Exists_cons_tl. apply Exists_cons_hd. reflexivity.
  - apply (proj2 (proj2 (proj2 (mapDailyClose_succeeds_iff Reference.rt
                                   (VObj [("error", VStr "rate limited")])))));
      reflexivity.
Defined.

Lemma mapDailyClose_array (rt : runtime) (elems : list value)
  (l : list DailyClosePoint) :
  mapDailyClose rt (VArr elems) = Ok l ->
  exists mapped sorted,
    Forall2 (fun d p => normalize_point d = Ok p) elems mapped
    /\ sort_by_timestamp rt (filter finite_close mapped) = Ok sorted
    /\ l = lastn DAILY_CAP sorted.
Proof.
  unfold mapDailyClose. simpl.
  destruct (map_result normalize_point elems) as [mapped|] eqn:Em; simpl;
    [|discriminate].
  fold finite_close.
  change (filter (fun d => Number_isFinite (close d)) mapped)
    with (filter finite_close mapped).
  destruct (sort_by_timestamp rt (filter finite_close mapped)) as [sorted|] eqn:Es;
    simpl; [|discriminate].
  intro H. injection H as <-. exists mapped, sorted.
  split; [now apply map_result_Forall2|]. split; [exact Es|reflexivity].
Qed.

Lemma normalized_timed (elems : list value) (mapped : list DailyClosePoint) :
  Forall2 (fun d p => normalize_point d = Ok p) elems mapped ->
  elems_timed elems -> Forall ts_finite mapped.
Proof.
  unfold elems_timed. induction 1 as [|d p ds ps Hd _ IH]; intro H; [constructor|].
  inversion H as [|? ? [q Hq] H']; subst.
  constructor; [|now apply IH].
  exists q. now rewrite (normalize_point_timestamp d p Hd).
Qed.

(** On timestamps that are finite numbers, the series is the last 900 of
    the stable sort. *)
Lemma mapDailyClose_timed (rt : runtime) (elems : list value)
  (l : list DailyClosePoint) :
  mapDailyClose rt (VArr elems) = Ok l ->
  elems_timed elems ->
  exists mapped,
    Forall2 (fun d p => normalize_point d = Ok p) elems mapped
    /\ l = lastn DAILY_CAP (js_sort (by_timestamp_gt rt) (filter finite_close mapped)).
Proof.
  intros H Ht.
  destruct (mapDailyClose_array rt elems l H) as [mapped [sorted [Hm [Hs ->]]]].
  exists mapped. split; [exact Hm|].
  rewrite sort_by_timestamp_finite in Hs; [now injection Hs as <-|].
  pose proof (normalized_timed elems mapped Hm Ht) as Hfin.
  apply Forall_forall. intros p Hp. apply filter_In in Hp.
  rewrite Forall_forall in Hfin. now apply Hfin.
Qed.

Lemma StronglySorted_app_between {A : Type} (R : A -> A -> Prop) (l1 l2 : list A) :
  StronglySorted R (l1 ++ l2) ->
  forall a b, In a l1 -> In b l2 -> R a b.
Proof.
  induction l1 as [|x l1 IH]; simpl; intros H a b Ha Hb; [contradiction|].
  inversion H as [|? ? Hs Hx]; subst.
  destruct Ha as [<-|Ha].
  - rewrite Forall_forall in Hx. apply Hx. apply in_or_app. now right.
  - now apply IH.
Qed.

(** What the cap drops.  The series [mapDailyClose] returns, together with
    the points it drops, is exactly the normalized points of the answer
    whose close is a finite number: no point is invented and none is lost
    below the cap of 900.  When the timestamps are finite numbers the
    points dropped are the oldest: none of them is after a point kept. *)
Theorem mapDailyClose_keeps_latest (rt : runtime) (elems : list value)
  (l : list DailyClosePoint) :
  mapDailyClose rt (VArr elems) = Ok l ->
  exists mapped dropped,
    Forall2 (fun d p => normalize_point d = Ok p) elems mapped
    /\ Permutation (dropped ++ l) (filter finite_close mapped)
    /\ List.length dropped = List.length (filter finite_close mapped) - 900
    /\ (elems_timed elems -> forall a b, In a dropped -> In b l -> ts_le a b).
Proof.
  intro H.
  destruct (mapDailyClose_array rt elems l H) as [mapped [S [Hm [Hs ->]]]].
  set (F := filter finite_close mapped) in *.
  pose proof (sort_by_timestamp_perm rt F S Hs) as Hperm.
  exists mapped, (firstn (List.length S - DAILY_CAP) S).
  split; [exact Hm|].
  assert (Hsplit : firstn (List.length S - DAILY_CAP) S ++ lastn DAILY_CAP S = S).
  { symmetry. apply lastn_suffix. }
  split; [rewrite Hsplit; symmetry; exact Hperm|].
  split.
  - assert (HS : List.length S = List.length F).
    { symmetry. now apply Permutation_length. }
    rewrite length_firstn, HS. unfold DAILY_CAP, F. lia.
  - intros Ht a b Ha Hb.
    apply (StronglySorted_app_between ts_le
             (firstn (List.length S - DAILY_CAP) S) (lastn DAILY_CAP S));
      [|assumption|assumption].
    rewrite Hsplit.
    assert (Hfin : Forall ts_finite F).
    { pose proof (normalized_timed elems mapped Hm Ht) as Hfin.
      apply Forall_forall. intros p Hp. apply filter_In in Hp.
      rewrite Forall_forall in Hfin. now apply Hfin. }
    rewrite (sort_by_timestamp_finite rt F Hfin) in Hs. injection Hs as <-.
    now apply js_sort_sorted.
Qed.

Lemma raw_days_timed : elems_timed Inputs.raw_days.
Proof. repeat constructor; eexists; reflexivity. Qed.

Lemma mapDailyClose_keeps_latest_witness :
  exists mapped dropped,
    Forall2 (fun d p => normalize_point d = Ok p) Inputs.raw_days mapped
    /\ Permutation (dropped ++ Inputs.days) (filter finite_close mapped)
    /\ List.length dropped = List.length (filter finite_close mapped) - 900
    /\ (forall a b, In a dropped -> In b Inputs.days -> ts_le a b).
Proof.
  destruct (mapDailyClose_keeps_latest Reference.rt Inputs.raw_days Inputs.days)
    as [mapped [dropped [H1 [H2 [H3 H4]]]]].
  - vm_compute. reflexivity.
  - exists mapped, dropped.
    split; [exact H1|]. split; [exact H2|]. split; [exact H3|].
    apply H4. exact raw_days_timed.
Defined.

Lemma sort_insert_filter_ts (rt : runtime) (q : Q) (x : DailyClosePoint)
  (l : list DailyClosePoint) :
  ts_finite x -> Forall ts_finite l ->
  filter (has_ts q) (sort_insert (by_timestamp_gt rt) x l)
  = filter (has_ts q) (x :: l).
Proof.
  intros [qx Hx] Hl. induction l as [|y r IH]; [reflexivity|].
  inversion Hl as [|? ? [qy Hy] Hr]; subst.
  cbn [sort_insert].
  destruct (by_timestamp_gt rt x y) eqn:E; [|reflexivity].
  apply (proj1 (by_timestamp_gt_finite rt x y qx qy Hx Hy)) in E.
  cbn [filter]. rewrite (IH Hr). cbn [filter].
  destruct (has_ts q x) eqn:Px; [|reflexivity].
  destruct (has_ts q y) eqn:Py; [|reflexivity].
  exfalso. unfold has_ts in Px, Py. rewrite Hx in Px. rewrite Hy in Py.
  apply Qeq_bool_iff in Px. apply Qeq_bool_iff in Py.
  apply (Qlt_irrefl qx). rewrite Px at 1. rewrite <- Py. exact E.
Qed.

Lemma js_sort_filter_ts (rt : runtime) (q : Q) (l : list DailyClosePoint) :
  Forall ts_finite l ->
  filter (has_ts q) (js_sort (by_timestamp_gt rt) l) = filter (has_ts q) l.
Proof.
  induction l as [|x r IH]; intro H; [reflexivity|].
  inversion H as [|? ? Hx Hr]; subst. cbn [js_sort].
  rewrite sort_insert_filter_ts; [|assumption|].
  - cbn [filter]. now rewrite (IH Hr).
  - now apply (Permutation_Forall (js_sort_perm _ r)).
Qed.

(** Ties keep the order of the provider.  When the timestamps are finite
    numbers, the points of the returned series that carry a given
    timestamp are, in the same order, the last of the points of the answer
    with a finite close that carry it (all of them below the cap). *)
Theorem mapDailyClose_ties_keep_order (rt : runtime) (elems : list value)
  (l : list DailyClosePoint) (q : Q) :
  mapDailyClose rt (VArr elems) = Ok l ->
  elems_timed elems ->
  exists mapped earlier,
    Forall2 (fun d p => normalize_point d = Ok p) elems mapped
    /\ filter (has_ts q) (filter finite_close mapped)
       = earlier ++ filter (has_ts q) l
    /\ (List.length (filter finite_close mapped) <= 900 -> earlier = []).
Proof.
  intros H Ht. destruct (mapDailyClose_timed rt elems l H Ht) as [mapped [Hm ->]].
  set (F := filter finite_close mapped).
  set (S := js_sort (by_timestamp_gt rt) F).
  exists mapped, (filter (has_ts q) (firstn (List.length S - DAILY_CAP) S)).
  split; [exact Hm|].
  assert (HF : Forall ts_finite F).
  { pose proof (normalized_timed elems mapped Hm Ht) as Hfin.
    apply Forall_forall. intros p Hp. apply filter_In in Hp.
    rewrite Forall_forall in Hfin. now apply Hfin. }
  split.
  - rewrite <- filter_app, <- lastn_suffix. symmetry. now apply js_sort_filter_ts.
  - intro Hlen.
    assert (HS : List.length S = List.length F).
    { symmetry. apply Permutation_length, js_sort_perm. }
    assert (E : List.length S - DAILY_CAP = 0).
    { rewrite HS. unfold DAILY_CAP, F. lia. }
    rewrite E. reflexivity.
Qed.

Lemma mapDailyClose_ties_keep_order_witness :
  exists mapped earlier,
    Forall2 (fun d p => normalize_point d = Ok p) Inputs.raw_days mapped
    /\ filter (has_ts 1) (filter finite_close mapped)
       = earlier ++ filter (has_ts 1) Inputs.days
    /\ (List.length (filter finite_close mapped) <= 900 -> earlier = []).
Proof.
  apply (mapDailyClose_ties_keep_order Reference.rt Inputs.raw_days Inputs.days 1).
  - vm_compute. reflexivity.
  - exact raw_days_timed.
Defined.

Lemma normalize_point_value (p : DailyClosePoint) :
  nullish (close p) = false -> normalize_point (point_value p) = Ok p.
Proof.
  intro H. destruct p as [t c]. simpl in H.
  unfold normalize_point, point_value. simpl.
  unfold coalesce. simpl. rewrite !H. reflexivity.
Qed.

Lemma sort_insert_sorted_head (rt : runtime) (x : DailyClosePoint)
  (l : list DailyClosePoint) :
  Forall (ts_le x) l -> sort_insert (by_timestamp_gt rt) x l = x :: l.
Proof.
  intro H. destruct l as [|y r]; [reflexivity|].
  inversion H as [|? ? [qx [qy [Hx [Hy Hle]]]] _]; subst. cbn [sort_insert].
  now rewrite (proj2 (proj2 (by_timestamp_gt_finite rt x y qx qy Hx Hy)) Hle).
Qed.

Lemma js_sort_sorted_id (rt : runtime) (l : list DailyClosePoint) :
  StronglySorted ts_le l -> js_sort (by_timestamp_gt rt) l = l.
Proof.
  induction 1 as [|x l Hs IH Hx]; [reflexivity|].
  cbn [js_sort]. rewrite IH. now apply sort_insert_sorted_head.
Qed.

Lemma sort_by_timestamp_sorted_id (rt : runtime) (l : list DailyClosePoint) :
  StronglySorted ts_le l -> sort_by_timestamp rt l = Ok l.
Proof.
  intro Hs. destruct l as [|a [|b r]]; [reflexivity..|].
  assert (Hfin : Forall ts_finite (a :: b :: r)).
  { inversion Hs as [|? ? _ Ha]; subst.
    inversion Ha as [|? ? [qa [qb [Ea [Eb _]]]] _]; subst.
    constructor; [now exists qa|].
    eapply Forall_impl; [|exact Ha].
    intros y [qa' [qy [_ [Ey _]]]]. now exists qy. }
  rewrite (sort_by_timestamp_finite rt _ Hfin). f_equal.
  now apply js_sort_sorted_id.
Qed.

(** A series [mapDailyClose] returned is in normal form: given back as the
    points of an answer, it normalizes to itself (when the timestamps of
    the answer it came from are finite numbers). *)
Theorem mapDailyClose_normal_form (rt : runtime) (arr : value)
  (l : list DailyClosePoint) :
  mapDailyClose rt arr = Ok l ->
  (forall elems, arr = VArr elems -> elems_timed elems) ->
  mapDailyClose rt (VArr (map point_value l)) = Ok l.
Proof.
  intros H Ht.
  destruct (mapDailyClose_series rt arr l H) as [Hlen [Hfin Hs]].
  destruct (Hs Ht) as [Hsorted _].
  unfold mapDailyClose. simpl.
  assert (Hm : map_result normalize_point (map point_value l) = Ok l).
  { clear - Hfin. induction Hfin as [|p r [q Hp] _ IH]; [reflexivity|].
    cbn [map map_result]. rewrite normalize_point_value; [|now rewrite Hp].
    cbn [bind]. now rewrite IH. }
  rewrite Hm. cbn [bind].
  assert (Hf : filter (fun d => Number_isFinite (close d)) l = l).
  { clear - Hfin. induction Hfin as [|p r [q Hp] _ IH]; [reflexivity|].
    simpl. rewrite Hp. simpl. now rewrite IH. }
  rewrite Hf, (sort_by_timestamp_sorted_id rt l Hsorted). cbn [bind]. f_equal.
  unfold lastn. replace (List.length l - DAILY_CAP) with 0; [reflexivity|].
  unfold DAILY_CAP. lia.
Qed.

Lemma mapDailyClose_normal_form_witness :
  mapDailyClose Reference.rt (VArr (map point_value Inputs.days)) = Ok Inputs.days.
Proof.
  apply (mapDailyClose_normal_form Reference.rt (VArr Inputs.raw_days) Inputs.days).
  - vm_compute. reflexivity.
  - intros elems H. injection H as <-. exact raw_days_timed.
Defined.

(** ** The template data *)

Lemma getCachedDailyCloses_reach (rt : runtime) (P : value -> Prop)
  (fetch : asset -> result value) (now : Z) (symbol : value)
  (c : DailyClosesCache) :
  reachable rt P c ->
  (forall k body, fetch k = Ok body -> P body) ->
  exists l c',
    getCachedDailyCloses rt fetch now symbol c = (Ok l, c')
    /\ reachable rt P c'
    /\ l = cache_get (cache_key symbol) c'.
Proof.
  intros Hr HP. rewrite getCachedDailyCloses_result.
  destruct (Nat.ltb 0 (List.length (cache_get (cache_key symbol) c))).
  - exists (cache_get (cache_key symbol) c), c. auto.
  - exists (cache_get (cache_key symbol) (refreshed rt fetch now c)),
      (refreshed rt fetch now c).
    split; [reflexivity|]. split; [|reflexivity].
    pose proof (reachable_refresh rt P fetch now c HP Hr) as H.
    now rewrite refreshDailyClosesCache_refreshed in H.
Qed.

Lemma getCachedDailyCloses_ok (rt : runtime) (fetch : asset -> result value)
  (now : Z) (symbol : value) (c : DailyClosesCache) :
  exists l c', getCachedDailyCloses rt fetch now symbol c = (Ok l, c').
Proof.
  rewrite getCachedDailyCloses_result.
  destruct (Nat.ltb 0 _); eexists _, _; reflexivity.
Qed.

(** The object [buildPromptData] builds, with the three reads of the cache
    it makes. *)
Lemma buildPromptData_reads (rt : runtime) (env : Env) (st : State) :
  exists lb cb le ce ls cs,
    getCachedDailyCloses rt (fetch_daily env 0) (refresh_now env) (VStr "bitcoin")
      (daily st) = (Ok lb, cb)
    /\ getCachedDailyCloses rt (fetch_daily env 1) (refresh_now env) (VStr "ethereum")
         cb = (Ok le, ce)
    /\ getCachedDailyCloses rt (fetch_daily env 2) (refresh_now env) (VStr "solana")
         ce = (Ok ls, cs)
    /\ buildPromptData rt env st
       = (Ok (VObj
            [("timestamp", VStr (build_iso env));
             ("bull_market_peak_indicators",
                VStr (generateBullPeakSummary rt (BULL_PEAK env)));
             ("bull_market_peak_raw",
                or_else (latest_after (BULL_PEAK env) (snapshots env))
                  (VObj [("note", VStr "no_bull_peak_data")]));
             ("bitcoin_recent_minutes_24h",
                VStr (formatSeriesForPrompt rt
                        (recent_window (catch_with (fetch_minute env Bitcoin) VNull))
                        "btc24"));
             ("bitcoin_daily_900d_close", VStr (stringify_daily rt lb));
             ("ethereum_recent_minutes_24h",
                VStr (formatSeriesForPrompt rt
                        (recent_window (catch_with (fetch_minute env Ethereum) VNull))
                        "eth24"));
             ("ethereum_daily_900d_close", VStr (stringify_daily rt le));
             ("solana_recent_minutes_24h",
                VStr (formatSeriesForPrompt rt
                        (recent_window (catch_with (fetch_minute env Solana) VNull))
                        "sol24"));
             ("solana_daily_900d_close", VStr (stringify_daily rt ls))]),
          with_daily cs st).
Proof.
  destruct (getCachedDailyCloses_ok rt (fetch_daily env 0) (refresh_now env)
              (VStr "bitcoin") (daily st)) as [lb [cb Eb]].
  destruct (getCachedDailyCloses_ok rt (fetch_daily env 1) (refresh_now env)
              (VStr "ethereum") cb) as [le [ce Ee]].
  destruct (getCachedDailyCloses_ok rt (fetch_daily env 2) (refresh_now env)
              (VStr "solana") ce) as [ls [cs Es]].
  exists lb, cb, le, ce, ls, cs.
  split; [exact Eb|]. split; [exact Ee|]. split; [exact Es|].
  unfold buildPromptData, fetchCryptoMinuteSeries, bindM, on_cache, ret.
  rewrite Eb. cbn [daily with_daily]. rewrite Ee. cbn [daily with_daily].
  rewrite Es. reflexivity.
Qed.

(** The shape of the template data.  [buildPromptData] never throws,
    whatever fails underneath: it returns an object with the same nine
    keys in the same order, all texts but the raw snapshot; the summary is
    the one of the latest document when it is summarized, and the raw
    snapshot is the latest document when the object is built, or the
    placeholder [{note: no_bull_peak_data}] when there is none.  Of the
    state it touches the cache only. *)
Theorem buildPromptData_shape (rt : runtime) (env : Env) (st : State) :
  exists fields st',
    buildPromptData rt env st = (Ok (VObj fields), st')
    /\ map fst fields = PAYLOAD_KEYS
    /\ (forall k v, In (k, v) fields ->
          k = "bull_market_peak_raw" \/ isString v = true)
    /\ get_own fields "timestamp" = Some (VStr (build_iso env))
    /\ get_own fields "bull_market_peak_indicators"
       = Some (VStr (generateBullPeakSummary rt (BULL_PEAK env)))
    /\ get_own fields "bull_market_peak_raw"
       = Some (if truthy (latest_after (BULL_PEAK env) (snapshots env))
               then latest_after (BULL_PEAK env) (snapshots env)
               else VObj [("note", VStr "no_bull_peak_data")])
    /\ collection st' = collection st
    /\ storeResult_calls st' = storeResult_calls st.
Proof.
  destruct (buildPromptData_reads rt env st)
    as [lb [cb [le [ce [ls [cs [_ [_ [_ H]]]]]]]]].
  eexists _, _. split; [exact H|].
  split; [reflexivity|]. split.
  - intros k v Hin. simpl in Hin.
    repeat (destruct Hin as [Hin|Hin];
            [injection Hin as <- <-; (now left) || (now right)|]).
    contradiction.
  - repeat split.
Qed.

(** The recent window of an asset in the template data depends on the
    request of that asset only.  A failed request gives the marker
    [insufficient_<label>_data].  In an answer, an array under [prices] is
    the window, even an empty one and even when [data] holds points;
    without [prices], an array under [data] is; a bare array is itself. *)
Theorem buildPromptData_recent_minutes (rt : runtime) (env : Env) (st : State)
  (k : asset) :
  (forall e, fetch_minute env k = Throw e ->
     returned_field (buildPromptData rt env st) (minute_key k)
     = VStr ("insufficient_" ++ minute_label k ++ "_data"))
  /\ (forall body prices,
        fetch_minute env k = Ok body -> opt_prop body "prices" = VArr prices ->
        returned_field (buildPromptData rt env st) (minute_key k)
        = VStr (formatSeriesForPrompt rt (VArr prices) (minute_label k)))
  /\ (forall body data,
        fetch_minute env k = Ok body ->
        truthy (opt_prop body "prices") = false ->
        opt_prop body "data" = VArr data ->
        returned_field (buildPromptData rt env st) (minute_key k)
        = VStr (formatSeriesForPrompt rt (VArr data) (minute_label k)))
  /\ (forall elems,
        fetch_minute env k = Ok (VArr elems) ->
        returned_field (buildPromptData rt env st) (minute_key k)
        = VStr (formatSeriesForPrompt rt (VArr elems) (minute_label k))).
Proof.
  destruct (buildPromptData_reads rt env st)
    as [lb [cb [le [ce [ls [cs [_ [_ [_ H]]]]]]]]].
  unfold returned_field. rewrite H. cbn [fst].
  assert (Hf : opt_prop
                 (VObj
                    [("timestamp", VStr (build_iso env));
                     ("bull_market_peak_indicators",
                        VStr (generateBullPeakSummary rt (BULL_PEAK env)));
                     ("bull_market_peak_raw",
                        or_else (latest_after (BULL_PEAK env) (snapshots env))
                          (VObj [("note", VStr "no_bull_peak_data")]));
                     ("bitcoin_recent_minutes_24h",
                        VStr (formatSeriesForPrompt rt
                                (recent_window
                                   (catch_with (fetch_minute env Bitcoin) VNull))
                                "btc24"));
                     ("bitcoin_daily_900d_close", VStr (stringify_daily rt lb));
                     ("ethereum_recent_minutes_24h",
                        VStr (formatSeriesForPrompt rt
                                (recent_window
                                   (catch_with (fetch_minute env Ethereum) VNull))
                                "eth24"));
                     ("ethereum_daily_900d_close", VStr (stringify_daily rt le));
                     ("solana_recent_minutes_24h",
                        VStr (formatSeriesForPrompt rt
                                (recent_window
                                   (catch_with (fetch_minute env Solana) VNull))
                                "sol24"));
                     ("solana_daily_900d_close", VStr (stringify_daily rt ls))])
                 (minute_key k)
               = VStr (formatSeriesForPrompt rt
                         (recent_window (catch_with (fetch_minute env k) VNull))
                         (minute_label k))).
  { destruct k; reflexivity. }
  rewrite Hf. clear Hf H.
  split; [|split; [|split]].
  - intros e He. rewrite He. destruct k; reflexivity.
  - intros body prices He Hp. rewrite He. cbn [catch_with].
    unfold recent_window, or_else. rewrite Hp. reflexivity.
  - intros body data He Hp Hd. rewrite He. cbn [catch_with].
    unfold recent_window, or_else. rewrite Hp, Hd. reflexivity.
  - intros elems He. rewrite He. reflexivity.
Qed.

Lemma buildPromptData_recent_minutes_witness :
  returned_field (buildPromptData Reference.rt Inputs.env_minutes Examples.state0)
    "bitcoin_recent_minutes_24h" = VStr "insufficient_btc24_data"
  /\ returned_field (buildPromptData Reference.rt Inputs.env_minutes Examples.state0)
       "ethereum_recent_minutes_24h"
     = VStr (formatSeriesForPrompt Reference.rt (VArr []) "eth24")
  /\ returned_field (buildPromptData Reference.rt Inputs.env_minutes Examples.state0)
       "solana_recent_minutes_24h"
     = VStr (formatSeriesForPrompt Reference.rt (VArr Examples.minutes) "sol24").
Proof.
  split; [|split].
  - apply (proj1 (buildPromptData_recent_minutes Reference.rt Inputs.env_minutes
                    Examples.state0 Bitcoin)
             (Rejected "timeout of 90000ms exceeded")).
    reflexivity.
  - apply (proj1 (proj2 (buildPromptData_recent_minutes Reference.rt Inputs.env_minutes
                           Examples.state0 Ethereum))
             (VObj [("prices", VArr []); ("data", VArr Examples.minutes)]));
      reflexivity.
  - apply (proj2 (proj2 (proj2 (buildPromptData_recent_minutes Reference.rt
                                   Inputs.env_minutes Examples.state0 Solana)))).
    reflexivity.
Defined.

Lemma lastn_all {A : Type} (n : nat) (l : list A) :
  List.length l <= n -> lastn n l = l.
Proof.
  intro H. unfold lastn. replace (List.length l - n) with 0 by lia. reflexivity.
Qed.

Lemma stringify_daily_whole (rt : runtime) (l : list DailyClosePoint) :
  List.length l <= 900 ->
  stringify_daily rt l = JSON_stringify rt (VArr (map point_value l)).
Proof.
  intro H. unfold stringify_daily. now rewrite lastn_all.
Qed.

(** The daily closes in the template data.  In every state of the cache,
    each of the three daily fields is the serialization of the whole
    series read for that asset: the series the cache holds for it when
    [getCachedDailyCloses] returns, the three reads being made in the order
    bitcoin, ethereum, solana, each from the cache the one before left.
    The last-900 slice taken before serializing drops nothing, the series
    having at most 900 points, each with a finite close.  The cache is left
    as the third read left it, in one of its states. *)
Theorem buildPromptData_daily_closes (rt : runtime) (P : value -> Prop) (env : Env)
  (st : State) :
  reachable rt P (daily st) ->
  (forall n k body, fetch_daily env n k = Ok body -> P body) ->
  exists lb cb le ce ls cs,
    getCachedDailyCloses rt (fetch_daily env 0) (refresh_now env) (VStr "bitcoin")
      (daily st) = (Ok lb, cb)
    /\ getCachedDailyCloses rt (fetch_daily env 1) (refresh_now env) (VStr "ethereum")
         cb = (Ok le, ce)
    /\ getCachedDailyCloses rt (fetch_daily env 2) (refresh_now env) (VStr "solana")
         ce = (Ok ls, cs)
    /\ lb = bitcoin cb /\ le = ethereum ce /\ ls = solana cs
    /\ returned_field (buildPromptData rt env st) "bitcoin_daily_900d_close"
       = VStr (JSON_stringify rt (VArr (map point_value lb)))
    /\ returned_field (buildPromptData rt env st) "ethereum_daily_900d_close"
       = VStr (JSON_stringify rt (VArr (map point_value le)))
    /\ returned_field (buildPromptData rt env st) "solana_daily_900d_close"
       = VStr (JSON_stringify rt (VArr (map point_value ls)))
    /\ (forall l, In l [lb; le; ls] -> List.length l <= 900 /\ Forall close_finite l)
    /\ daily (snd (buildPromptData rt env st)) = cs
    /\ reachable rt P cs.
Proof.
  intros Hr HP.
  destruct (buildPromptData_reads rt env st)
    as [lb [cb [le [ce [ls [cs [Eb [Ee [Es H]]]]]]]]].
  destruct (getCachedDailyCloses_reach rt P (fetch_daily env 0) (refresh_now env)
              (VStr "bitcoin") (daily st) Hr (HP 0)) as [lb' [cb' [Eb' [Rb Lb]]]].
  rewrite Eb in Eb'. injection Eb' as <- <-.
  destruct (getCachedDailyCloses_reach rt P (fetch_daily env 1) (refresh_now env)
              (VStr "ethereum") cb Rb (HP 1)) as [le' [ce' [Ee' [Re Le]]]].
  rewrite Ee in Ee'. injection Ee' as <- <-.
  destruct (getCachedDailyCloses_reach rt P (fetch_daily env 2) (refresh_now env)
              (VStr "solana") ce Re (HP 2)) as [ls' [cs' [Es' [Rs Ls]]]].
  rewrite Es in Es'. injection Es' as <- <-.
  assert (Ib : List.length lb <= 900 /\ Forall close_finite lb).
  { rewrite Lb. destruct (reachable_inv rt P cb Rb (cache_key (VStr "bitcoin")))
      as [H1 [H2 _]]. auto. }
  assert (Ie : List.length le <= 900 /\ Forall close_finite le).
  { rewrite Le. destruct (reachable_inv rt P ce Re (cache_key (VStr "ethereum")))
      as [H1 [H2 _]]. auto. }
  assert (Is : List.length ls <= 900 /\ Forall close_finite ls).
  { rewrite Ls. destruct (reachable_inv rt P cs Rs (cache_key (VStr "solana")))
      as [H1 [H2 _]]. auto. }
  exists lb, cb, le, ce, ls, cs.
  split; [exact Eb|]. split; [exact Ee|]. split; [exact Es|].
  split; [exact Lb|]. split; [exact Le|]. split; [exact Ls|].
  unfold returned_field. rewrite H. cbn [fst snd].
  split; [simpl; now rewrite (stringify_daily_whole rt lb (proj1 Ib))|].
  split; [simpl; now rewrite (stringify_daily_whole rt le (proj1 Ie))|].
  split; [simpl; now rewrite (stringify_daily_whole rt ls (proj1 Is))|].
  split.
  - intros l [<-|[<-|[<-|[]]]]; assumption.
  - split; [reflexivity|exact Rs].
Qed.

Lemma buildPromptData_daily_closes_witness :
  exists lb cb le ce ls cs,
    getCachedDailyCloses Reference.rt (fetch_daily Inputs.env_minutes 0)
      (refresh_now Inputs.env_minutes) (VStr "bitcoin") (daily Examples.state0)
    = (Ok lb, cb)
    /\ getCachedDailyCloses Reference.rt (fetch_daily Inputs.env_minutes 1)
         (refresh_now Inputs.env_minutes) (VStr "ethereum") cb = (Ok le, ce)
    /\ getCachedDailyCloses Reference.rt (fetch_daily Inputs.env_minutes 2)
         (refresh_now Inputs.env_minutes) (VStr "solana") ce = (Ok ls, cs)
    /\ lb = bitcoin cb /\ le = ethereum ce /\ ls = solana cs
    /\ returned_field (buildPromptData Reference.rt Inputs.env_minutes Examples.state0)
         "bitcoin_daily_900d_close"
       = VStr (JSON_stringify Reference.rt (VArr (map point_value lb)))
    /\ returned_field (buildPromptData Reference.rt Inputs.env_minutes Examples.state0)
         "ethereum_daily_900d_close"
       = VStr (JSON_stringify Reference.rt (VArr (map point_value le)))
    /\ returned_field (buildPromptData Reference.rt Inputs.env_minutes Examples.state0)
         "solana_daily_900d_close"
       = VStr (JSON_stringify Reference.rt (VArr (map point_value ls)))
    /\ (forall l, In l [lb; le; ls] -> List.length l <= 900 /\ Forall close_finite l)
    /\ daily (snd (buildPromptData Reference.rt Inputs.env_minutes Examples.state0))
       = cs
    /\ reachable Reference.rt (fun _ => True) cs.
Proof.
  apply (buildPromptData_daily_closes Reference.rt (fun _ => True) Inputs.env_minutes
           Examples.state0).
  - apply reachable_initial.
  - intros n k body H. exact I.
Defined.

(** ** One pipeline run, continued *)

Lemma callLLM_content (env : Env) (td data : value) :
  api_key_configured env = true -> completion env td = Ok data ->
  callLLM env td = Ok (or_else (completion_content data) (VStr EmptyString)).
Proof.
  intros Hk Hc. unfold callLLM. rewrite Hk, Hc. reflexivity.
Qed.

Lemma storeResult_available (env : Env) (res : value) (st : State) :
  db_available env = true ->
  storeResult env res st
  = match db_add env (stored_doc env res) with
    | Ok id =>
        (Ok (VObj [("stored", VBool true); ("id", VStr id)]),
         append_doc (stored_doc env res) (log_storeResult res st))
    | Throw e => (Throw e, log_storeResult res st)
    end.
Proof.
  intro H. unfold storeResult, bindM, modify, lift, ret. rewrite H.
  cbn [negb]. fold (stored_doc env res).
  destruct (db_add env (stored_doc env res)); reflexivity.
Qed.

(** A verdict that does not validate is not stored.  When
    [validateOutput] throws, the run is reported as failed with that error,
    [storeResult] is not called and the collection is left as it was. *)
Theorem analyze_invalid_output (rt : runtime) (env : Env) (st st1 : State)
  (td aiText parsed : value) (e : exn) :
  buildPromptData rt env st = (Ok td, st1) ->
  callLLM env td = Ok aiText ->
  parseJsonFromText rt aiText = Ok parsed ->
  validateOutput parsed = Throw e ->
  run rt env st = (Failed e, st1)
  /\ storeResult_calls st1 = storeResult_calls st
  /\ collection st1 = collection st.
Proof.
  intros Hb Hc Hp Hv.
  split; [unfold run; now rewrite (analyze_steps rt env st st1 td Hb), Hc, Hp, Hv|].
  destruct (buildPromptData_state rt env st st1 td Hb). auto.
Qed.

Lemma analyze_invalid_output_witness :
  run Reference.rt (Examples.env_of (Examples.verdict_text "101") true Examples.add_ok)
    Examples.state0
  = (Failed (JsError "score must be 1..100 number"), Examples.state0).
Proof.
  pose (env := Examples.env_of (Examples.verdict_text "101") true Examples.add_ok).
  destruct (buildPromptData Reference.rt env Examples.state0) as [r st1] eqn:Hb.
  assert (Hst : st1 = Examples.state0 /\ exists td, r = Ok td).
  { vm_compute in Hb. injection Hb as <- <-. split; [reflexivity|eauto]. }
  destruct Hst as [-> [td ->]].
  apply (proj1 (analyze_invalid_output Reference.rt env Examples.state0 Examples.state0
                  td (VStr (Examples.verdict_text "101")) (VObj (Examples.verdict 101))
                  (JsError "score must be 1..100 number")
                  Hb eq_refl ltac:(vm_compute; reflexivity)
                  ltac:(vm_compute; reflexivity))).
Defined.

(** Without a credential the completion call is not made.  The run fails
    with [OpenRouter API key not configured] after the template data is
    built, whatever the completion call would answer, and nothing is
    stored. *)
Theorem analyze_without_api_key (rt : runtime) (env : Env) (st : State) :
  api_key_configured env = false ->
  fst (run rt env st) = Failed (JsError "OpenRouter API key not configured")
  /\ snd (run rt env st) = snd (buildPromptData rt env st)
  /\ collection (snd (run rt env st)) = collection st
  /\ storeResult_calls (snd (run rt env st)) = storeResult_calls st
  /\ (forall f, run rt (with_completion f env) st = run rt env st).
Proof.
  intro Hk.
  destruct (buildPromptData_ok rt env st) as [td [d Hb]].
  assert (Hrun : forall f, run rt (with_completion f env) st
                 = (Failed (JsError "OpenRouter API key not configured"),
                    with_daily d st)).
  { intro f. unfold run.
    rewrite (analyze_steps rt (with_completion f env) st (with_daily d st) td Hb).
    unfold callLLM. cbn [api_key_configured with_completion]. rewrite Hk.
    reflexivity. }
  assert (Hrun0 : run rt env st
                  = (Failed (JsError "OpenRouter API key not configured"),
                     with_daily d st)).
  { unfold run. rewrite (analyze_steps rt env st (with_daily d st) td Hb).
    unfold callLLM. rewrite Hk. reflexivity. }
  rewrite Hrun0, Hb. cbn [fst snd].
  repeat split. intro f. apply Hrun.
Qed.

Lemma analyze_without_api_key_witness :
  fst (run Reference.rt Inputs.env_minutes Examples.state0)
    = Failed (JsError "OpenRouter API key not configured")
  /\ (forall f, run Reference.rt (with_completion f Inputs.env_minutes) Examples.state0
               = run Reference.rt Inputs.env_minutes Examples.state0).
Proof.
  destruct (analyze_without_api_key Reference.rt Inputs.env_minutes Examples.state0
              eq_refl) as [H1 [_ [_ [_ H5]]]].
  split; [exact H1|exact H5].
Defined.

(** An empty completion.  When the response carries no content at the
    first choice, or content that is falsy or not a text, the run fails
    with [Empty AI response] and nothing is stored. *)
Theorem analyze_empty_content (rt : runtime) (env : Env) (st st1 : State)
  (td data : value) :
  buildPromptData rt env st = (Ok td, st1) ->
  api_key_configured env = true ->
  completion env td = Ok data ->
  truthy (completion_content data) = false
  \/ isString (completion_content data) = false ->
  run rt env st = (Failed EMPTY_RESPONSE, st1)
  /\ storeResult_calls st1 = storeResult_calls st
  /\ collection st1 = collection st.
Proof.
  intros Hb Hk Hc Hcontent.
  split; [|destruct (buildPromptData_state rt env st st1 td Hb); auto].
  unfold run. rewrite (analyze_steps rt env st st1 td Hb).
  rewrite (callLLM_content env td data Hk Hc). unfold or_else.
  destruct Hcontent as [H|H].
  - rewrite H. reflexivity.
  - destruct (truthy (completion_content data)); [|reflexivity].
    destruct (completion_content data); try reflexivity. discriminate.
Qed.

(** A rejected write fails the run.  When the store is available and
    rejects the document, [storeResult] throws the rejection, the run is
    reported as failed with it although the verdict was valid, and the
    collection is left as it was. *)
Theorem analyze_store_rejection (rt : runtime) (env : Env) (st st1 : State)
  (td aiText parsed : value) (e : exn) :
  buildPromptData rt env st = (Ok td, st1) ->
  callLLM env td = Ok aiText ->
  parseJsonFromText rt aiText = Ok parsed ->
  validateOutput parsed = Ok tt ->
  db_available env = true ->
  db_add env (stored_doc env (enrich env parsed)) = Throw e ->
  run rt env st = (Failed e, log_storeResult (enrich env parsed) st1)
  /\ collection (snd (run rt env st)) = collection st.
Proof.
  intros Hb Hc Hp Hv Hdb Hadd.
  assert (Hrun : run rt env st = (Failed e, log_storeResult (enrich env parsed) st1)).
  { unfold run. rewrite (analyze_steps rt env st st1 td Hb), Hc, Hp, Hv.
    rewrite (storeResult_available env _ st1 Hdb), Hadd. reflexivity. }
  split; [exact Hrun|]. rewrite Hrun. simpl.
  apply (buildPromptData_state rt env st st1 td Hb).
Qed.

Lemma get_own_set_own (fields : list (string * value)) (k k' : string) (v : value) :
  get_own (set_own fields k v) k'
  = if String.eqb k k' then Some v else get_own fields k'.
Proof.
  destruct (String.eqb_spec k k') as [<-|Hne].
  - apply get_own_set_own_eq.
  - now apply get_own_set_own_neq.
Qed.

(** The document written.  When the store is available and accepts the
    document of a result object, [storeResult] returns [{stored: true,
    id}] with the identifier the store gave, and appends one document at
    the end of the collection.  In it [timestamp], [createdAt], [service]
    and [serviceVersion] are the ones of the service, also when the result
    carried properties of these names; every other property is the one of
    the result. *)
Theorem storeResult_document (env : Env) (fields : list (string * value))
  (st : State) (id : string) :
  db_available env = true ->
  db_add env (stored_doc env (VObj fields)) = Ok id ->
  fst (storeResult env (VObj fields) st)
  = Ok (VObj [("stored", VBool true); ("id", VStr id)])
  /\ collection (snd (storeResult env (VObj fields) st))
     = collection st ++ [stored_doc env (VObj fields)]
  /\ opt_prop (stored_doc env (VObj fields)) "timestamp" = VStr (store_iso env)
  /\ opt_prop (stored_doc env (VObj fields)) "createdAt" = store_createdAt env
  /\ opt_prop (stored_doc env (VObj fields)) "service"
     = VStr "market-peak-analysis-service"
  /\ opt_prop (stored_doc env (VObj fields)) "serviceVersion" = VStr "1.0.0"
  /\ (forall k, ~ In k STORAGE_KEYS ->
        opt_prop (stored_doc env (VObj fields)) k = opt_prop (VObj fields) k).
Proof.
  intros Hdb Hadd. rewrite (storeResult_available env _ st Hdb), Hadd.
  split; [reflexivity|]. split; [reflexivity|].
  unfold stored_doc, spread. cbn [fold_left fst snd opt_prop spread_fields].
  rewrite !get_own_set_own. cbn [String.eqb Ascii.eqb Bool.eqb].
  split; [reflexivity|]. split; [reflexivity|].
  split; [reflexivity|]. split; [reflexivity|].
  intros k Hk. unfold STORAGE_KEYS in Hk. rewrite !get_own_set_own.
  destruct (String.eqb_spec "serviceVersion" k) as [<-|_];
    [exfalso; apply Hk; simpl; tauto|].
  destruct (String.eqb_spec "service" k) as [<-|_];
    [exfalso; apply Hk; simpl; tauto|].
  destruct (String.eqb_spec "createdAt" k) as [<-|_];
    [exfalso; apply Hk; simpl; tauto|].
  destruct (String.eqb_spec "timestamp" k) as [<-|_];
    [exfalso; apply Hk; simpl; tauto|].
  reflexivity.
Qed.

Lemma analyze_empty_content_witness :
  run Reference.rt
    (with_completion (fun _ => Ok (VObj [("choices", VArr [])]))
       (Examples.env_of EmptyString true Examples.add_ok))
    Examples.state0
  = (Failed EMPTY_RESPONSE, Examples.state0).
Proof.
  pose (env := with_completion (fun _ => Ok (VObj [("choices", VArr [])]))
                 (Examples.env_of EmptyString true Examples.add_ok)).
  destruct (buildPromptData Reference.rt env Examples.state0) as [r st1] eqn:Hb.
  assert (Hst : st1 = Examples.state0 /\ exists td, r = Ok td).
  { vm_compute in Hb. injection Hb as <- <-. split; [reflexivity|eauto]. }
  destruct Hst as [-> [td ->]].
  apply (proj1 (analyze_empty_content Reference.rt env Examples.state0 Examples.state0
                  td (VObj [("choices", VArr [])]) Hb eq_refl eq_refl
                  (or_introl eq_refl))).
Defined.

Lemma analyze_store_rejection_witness :
  fst (run Reference.rt
         (Examples.env_of (Examples.verdict_text "8") true Examples.add_rejected)
         Examples.state0)
  = Failed (Rejected "14 UNAVAILABLE: No connection established")
  /\ collection (snd (run Reference.rt
         (Examples.env_of (Examples.verdict_text "8") true Examples.add_rejected)
         Examples.state0)) = [].
Proof.
  pose (env := Examples.env_of (Examples.verdict_text "8") true Examples.add_rejected).
  destruct (buildPromptData Reference.rt env Examples.state0) as [r st1] eqn:Hb.
  assert (Hst : st1 = Examples.state0 /\ exists td, r = Ok td).
  { vm_compute in Hb. injection Hb as <- <-. split; [reflexivity|eauto]. }
  destruct Hst as [-> [td ->]].
  destruct (analyze_store_rejection Reference.rt env Examples.state0 Examples.state0
              td (VStr (Examples.verdict_text "8")) (VObj (Examples.verdict 8))
              (Rejected "14 UNAVAILABLE: No connection established")
              Hb eq_refl ltac:(vm_compute; reflexivity)
              ltac:(vm_compute; reflexivity) eq_refl eq_refl) as [H1 H2].
  split; [fold env; rewrite H1; reflexivity|exact H2].
Defined.

Lemma storeResult_document_witness :
  opt_prop (stored_doc (Examples.env_of EmptyString true Examples.add_ok)
              (VObj [("score", VNum (Fin 8)); ("service", VStr "other");
                     ("timestamp", VNum (Fin 1))])) "service"
    = VStr "market-peak-analysis-service"
  /\ opt_prop (stored_doc (Examples.env_of EmptyString true Examples.add_ok)
              (VObj [("score", VNum (Fin 8)); ("service", VStr "other");
                     ("timestamp", VNum (Fin 1))])) "timestamp"
    = VStr "2024-01-15T10:00:01.200Z"
  /\ opt_prop (stored_doc (Examples.env_of EmptyString true Examples.add_ok)
              (VObj [("score", VNum (Fin 8)); ("service", VStr "other");
                     ("timestamp", VNum (Fin 1))])) "score"
    = VNum (Fin 8).
Proof.
  destruct (storeResult_document (Examples.env_of EmptyString true Examples.add_ok)
              [("score", VNum (Fin 8)); ("service", VStr "other");
               ("timestamp", VNum (Fin 1))]
              Examples.state0 "doc-1" eq_refl eq_refl)
    as [_ [_ [Hts [_ [Hsvc [_ Hother]]]]]].
  split; [exact Hsvc|]. split; [exact Hts|].
  rewrite (Hother "score"); [reflexivity|].
  unfold STORAGE_KEYS. simpl. intros [H|[H|[H|[H|[]]]]]; discriminate H.
Defined.

(** What a run does to the store.  Whatever the data service, the model
    and the store answer, a run leaves the collection as it was or appends
    exactly one document at its end, and calls [storeResult] at most once;
    a failed run, and a run without the store, leave the collection as it
    was. *)
Theorem run_store_effect (rt : runtime) (env : Env) (st : State) :
  (collection (snd (run rt env st)) = collection st
   \/ exists doc, collection (snd (run rt env st)) = collection st ++ [doc])
  /\ (storeResult_calls (snd (run rt env st)) = storeResult_calls st
      \/ exists res,
           storeResult_calls (snd (run rt env st)) = storeResult_calls st ++ [res])
  /\ (forall e, fst (run rt env st) = Failed e ->
        collection (snd (run rt env st)) = collection st)
  /\ (db_available env = false ->
        collection (snd (run rt env st)) = collection st).
Proof.
  destruct (buildPromptData_ok rt env st) as [td [d Hb]].
  unfold run. rewrite (analyze_steps rt env st (with_daily d st) td Hb).
  destruct (callLLM env td) as [aiText|e1];
    [|cbn; repeat split; auto].
  destruct (parseJsonFromText rt aiText) as [parsed|e2];
    [|cbn; repeat split; auto].
  destruct (validateOutput parsed) as [u|e3];
    [|cbn; repeat split; auto].
  destruct (db_available env) eqn:Hdb.
  - rewrite (storeResult_available env _ _ Hdb).
    destruct (db_add env (stored_doc env (enrich env parsed))) as [id|e4]; cbn.
    + split; [right; eauto|]. split; [right; eauto|].
      split; [intros e He; discriminate He|intro H; discriminate H].
    + split; [left; reflexivity|]. split; [right; eauto|].
      split; auto.
  - rewrite (storeResult_unavailable env _ _ Hdb). cbn.
    split; [left; reflexivity|]. split; [right; eauto|].
    split; auto.
Qed.

(** What is stored is what is returned.  When a run succeeds with the
    store available, the collection has grown by exactly the document
    built from the analysis the run returns, [storeResult] was called once
    with that analysis, and the storage report is [{stored: true, id}]
    with the identifier the store gave for that document. *)
Theorem analyze_stores_returned_analysis (rt : runtime) (env : Env)
  (st st' : State) (analysis storage : value) :
  run rt env st = (Succeeded analysis storage, st') ->
  db_available env = true ->
  collection st' = collection st ++ [stored_doc env analysis]
  /\ storeResult_calls st' = storeResult_calls st ++ [analysis]
  /\ exists id, db_add env (stored_doc env analysis) = Ok id
                /\ storage = VObj [("stored", VBool true); ("id", VStr id)].
Proof.
  intros Hrun Hdb.
  destruct (buildPromptData_ok rt env st) as [td [d Hb]].
  unfold run in Hrun.
  rewrite (analyze_steps rt env st (with_daily d st) td Hb) in Hrun.
  destruct (callLLM env td) as [aiText|e1]; [|discriminate Hrun].
  destruct (parseJsonFromText rt aiText) as [parsed|e2]; [|discriminate Hrun].
  destruct (validateOutput parsed) as [u|e3]; [|discriminate Hrun].
  rewrite (storeResult_available env _ _ Hdb) in Hrun.
  destruct (db_add env (stored_doc env (enrich env parsed))) as [id|e4] eqn:Hadd;
    [|discriminate Hrun].
  cbn in Hrun. injection Hrun as <- <- <-. cbn.
  split; [reflexivity|]. split; [reflexivity|]. exists id. auto.
Qed.

Lemma analyze_stores_returned_analysis_witness :
  collection (snd (run Reference.rt
                     (Examples.env_of (Examples.verdict_text "8") true Examples.add_ok)
                     Examples.state0))
  = [stored_doc (Examples.env_of (Examples.verdict_text "8") true Examples.add_ok)
       (enrich (Examples.env_of (Examples.verdict_text "8") true Examples.add_ok)
          (VObj (Examples.verdict 8)))].
Proof.
  pose (env := Examples.env_of (Examples.verdict_text "8") true Examples.add_ok).
  change (collection (snd (run Reference.rt env Examples.state0))
          = [stored_doc env (enrich env (VObj (Examples.verdict 8)))]).
  destruct (run Reference.rt env Examples.state0) as [rep st'] eqn:Hrun.
  assert (Hrep : rep = Succeeded (enrich env (VObj (Examples.verdict 8)))
                         (VObj [("stored", VBool true); ("id", VStr "doc-1")])).
  { vm_compute in Hrun. injection Hrun as <- _. vm_compute. reflexivity. }
  subst rep.
  exact (proj1 (analyze_stores_returned_analysis Reference.rt env Examples.state0 st'
                  _ _ Hrun eq_refl)).
Defined.

(** ** The capture of the fenced block *)

Lemma lazy_capture_empty (s : string) :
  lazy_capture s = Some EmptyString -> closes s = true.
Proof.
  destruct s as [|x s]; cbn [lazy_capture].
  - destruct (closes EmptyString); [reflexivity|discriminate].
  - destruct (closes (String x s)); [reflexivity|].
    destruct (lazy_capture s); discriminate.
Qed.

Lemma lazy_capture_cons (x : ascii) (s c : string) :
  lazy_capture (String x s) = Some c ->
  (closes (String x s) = true /\ c = EmptyString)
  \/ (closes (String x s) = false
      /\ exists c', c = String x c' /\ lazy_capture s = Some c').
Proof.
  cbn [lazy_capture]. destruct (closes (String x s)).
  - intros [= <-]. left. auto.
  - destruct (lazy_capture s) as [c'|]; [|discriminate].
    intros [= <-]. right. eauto.
Qed.

Lemma lazy_capture_nil (c : string) : lazy_capture EmptyString = Some c -> False.
Proof. cbn. discriminate. Qed.

Lemma lazy_capture_no_fence (s c : string) :
  lazy_capture s = Some c -> forall a b, c <> (a ++ FENCE ++ b)%string.
Proof.
  revert c. induction s as [|x s IH]; intros c Hc a b Heq.
  - exact (lazy_capture_nil c Hc).
  - destruct (lazy_capture_cons x s c Hc) as [[_ ->]|[Hcl [c' [-> Hc']]]].
    + destruct a; discriminate Heq.
    + destruct a as [|y a].
      * destruct (lazy_capture_sound _ _ Hc) as [ws [post [Hs _]]].
        cbn [String.append] in Heq. rewrite Heq, append_assoc in Hs.
        rewrite Hs in Hcl.
        change (closes (EmptyString ++ FENCE ++ (b ++ ws ++ FENCE ++ post)) = false)
          in Hcl.
        rewrite (closes_fence EmptyString _ eq_refl) in Hcl. discriminate Hcl.
      * cbn [String.append] in Heq. injection Heq as _ Heq.
        exact (IH c' Hc' a b Heq).
Qed.

Lemma lazy_capture_last (s c : string) :
  lazy_capture s = Some c ->
  forall r x, c = (r ++ String x EmptyString)%string -> is_space x = false.
Proof.
  revert c. induction s as [|y s IH]; intros c Hc r x Heq.
  - destruct (lazy_capture_nil c Hc).
  - destruct (lazy_capture_cons y s c Hc) as [[_ ->]|[Hcl [c' [-> Hc']]]].
    + destruct r; discriminate Heq.
    + destruct r as [|z r]; cbn [String.append] in Heq.
      * injection Heq as -> ->.
        destruct (is_space x) eqn:Hx; [|reflexivity].
        rewrite (closes_space x s Hx), (lazy_capture_empty s Hc') in Hcl.
        discriminate Hcl.
      * injection Heq as _ Heq. exact (IH c' Hc' r x Heq).
Qed.

Lemma lazy_capture_tail (x : ascii) (s c : string) :
  is_space x = true -> lazy_capture (String x s) = Some c ->
  lazy_capture s <> None.
Proof.
  intros Hx Hc.
  destruct (lazy_capture_cons x s c Hc) as [[Hcl _]|[_ [c' [_ Hc']]]].
  - rewrite (closes_space x s Hx) in Hcl.
    destruct s as [|y s]; cbn [lazy_capture]; rewrite Hcl; discriminate.
  - rewrite Hc'. discriminate.
Qed.

Lemma after_label_none (s : string) : after_label s = None -> lazy_capture s = None.
Proof.
  destruct s as [|x s]; cbn [after_label]; [auto|].
  destruct (is_space x); [|auto].
  destruct (after_label s); [discriminate|auto].
Qed.

Lemma after_label_first (s c : string) :
  after_label s = Some c -> forall x r, c = String x r -> is_space x = false.
Proof.
  revert c. induction s as [|y s IH]; intros c Hc x r Heq.
  - destruct (lazy_capture_nil c Hc).
  - cbn [after_label] in Hc. destruct (is_space y) eqn:Hy.
    + destruct (after_label s) as [cap|] eqn:Ha.
      * injection Hc as ->. exact (IH c eq_refl x r Heq).
      * exfalso. apply (lazy_capture_tail y s c Hy Hc).
        exact (after_label_none s Ha).
    + destruct (lazy_capture_cons y s c Hc) as [[_ ->]|[_ [c' [-> _]]]].
      * discriminate Heq.
      * injection Heq as -> _. exact Hy.
Qed.

Lemma after_label_lazy (s c : string) :
  after_label s = Some c -> exists t, lazy_capture t = Some c.
Proof.
  revert c. induction s as [|y s IH]; intros c Hc.
  - eauto.
  - cbn [after_label] in Hc. destruct (is_space y).
    + destruct (after_label s) as [cap|]; [injection Hc as ->; eauto|eauto].
    + eauto.
Qed.

Lemma match_fence_here (s c : string) :
  match_fence s = Some c -> exists t, after_label t = Some c.
Proof.
  induction s as [|y s IH]; cbn [match_fence]; intro H.
  - destruct (match_here EmptyString) as [cap|] eqn:Hm; [|discriminate].
    injection H as ->. unfold match_here in Hm.
    destruct (prefix_ci FENCE_JSON EmptyString); [eauto|discriminate].
  - destruct (match_here (String y s)) as [cap|] eqn:Hm; [|auto].
    injection H as ->. unfold match_here in Hm.
    destruct (prefix_ci FENCE_JSON (String y s)); [eauto|discriminate].
Qed.

(** The text handed to the parser by the first strategy is trimmed.  The
    capture of the fenced block neither starts nor ends with a white-space
    character and contains no run of three backticks: it ends before the
    first closing fence after the label. *)
Theorem match_fence_capture_trimmed (s c : string) :
  match_fence s = Some c ->
  (forall x r, c = String x r -> is_space x = false)
  /\ (forall r x, c = (r ++ String x EmptyString)%string -> is_space x = false)
  /\ (forall a b, c <> (a ++ FENCE ++ b)%string).
Proof.
  intro H. destruct (match_fence_here s c H) as [t Ht].
  destruct (after_label_lazy t c Ht) as [u Hu].
  split; [exact (after_label_first t c Ht)|].
  split; [exact (lazy_capture_last u c Hu)|exact (lazy_capture_no_fence u c Hu)].
Qed.

Lemma match_fence_capture_trimmed_witness :
  match_fence Examples.text_fenced = Some (Examples.verdict_text "8")
  /\ (forall x r, Examples.verdict_text "8" = String x r -> is_space x = false).
Proof.
  split; [vm_compute; reflexivity|].
  exact (proj1 (match_fence_capture_trimmed Examples.text_fenced
                  (Examples.verdict_text "8") ltac:(vm_compute; reflexivity))).
Defined.

(** ** The listener and the read routes *)

Lemma get_own_none (fields : list (string * value)) (k : string) :
  ~ In k (map fst fields) -> get_own fields k = None.
Proof.
  induction fields as [|[k' v] rest IH]; intro H; [reflexivity|].
  cbn [get_own]. destruct (String.eqb_spec k' k) as [->|_].
  - exfalso. apply H. now left.
  - apply IH. intro Hin. apply H. now right.
Qed.

Lemma get_own_spread (a b : list (string * value)) (k : string) :
  NoDup (map fst b) ->
  get_own (spread a b) k
  = match get_own b k with Some v => Some v | None => get_own a k end.
Proof.
  unfold spread. revert a. induction b as [|[k0 v0] b IH]; intros a Hnd.
  - reflexivity.
  - cbn [map fst] in Hnd. inversion Hnd as [|? ? Hnotin Hnd']; subst.
    cbn [fold_left fst snd get_own]. rewrite (IH _ Hnd'), get_own_set_own.
    destruct (String.eqb_spec k0 k) as [->|_]; [|reflexivity].
    now rewrite (get_own_none b k Hnotin).
Qed.

(** A row carries the fields of its document.  In [{id: doc.id,
    ...doc.data()}] every field of the document is kept, a field of the
    document named [id] hides the identifier of the document, and the
    summary of the indicators of the row is the one of the document. *)
Theorem doc_row_fields (rt : runtime) (doc : DocumentSnapshot) :
  NoDup (map fst (doc_data doc)) ->
  opt_prop (doc_row doc) "id"
  = match get_own (doc_data doc) "id" with
    | Some v => v
    | None => VStr (doc_id doc)
    end
  /\ (forall k, k <> "id" ->
        opt_prop (doc_row doc) k = opt_prop (VObj (doc_data doc)) k)
  /\ generateBullPeakSummary rt (doc_row doc)
     = generateBullPeakSummary rt (VObj (doc_data doc)).
Proof.
  intro Hnd.
  assert (Hother : forall k, k <> "id" ->
            opt_prop (doc_row doc) k = opt_prop (VObj (doc_data doc)) k).
  { intros k Hk. unfold doc_row. cbn [opt_prop].
    rewrite (get_own_spread _ _ k Hnd).
    destruct (get_own (doc_data doc) k); [reflexivity|].
    cbn [get_own]. destruct (String.eqb_spec "id" k) as [<-|_]; [|reflexivity].
    now destruct Hk. }
  split; [|split; [exact Hother|]].
  - unfold doc_row. cbn [opt_prop]. rewrite (get_own_spread _ _ "id" Hnd).
    destruct (get_own (doc_data doc) "id"); reflexivity.
  - unfold generateBullPeakSummary, summary_lines.
    rewrite (Hother "indicators") by discriminate. reflexivity.
Qed.

Lemma doc_row_fields_witness :
  opt_prop (doc_row Reads.latest_doc) "id" = VStr "run-7"
  /\ generateBullPeakSummary Reference.rt (doc_row Reads.latest_doc)
     = generateBullPeakSummary Reference.rt (VObj (doc_data Reads.latest_doc)).
Proof.
  assert (Hnd : NoDup (map fst (doc_data Reads.latest_doc))).
  { cbn. repeat constructor; cbn; intuition discriminate. }
  destruct (doc_row_fields Reference.rt Reads.latest_doc Hnd) as [H1 [_ H3]].
  split; [exact H1|exact H3].
Defined.

Lemma latest_after_last (latest : value) (events : list ListenerEvent) :
  latest_after latest events
  = match last_event events with
    | Some ev => onSnapshot ev
    | None => latest
    end.
Proof.
  unfold latest_after, last_event.
  induction events as [|ev events IH] using rev_ind; [reflexivity|].
  rewrite fold_left_app, map_app. cbn [map fold_left].
  rewrite last_last. reflexivity.
Qed.

(** The indicators of a prompt and the events of the listener.  The
    summary in the template data is the one of the last event delivered
    before [buildPromptData] summarizes; the raw snapshot is the one of the
    last event delivered before it builds the object it returns, so an
    event delivered in between changes the raw snapshot only.  With no
    event yet, after an error or after a snapshot of a missing document,
    the summary is the sentence [No Bull Market Peak Indicators available]
    and the raw snapshot the placeholder [{note: no_bull_peak_data}]; after
    a snapshot of a document they are the summary of its row, and its
    row. *)
Theorem listener_prompt (rt : runtime) (env : Env) (st : State)
  (before during : list ListenerEvent) :
  exists fields st',
    buildPromptData rt (with_events before during env) st
    = (Ok (VObj fields), st')
    /\ get_own fields "bull_market_peak_indicators"
       = Some (VStr match last_event before with
                    | Some (Next doc) =>
                        if doc_exists doc
                        then generateBullPeakSummary rt (doc_row doc)
                        else NO_INDICATORS
                    | _ => NO_INDICATORS
                    end)
    /\ get_own fields "bull_market_peak_raw"
       = Some match last_event (before ++ during) with
              | Some (Next doc) =>
                  if doc_exists doc then doc_row doc else NO_BULL_PEAK_DATA
              | _ => NO_BULL_PEAK_DATA
              end.
Proof.
  destruct (buildPromptData_reads rt (with_events before during env) st)
    as [lb [cb [le [ce [ls [cs [_ [_ [_ H]]]]]]]]].
  eexists _, _. split; [exact H|].
  cbn [get_own String.eqb Ascii.eqb Bool.eqb BULL_PEAK snapshots with_events].
  split.
  - unfold BULL_PEAK_after. rewrite (latest_after_last VNull before).
    destruct (last_event before) as [[doc|e]|]; cbn [onSnapshot];
      [|reflexivity|reflexivity].
    destruct (doc_exists doc); reflexivity.
  - assert (Hl : latest_after (BULL_PEAK_after before) during
                 = latest_after VNull (before ++ during)).
    { unfold BULL_PEAK_after, latest_after. now rewrite fold_left_app. }
    rewrite Hl, (latest_after_last VNull (before ++ during)).
    destruct (last_event (before ++ during)) as [[doc|e]|]; cbn [onSnapshot];
      [|reflexivity|reflexivity].
    destruct (doc_exists doc); reflexivity.
Qed.





(** The latest route.  It asks the store for one row and answers with the
    first row it is given, and with [null] when the store has none or is
    not available; only a rejected query answers 500. *)
Theorem route_latest_first (rd : Reader) :
  route_latest rd
  = if db rd then
      match recent_docs rd (Fin 1) with
      | Ok docs =>
          {| status := 200;
             body := VObj [("latest",
                              match docs with
                              | doc :: _ => doc_row doc
                              | [] => VNull
                              end);
                           ("timestamp", VStr (now_iso rd))] |}
      | Throw e => {| status := 500; body := VObj [("error", message rd e)] |}
      end
    else
      {| status := 200;
         body := VObj [("latest", VNull); ("timestamp", VStr (now_iso rd))] |}.
Proof.
  unfold route_latest, getRecent.
  destruct (db rd); cbn [negb]; [|reflexivity].
  change (Math_min (Fin 1) (Fin 50)) with (Fin 1).
  destruct (recent_docs rd (Fin 1)) as [[|doc docs]|e]; reflexivity.
Qed.
